(** * Doppio threading core: threads, frames and the thread pool

    A shallow embedding of [src/threading.ts]: the stack frames
    ([BytecodeStackFrame], [NativeStackFrame], [InternalStackFrame]), the
    thread pool ([ThreadPool]) and the thread ([JVMThread]) with its status
    state machine.

    JavaScript objects that the code mutates through references (threads and
    stack frames) live in two stores indexed by address.  The code is
    re-entrant ([setStatus] calls [run], [exit] and [asyncReturn], which call
    [setStatus] again), so the recursive functions take a [fuel] that bounds
    the depth of calls and the number of loop iterations.  Code of other
    modules (opcodes, monitors, class loaders, the Java thread object) is
    taken through the [Externals] interface. *)

From Stdlib Require Import ZArith Lia Bool PrimFloat.
From stdpp Require Import base option list gmap strings.

Open Scope Z_scope.

(** ** Enumerations of [enums.ts] (names only; the numeric values the code
       depends on are part of [Externals]) *)

Module ThreadStatus.
Inductive t :=
| NEW | RUNNING | RUNNABLE | BLOCKED | UNINTERRUPTABLY_BLOCKED
| WAITING | ASYNC_WAITING | PARKED | TIMED_WAITING | TERMINATED.

#[global] Instance eq_dec : EqDecision t.
Proof. solve_decision. Defined.

(** [a === b] *)
Definition eqb (a b : t) : bool :=
  match a, b with
  | NEW, NEW | RUNNING, RUNNING | RUNNABLE, RUNNABLE | BLOCKED, BLOCKED
  | UNINTERRUPTABLY_BLOCKED, UNINTERRUPTABLY_BLOCKED | WAITING, WAITING
  | ASYNC_WAITING, ASYNC_WAITING | PARKED, PARKED | TIMED_WAITING, TIMED_WAITING
  | TERMINATED, TERMINATED => true
  | _, _ => false
  end.

Definition all : list t :=
  [NEW; RUNNING; RUNNABLE; BLOCKED; UNINTERRUPTABLY_BLOCKED;
   WAITING; ASYNC_WAITING; PARKED; TIMED_WAITING; TERMINATED].
End ThreadStatus.

Module JVMTIThreadState.
Inductive t :=
| ALIVE | TERMINATED | RUNNABLE | BLOCKED_ON_MONITOR_ENTER
| WAITING_INDEFINITELY | WAITING_WITH_TIMEOUT.
End JVMTIThreadState.

Module StackFrameType.
Inductive t := INTERNAL | NATIVE | BYTECODE.

#[global] Instance eq_dec : EqDecision t.
Proof. solve_decision. Defined.
End StackFrameType.

(** The opcodes that [BytecodeStackFrame.scheduleResume] names. *)
Module OpCode.
Inductive t :=
| INVOKEINTERFACE | INVOKEINTERFACE_FAST
| INVOKESPECIAL | INVOKESTATIC | INVOKEVIRTUAL
| INVOKESTATIC_FAST | INVOKENONVIRTUAL_FAST | INVOKEVIRTUAL_FAST
| INVOKEHANDLE | INVOKEBASIC | LINKTOSPECIAL | LINKTOVIRTUAL
| INVOKEDYNAMIC | INVOKEDYNAMIC_FAST.

#[global] Instance eq_dec : EqDecision t.
Proof. solve_decision. Defined.

Definition all : list t :=
  [INVOKEINTERFACE; INVOKEINTERFACE_FAST;
   INVOKESPECIAL; INVOKESTATIC; INVOKEVIRTUAL;
   INVOKESTATIC_FAST; INVOKENONVIRTUAL_FAST; INVOKEVIRTUAL_FAST;
   INVOKEHANDLE; INVOKEBASIC; LINKTOSPECIAL; LINKTOVIRTUAL;
   INVOKEDYNAMIC; INVOKEDYNAMIC_FAST].

(** The ones the switch advances by 5. *)
Definition isInterface (o : t) : bool :=
  match o with INVOKEINTERFACE | INVOKEINTERFACE_FAST => true | _ => false end.
End OpCode.

(** ** Values and references *)

(** Addresses of JavaScript objects. *)
Definition ThreadAddr := nat.      (* a JVMThread object *)
Definition FrameAddr := nat.       (* an IStackFrame object *)
Definition Monitor := nat.         (* a Monitor object (Monitor.ts) *)
Definition ClassData := nat.       (* a ClassData object (ClassData.ts) *)
Definition ClassLoader := nat.     (* a ClassLoader object *)
Definition Throwable := nat.       (* a java.lang.Throwable object *)
Definition JSFunction := nat.      (* a callback of the embedding code *)

(** What an operand slot, a local or a return value holds. *)
Inductive Value :=
| undefined
| null
| num (n : Z)
| boolean (b : bool)
| obj (a : nat).

#[global] Instance Value_eq_dec : EqDecision Value.
Proof. solve_decision. Defined.

(** [v ? 1 : 0] *)
Definition truthy (v : Value) : bool :=
  match v with
  | undefined | null => false
  | num n => negb (n =? 0)
  | boolean b => b
  | obj _ => true
  end.

(** [typeof v !== 'boolean'] *)
Definition notBoolean (v : Value) : bool :=
  match v with boolean _ => false | _ => true end.

(** [v == null] (loose equality: null or undefined) *)
Definition looseNull (v : Value) : bool :=
  match v with undefined | null => true | _ => false end.

(** ** Method metadata read by the threading code (methods.ts, attributes.ts) *)

Module ExceptionHandler.
Record t := mk {
  startPC : Z;
  endPC : Z;
  handlerPC : Z;
  catchType : string
}.

#[global] Instance eq_dec : EqDecision t.
Proof. solve_decision. Defined.
End ExceptionHandler.

Module Method.
Record t := mk {
  fullSignature : string;
  isNative : bool;
  isAbstract : bool;
  isSynchronized : bool;
  returnType : string;
  (** [getCodeAttribute().getCode()]: the bytes of the code *)
  code : list Z;
  (** [getCodeAttribute().exceptionHandlers] *)
  exceptionHandlers : list ExceptionHandler.t;
  (** [cls.getLoader()] *)
  loader : ClassLoader
}.

#[global] Instance eq_dec : EqDecision t.
Proof. solve_decision. Defined.
End Method.

(** ** Stack frames *)

Module BytecodeStackFrame.
Record t := mk {
  pc : Z;
  locals : list Value;
  stack : list Value;
  returnToThreadLoop : bool;
  lockedMethodLock : bool;
  method : Method.t
}.

Definition with_pc (v : Z) (f : t) : t :=
  mk v (locals f) (stack f) (returnToThreadLoop f) (lockedMethodLock f) (method f).
Definition with_stack (v : list Value) (f : t) : t :=
  mk (pc f) (locals f) v (returnToThreadLoop f) (lockedMethodLock f) (method f).
Definition with_returnToThreadLoop (v : bool) (f : t) : t :=
  mk (pc f) (locals f) (stack f) v (lockedMethodLock f) (method f).
Definition with_lockedMethodLock (v : bool) (f : t) : t :=
  mk (pc f) (locals f) (stack f) (returnToThreadLoop f) v (method f).

(** [new BytecodeStackFrame(method, args)] *)
Definition new (m : Method.t) (args : list Value) : t :=
  mk 0 args [] false false m.
End BytecodeStackFrame.

Module NativeStackFrame.
Record t := mk {
  method : Method.t;
  args : list Value
}.
End NativeStackFrame.

Module InternalStackFrame.
Record t := mk {
  isException : bool;
  val : Value;
  cb : JSFunction
}.

(** [new InternalStackFrame(cb)] *)
Definition new (f : JSFunction) : t := mk false undefined f.
End InternalStackFrame.

Inductive IStackFrame :=
| Bytecode (f : BytecodeStackFrame.t)
| Native (f : NativeStackFrame.t)
| Internal (f : InternalStackFrame.t).

(** The [type] field of each class. *)
Definition frameType (f : IStackFrame) : StackFrameType.t :=
  match f with
  | Bytecode _ => StackFrameType.BYTECODE
  | Native _ => StackFrameType.NATIVE
  | Internal _ => StackFrameType.INTERNAL
  end.

Module IStackTraceFrame.
Record t := mk {
  method : Method.t;
  pc : Z;
  stack : list Value;
  locals : list Value
}.
End IStackTraceFrame.

(** [getStackTraceFrame()]; [None] is the [null] of the internal frames. *)
Definition getStackTraceFrame (f : IStackFrame) : option IStackTraceFrame.t :=
  match f with
  | Bytecode b =>
      Some (IStackTraceFrame.mk (BytecodeStackFrame.method b) (BytecodeStackFrame.pc b)
              (BytecodeStackFrame.stack b) (BytecodeStackFrame.locals b))
  | Native n => Some (IStackTraceFrame.mk (NativeStackFrame.method n) (-1) [] [])
  | Internal _ => None
  end.

(** ** The Java thread object and the thread *)

Module java_lang_Thread.
Record t := mk {
  ref : Z;
  (** the field java/lang/Thread/threadStatus *)
  threadStatus : Z;
  (** the field java/lang/Thread/daemon *)
  daemon : Z
}.

Definition with_threadStatus (v : Z) (o : t) : t := mk (ref o) v (daemon o).
End java_lang_Thread.

Module JVMThread.
Record t := mk {
  status : ThreadStatus.t;
  (** the call stack, bottom first: [push] and [pop] work at the end *)
  stack : list FrameAddr;
  interrupted : bool;
  immortal : bool;
  monitor : option Monitor;
  jvmThreadObj : java_lang_Thread.t
}.

Definition with_status (v : ThreadStatus.t) (x : t) : t :=
  mk v (stack x) (interrupted x) (immortal x) (monitor x) (jvmThreadObj x).
Definition with_stack (v : list FrameAddr) (x : t) : t :=
  mk (status x) v (interrupted x) (immortal x) (monitor x) (jvmThreadObj x).
Definition with_interrupted (v : bool) (x : t) : t :=
  mk (status x) (stack x) v (immortal x) (monitor x) (jvmThreadObj x).
Definition with_monitor (v : option Monitor) (x : t) : t :=
  mk (status x) (stack x) (interrupted x) (immortal x) v (jvmThreadObj x).
Definition with_jvmThreadObj (v : java_lang_Thread.t) (x : t) : t :=
  mk (status x) (stack x) (interrupted x) (immortal x) (monitor x) v.

(** [new JVMThread(bsCl, tpool, threadObj)]: starts in the NEW state. *)
Definition new (threadObj : java_lang_Thread.t) : t :=
  mk ThreadStatus.NEW [] false false None threadObj.
End JVMThread.

(** ** The thread pool *)

Module ThreadPool.
Record t := mk {
  threads : list ThreadAddr;
  runningThread : option ThreadAddr;
  runningThreadIndex : Z;
  parkCounts : gmap Z Z
}.

Definition with_threads (v : list ThreadAddr) (p : t) : t :=
  mk v (runningThread p) (runningThreadIndex p) (parkCounts p).
Definition with_runningThread (v : option ThreadAddr) (p : t) : t :=
  mk (threads p) v (runningThreadIndex p) (parkCounts p).
Definition with_runningThreadIndex (v : Z) (p : t) : t :=
  mk (threads p) (runningThread p) v (parkCounts p).
Definition with_parkCounts (v : gmap Z Z) (p : t) : t :=
  mk (threads p) (runningThread p) (runningThreadIndex p) v.

(** [new ThreadPool(jvm, bsCl, emptyCallback)] *)
Definition new : t := mk [] None (-1) ∅.
End ThreadPool.

(** ** Closures the code hands to [setImmediate] and to other modules *)

Inductive Callback :=
(** [scheduleNextThread]: the body deferred with [setImmediate] *)
| CbScheduleNextThread
(** [JVMThread.run]: [() => this.setStatus(RUNNABLE)] *)
| CbYieldResume (t : ThreadAddr)
(** [BytecodeStackFrame.run]: [() => this.lockedMethodLock = true] *)
| CbMethodLockAcquired (a : FrameAddr)
(** [BytecodeStackFrame.scheduleException]: rethrows [e] when the classes
    were resolved *)
| CbRethrow (t : ThreadAddr) (e : Throwable)
(** [JVMThread.exit]: [phase2] *)
| CbExitPhase2 (t : ThreadAddr) (m : Monitor).

(** Calls into other modules, in the order the threading code makes them. *)
Inductive Event :=
| EvOpcode (op : Z) (t : ThreadAddr) (a : FrameAddr) (pc : Z)
| EvNativeCall (m : Method.t) (t : ThreadAddr)
| EvInternalCallback (f : JSFunction) (e : Value) (rv : Value)
| EvMonitorEnter (m : Monitor) (t : ThreadAddr)
| EvMonitorExit (m : Monitor) (t : ThreadAddr)
| EvMonitorNotifyAll (m : Monitor) (t : ThreadAddr)
| EvResolveClasses (l : ClassLoader) (t : ThreadAddr) (names : list string)
| EvDispatchUncaughtException (t : ThreadAddr) (e : Throwable)
| EvSystemExit (t : ThreadAddr)
| EvEmptyCallback.

#[global] Instance Event_eq_dec : EqDecision Event.
Proof. solve_decision. Defined.

(** What a JavaScript [throw] carries, as far as the model tells them apart. *)
Inductive JSError :=
| AssertionError (msg : string)
| TypeError (msg : string)
| RangeError (msg : string)
| ExternalError (msg : string).

(** ** The state of the program *)

(** [X] is the state of the modules this file does not embed (monitors,
    class loaders, the heap). *)
Record World {X : Type} := mkWorld {
  (** the JVMThread objects *)
  threadObjs : ThreadAddr → JVMThread.t;
  (** the IStackFrame objects *)
  frameObjs : FrameAddr → IStackFrame;
  (** the one ThreadPool (every thread's [tpool]) *)
  tpool : ThreadPool.t;
  (** the module-level variables of threading.ts *)
  maxMethodResumes : float;
  methodResumesLeft : float;
  responsiveness : float;
  numSamples : float;
  (** closures queued by [setImmediate], oldest first *)
  immediates : list Callback;
  (** calls made into other modules, oldest first *)
  calls : list Event;
  ext : X
}.
Arguments World : clear implicits.
Arguments mkWorld {X}.

(** The outcome of a call: it returns, it throws, or the model ran out of
    fuel.  A JavaScript exception does not undo the writes made before it, so
    [Throw] carries the state too. *)
Inductive Result {X : Type} (A : Type) :=
| Ok (a : A) (w : World X)
| Throw (e : JSError) (w : World X)
| OutOfFuel.
Arguments Ok {X A}.
Arguments Throw {X A}.
Arguments OutOfFuel {X A}.

Definition M (X A : Type) : Type := World X → Result (X:=X) A.

Definition ret {X A} (a : A) : M X A := fun w => Ok a w.

Definition bind {X A B} (m : M X A) (k : A → M X B) : M X B :=
  fun w =>
    match m w with
    | Ok a w' => k a w'
    | Throw e w' => Throw e w'
    | OutOfFuel => OutOfFuel
    end.

Definition throw {X A} (e : JSError) : M X A := fun w => Throw e w.
Definition outOfFuel {X A} : M X A := fun _ => OutOfFuel.

Declare Scope js_scope.
Delimit Scope js_scope with js.
Notation "'let*' x ':=' m 'in' k" := (bind m (fun x => k))
  (at level 10, x name, m at level 100, k at level 200) : js_scope.
Notation "m1 ';;;' m2" := (bind m1 (fun _ => m2))
  (at level 100, m2 at level 200, right associativity) : js_scope.

(** [if (c) { m }] *)
Definition when {X} (c : bool) (m : M X unit) : M X unit :=
  if c then m else ret tt.

(** The state a result ends in. *)
Definition finalWorld {X A} (r : Result (X:=X) A) : option (World X) :=
  match r with
  | Ok _ w => Some w
  | Throw _ w => Some w
  | OutOfFuel => None
  end.

Definition returns {X A} (r : Result (X:=X) A) : Prop :=
  match r with Ok _ _ => True | _ => False end.

(** ** JavaScript arrays and numbers *)

(** [l[i]] *)
Definition lookupZ {A} (l : list A) (i : Z) : option A :=
  if i <? 0 then None else l !! Z.to_nat i.

(** [l.indexOf(x)] *)
Fixpoint indexOfFrom (l : list nat) (x : nat) (i : Z) : Z :=
  match l with
  | [] => -1
  | y :: l' => if Nat.eqb y x then i else indexOfFrom l' x (i + 1)
  end.
Definition indexOf (l : list nat) (x : nat) : Z := indexOfFrom l x 0.

(** [l.splice(idx, 1)]: a negative [idx] counts from the end (and not below
    0); past the end nothing is removed. *)
Definition splice1 {A} (l : list A) (idx : Z) : list A :=
  let len := Z.of_nat (length l) in
  let start := if idx <? 0 then Z.max (len + idx) 0 else Z.min idx len in
  take (Z.to_nat start) l ++ drop (S (Z.to_nat start)) l.

(** [l.pop()]: the array without its last element, and that element. *)
Definition pop {A} (l : list A) : list A * option A :=
  (removelast l, last l).

(** [code.readUInt8(pc)] *)
Definition readUInt8 (code : list Z) (pc : Z) : option Z := lookupZ code pc.

(** ToInt32 of an integer, and [a | b]. *)
Definition ToInt32 (z : Z) : Z :=
  let m := z mod 2 ^ 32 in if m <? 2 ^ 31 then m else m - 2 ^ 32.
Definition js_or (a b : Z) : Z := ToInt32 (Z.lor (ToInt32 a) (ToInt32 b)).

(** [Math.floor] on a double. *)
Definition two52 : float := 4503599627370496%float.
Definition Math_floor (x : float) : float :=
  if PrimFloat.ltb (PrimFloat.abs x) two52 then
    let r := if PrimFloat.ltb x 0%float
             then (x - two52 + two52)%float
             else (x + two52 - two52)%float in
    if PrimFloat.ltb x r then (r - 1)%float else r
  else x.

(** ** Other modules *)

(** The outcome of a call into another module: it returns or it throws. *)
Inductive ExtResult {X : Type} (A : Type) :=
| ExtOk (a : A) (w : World X)
| ExtThrow (e : JSError) (w : World X).
Arguments ExtOk {X A}.
Arguments ExtThrow {X A}.

Definition ExtM (X A : Type) : Type := World X → ExtResult (X:=X) A.

Class Externals (X : Type) := {
  (** the build flag: assertions exist in debug builds only *)
  RELEASE : bool;
  (** [enums.JVMTIThreadState] and [enums.OpCode] as numbers *)
  JVMTIThreadState_value : JVMTIThreadState.t → Z;
  OpCode_value : OpCode.t → Z;
  (** [opcodes.LookupTable[op](thread, frame, code, pc)] *)
  opcodes_LookupTable : Z → ThreadAddr → FrameAddr → list Z → Z → ExtM X unit;
  (** [method.getNativeFunction().apply(null, method.convertArgs(thread, args))] *)
  nativeFunction : Method.t → ThreadAddr → list Value → ExtM X Value;
  (** [cb(e, rv)] of an internal frame *)
  callJSFunction : JSFunction → Value → Value → ExtM X unit;
  (** [method.methodLock(thread, frame)] *)
  Method_methodLock : Method.t → ThreadAddr → FrameAddr → World X → Monitor;
  (** [monitor.enter(thread, cb)], [monitor.exit(thread)], [monitor.notifyAll(thread)] *)
  Monitor_enter : Monitor → ThreadAddr → Callback → ExtM X bool;
  Monitor_exit : Monitor → ThreadAddr → ExtM X unit;
  Monitor_notifyAll : Monitor → ThreadAddr → ExtM X unit;
  (** [jvmThreadObj.getMonitor()] *)
  Thread_getMonitor : java_lang_Thread.t → Monitor;
  (** [loader.getResolvedClass(name)]; [None] is [null] *)
  ClassLoader_getResolvedClass : ClassLoader → string → World X → option ClassData;
  (** [loader.resolveClasses(thread, names, cb)] *)
  ClassLoader_resolveClasses : ClassLoader → ThreadAddr → list string → Callback → ExtM X unit;
  (** [e.getClass()] and [cls.isCastable(target)] *)
  Throwable_getClass : Throwable → ClassData;
  ClassData_isCastable : ClassData → ClassData → bool;
  (** [jvmThreadObj['dispatchUncaughtException(Ljava/lang/Throwable;)V'](thread, [e])] *)
  Thread_dispatchUncaughtException : ThreadAddr → Throwable → ExtM X unit;
  (** [jvm.isShutdown()] *)
  JVM_isShutdown : World X → bool;
  (** [getInitializedClass(thread, 'Ljava/lang/System;')] and the call of exit(0) on it *)
  System_exit : ThreadAddr → ExtM X unit;
  (** the pool's [emptyCallback] *)
  ThreadPool_emptyCallback : ExtM X unit;
  (** [(new Date()).getTime()] *)
  Date_getTime : World X → float;
  (** [thread.bsCl]: the bootstrap class loader, the same for every thread of
      the pool *)
  JVMThread_bsCl : ClassLoader;
  (** [loader.getInitializedClass(thread, name)]; [None] is [null] *)
  ClassLoader_getInitializedClass :
    ClassLoader → ThreadAddr → string → World X → option ClassData;
  (** The loaders that the walks of [validateReturnValue] go through after
      [loader]: the [$loader] of the parent of each loader object, the
      bootstrap loader for a null parent; the last one is the first loader
      without a loader object *)
  ClassLoader_parents : ClassLoader → World X → list ClassLoader;
  (** [cls.accessFlags.isInterface()] *)
  ClassData_isInterface : ClassData → bool;
  (** [util.is_primitive_type], [util.is_array_type], [util.is_reference_type]
      and [util.wrapFloat] *)
  util_is_primitive_type : string → bool;
  util_is_array_type : string → bool;
  util_is_reference_type : string → bool;
  util_wrapFloat : Value → Value;
  (** The number an object is converted to by [<=], [>=] and [isNaN]; [None]
      is NaN *)
  Object_ToNumber : nat → World X → option Z;
  (** The 64-bit integer of an object that is a [gLong]; [None] for the other
      objects, which have no method [lessThanOrEqual] *)
  gLong_value : nat → option Z;
  (** [typeof o['getClass'] === 'function'] *)
  Object_hasGetClass : nat → bool;
  (** [o instanceof bsCl.getInitializedClass(thread, 'Ljava/lang/Object;').getConstructor(thread)] *)
  Object_instanceOfObject : ThreadAddr → nat → World X → bool
}.

Section Threading.
Context {X : Type} {E : Externals X}.

Local Open Scope js_scope.
Local Abbreviation W := (World X).
Local Abbreviation M := (M X).

(** *** Reading and writing the state *)

Definition with_threadObjs (v : ThreadAddr → JVMThread.t) (w : W) : W :=
  mkWorld v (frameObjs w) (tpool w) (maxMethodResumes w) (methodResumesLeft w)
    (responsiveness w) (numSamples w) (immediates w) (calls w) (ext w).
Definition with_frameObjs (v : FrameAddr → IStackFrame) (w : W) : W :=
  mkWorld (threadObjs w) v (tpool w) (maxMethodResumes w) (methodResumesLeft w)
    (responsiveness w) (numSamples w) (immediates w) (calls w) (ext w).
Definition with_tpool (v : ThreadPool.t) (w : W) : W :=
  mkWorld (threadObjs w) (frameObjs w) v (maxMethodResumes w) (methodResumesLeft w)
    (responsiveness w) (numSamples w) (immediates w) (calls w) (ext w).
Definition with_maxMethodResumes (v : float) (w : W) : W :=
  mkWorld (threadObjs w) (frameObjs w) (tpool w) v (methodResumesLeft w)
    (responsiveness w) (numSamples w) (immediates w) (calls w) (ext w).
Definition with_methodResumesLeft (v : float) (w : W) : W :=
  mkWorld (threadObjs w) (frameObjs w) (tpool w) (maxMethodResumes w) v
    (responsiveness w) (numSamples w) (immediates w) (calls w) (ext w).
Definition with_numSamples (v : float) (w : W) : W :=
  mkWorld (threadObjs w) (frameObjs w) (tpool w) (maxMethodResumes w) (methodResumesLeft w)
    (responsiveness w) v (immediates w) (calls w) (ext w).
Definition with_immediates (v : list Callback) (w : W) : W :=
  mkWorld (threadObjs w) (frameObjs w) (tpool w) (maxMethodResumes w) (methodResumesLeft w)
    (responsiveness w) (numSamples w) v (calls w) (ext w).
Definition with_calls (v : list Event) (w : W) : W :=
  mkWorld (threadObjs w) (frameObjs w) (tpool w) (maxMethodResumes w) (methodResumesLeft w)
    (responsiveness w) (numSamples w) (immediates w) v (ext w).

Definition get {A} (f : W → A) : M A := fun w => Ok (f w) w.
Definition modify (f : W → W) : M unit := fun w => Ok tt (f w).

(** Writes to the object at an address, and to the pool. *)
Definition updThread (t : ThreadAddr) (f : JVMThread.t → JVMThread.t) (w : W) : W :=
  with_threadObjs (fun a => if Nat.eqb a t then f (threadObjs w t) else threadObjs w a) w.
Definition updFrame (a : FrameAddr) (f : IStackFrame → IStackFrame) (w : W) : W :=
  with_frameObjs (fun b => if Nat.eqb b a then f (frameObjs w a) else frameObjs w b) w.
Definition updPool (f : ThreadPool.t → ThreadPool.t) (w : W) : W :=
  with_tpool (f (tpool w)) w.

(** The thread at [t], and an update of it. *)
Definition thread (t : ThreadAddr) : M JVMThread.t := get (fun w => threadObjs w t).
Definition setThread (t : ThreadAddr) (f : JVMThread.t → JVMThread.t) : M unit :=
  modify (updThread t f).

(** The frame at [a], and an update of it. *)
Definition frame (a : FrameAddr) : M IStackFrame := get (fun w => frameObjs w a).
Definition setFrame (a : FrameAddr) (f : IStackFrame) : M unit :=
  modify (updFrame a (fun _ => f)).

Definition pool : M ThreadPool.t := get tpool.
Definition setPool (f : ThreadPool.t → ThreadPool.t) : M unit :=
  modify (updPool f).

(** The state after a call into another module returned or threw. *)
Definition logged (ev : Event) (w w' : W) : W := with_calls (calls w ++ [ev]) w'.

(** A call into another module: it is recorded, then made. *)
Definition extern {A} (ev : Event) (f : ExtM X A) : M A :=
  fun w =>
    match f w with
    | ExtOk a w' => Ok a (logged ev w w')
    | ExtThrow e w' => Throw e (logged ev w w')
    end.

(** [setImmediate(cb)] *)
Definition setImmediate (cb : Callback) : M unit :=
  modify (fun w => with_immediates (immediates w ++ [cb]) w).

(** Modelled from the spec: the module [assert.ts] is missing from the
    sources; by the spec (7, error plane 2) a failed assertion is fatal in
    debug builds and assertions are elided in release builds. *)
Definition assert (b : bool) (msg : string) : M unit :=
  if RELEASE then ret tt
  else if b then ret tt else throw (AssertionError msg).

(** *** The transition validator *)

(** [validTransitions[old][new]], [None] where there is no entry. *)
Definition validTransitions (old new : ThreadStatus.t) : option string :=
  match old, new with
  | ThreadStatus.NEW, ThreadStatus.RUNNABLE => Some "RunMethod invoked on new thread"
  | ThreadStatus.NEW, ThreadStatus.ASYNC_WAITING =>
      Some "[JVM bootup only] Internal operation occurs on new thread"
  | ThreadStatus.NEW, ThreadStatus.TERMINATED =>
      Some "[JVM halt0 only] When the JVM shuts down, it terminates all threads, including those that have never been run."
  | ThreadStatus.ASYNC_WAITING, ThreadStatus.RUNNABLE => Some "Async operation completes"
  | ThreadStatus.ASYNC_WAITING, ThreadStatus.TERMINATED =>
      Some "RunMethod completes and callstack is empty"
  | ThreadStatus.BLOCKED, ThreadStatus.RUNNABLE => Some "Acquires monitor, or is interrupted"
  | ThreadStatus.PARKED, ThreadStatus.RUNNABLE => Some "Balancing unpark, or is interrupted"
  | ThreadStatus.RUNNABLE, ThreadStatus.RUNNING => Some "Scheduled to run"
  | ThreadStatus.RUNNABLE, ThreadStatus.ASYNC_WAITING =>
      Some "Scheduled to run thread performs an asynchronous JavaScript operation"
  | ThreadStatus.RUNNING, ThreadStatus.RUNNABLE => Some "[Ignored transition; stays RUNNING]"
  | ThreadStatus.RUNNING, ThreadStatus.ASYNC_WAITING =>
      Some "Thread performs an asynchronous JavaScript operation"
  | ThreadStatus.RUNNING, ThreadStatus.TERMINATED => Some "Callstack is empty"
  | ThreadStatus.RUNNING, ThreadStatus.BLOCKED => Some "Thread waits to acquire monitor"
  | ThreadStatus.RUNNING, ThreadStatus.WAITING => Some "Thread waits on monitor (Object.wait)"
  | ThreadStatus.RUNNING, ThreadStatus.TIMED_WAITING =>
      Some "Thread waits on monitor with timeout (Object.wait)"
  | ThreadStatus.RUNNING, ThreadStatus.PARKED => Some "Thread parks itself"
  | ThreadStatus.TERMINATED, ThreadStatus.NEW => Some "Thread is resurrected for re-use"
  | ThreadStatus.TERMINATED, ThreadStatus.RUNNABLE => Some "Thread is resurrected for re-use"
  | ThreadStatus.TERMINATED, ThreadStatus.ASYNC_WAITING =>
      Some "[JVM Bootup] Thread is resurrected for internal operation"
  | ThreadStatus.TIMED_WAITING, ThreadStatus.RUNNABLE =>
      Some "Timer expires, or thread is interrupted, and thread immediately acquires lock"
  | ThreadStatus.TIMED_WAITING, ThreadStatus.UNINTERRUPTABLY_BLOCKED =>
      Some "Thread is interrupted or notified, or timer expires, and lock already owned"
  | ThreadStatus.UNINTERRUPTABLY_BLOCKED, ThreadStatus.RUNNABLE => Some "Thread acquires monitor"
  | ThreadStatus.WAITING, ThreadStatus.RUNNABLE =>
      Some "Thread is interrupted, and immediately acquires lock"
  | ThreadStatus.WAITING, ThreadStatus.UNINTERRUPTABLY_BLOCKED =>
      Some "Thread is notified or interrupted, and does not immediately acquire lock"
  | _, _ => None
  end.

Definition validateThreadTransition (oldStatus newStatus : ThreadStatus.t) : bool :=
  bool_decide (is_Some (validTransitions oldStatus newStatus)).

(** *** [JVMThread.rawSetStatus] *)

(** The JVMTI state the switch of [rawSetStatus] picks. *)
Definition jvmtiOf (s : ThreadStatus.t) : JVMTIThreadState.t :=
  match s with
  | ThreadStatus.NEW => JVMTIThreadState.ALIVE
  | ThreadStatus.RUNNING | ThreadStatus.RUNNABLE => JVMTIThreadState.RUNNABLE
  | ThreadStatus.BLOCKED | ThreadStatus.UNINTERRUPTABLY_BLOCKED =>
      JVMTIThreadState.BLOCKED_ON_MONITOR_ENTER
  | ThreadStatus.WAITING | ThreadStatus.ASYNC_WAITING | ThreadStatus.PARKED =>
      JVMTIThreadState.WAITING_INDEFINITELY
  | ThreadStatus.TIMED_WAITING => JVMTIThreadState.WAITING_WITH_TIMEOUT
  | ThreadStatus.TERMINATED => JVMTIThreadState.TERMINATED
  end.

(** [jvmNewStatus = 0; ...; jvmNewStatus |= enums.JVMTIThreadState.X] *)
Definition jvmNewStatus (newStatus : ThreadStatus.t) : Z :=
  js_or 0 (JVMTIThreadState_value (jvmtiOf newStatus)).

(** The two writes of [rawSetStatus] to the thread object [th]. *)
Definition withRawStatus (newStatus : ThreadStatus.t) (th : JVMThread.t) : JVMThread.t :=
  JVMThread.with_jvmThreadObj
    (java_lang_Thread.with_threadStatus (jvmNewStatus newStatus) (JVMThread.jvmThreadObj th))
    (JVMThread.with_status newStatus th).

Definition rawSetStatus (t : ThreadAddr) (newStatus : ThreadStatus.t) : M unit :=
  setThread t (withRawStatus newStatus).

(** [getStatus()], [getRef()] *)
Definition getStatus (t : ThreadAddr) : M ThreadStatus.t :=
  let* th := thread t in ret (JVMThread.status th).
Definition getRef (t : ThreadAddr) : M Z :=
  let* th := thread t in ret (java_lang_Thread.ref (JVMThread.jvmThreadObj th)).


(** [framePop()] *)
Definition framePop (t : ThreadAddr) : M unit :=
  setThread t (fun th => JVMThread.with_stack (removelast (JVMThread.stack th)) th).

(** *** The pool's bookkeeping *)

(** [addThread(thread)] and [resurrectThread(thread)] *)
Definition addThread (t : ThreadAddr) : M unit :=
  let* p := pool in
  when (indexOf (ThreadPool.threads p) t =? -1)
    (setPool (ThreadPool.with_threads (ThreadPool.threads p ++ [t]))).

Definition resurrectThread (t : ThreadAddr) : M unit := addThread t.

(** [scheduleNextThread()]: the whole body is deferred. *)
Definition scheduleNextThread : M unit := setImmediate CbScheduleNextThread.

(** [threadRunnable(thread)] *)
Definition threadRunnable (t : ThreadAddr) : M unit :=
  let* p := pool in
  match ThreadPool.runningThread p with
  | None => scheduleNextThread
  | Some _ => ret tt
  end.

(** [threadSuspended(thread)] *)
Definition threadSuspended (t : ThreadAddr) : M unit :=
  let* p := pool in
  if bool_decide (ThreadPool.runningThread p = Some t) then
    setPool (ThreadPool.with_runningThread None) ;;;
    scheduleNextThread
  else ret tt.

(** [anySchedulableThreads(thread)] *)
Fixpoint anySchedulable (w : W) (ts : list ThreadAddr) : bool :=
  match ts with
  | [] => false
  | a :: ts' =>
      let th := threadObjs w a in
      if negb (java_lang_Thread.daemon (JVMThread.jvmThreadObj th) =? 0) then
        anySchedulable w ts'
      else if negb (ThreadStatus.eqb (JVMThread.status th) ThreadStatus.NEW)
              && negb (ThreadStatus.eqb (JVMThread.status th) ThreadStatus.TERMINATED)
      then true
      else anySchedulable w ts'
  end.
Definition anySchedulableThreads (t : ThreadAddr) : M bool :=
  get (fun w => anySchedulable w (ThreadPool.threads (tpool w))).

(** [threadTerminated(thread)] *)
Definition threadTerminated (t : ThreadAddr) : M unit :=
  let* p := pool in
  let idx := indexOf (ThreadPool.threads p) t in
  assert (0 <=? idx) "" ;;;
  setPool (ThreadPool.with_threads (splice1 (ThreadPool.threads p) idx)) ;;;
  let* p := pool in
  if bool_decide (ThreadPool.runningThread p = Some t) then
    setPool (ThreadPool.with_runningThread None) ;;;
    setPool (fun p => ThreadPool.with_runningThreadIndex (ThreadPool.runningThreadIndex p - 1) p) ;;;
    let* any := anySchedulableThreads t in
    if any then scheduleNextThread
    else
      let* down := get JVM_isShutdown in
      if negb down then extern (EvSystemExit t) (System_exit t)
      else extern EvEmptyCallback ThreadPool_emptyCallback
  else
    setPool (fun p =>
      ThreadPool.with_runningThreadIndex
        (match ThreadPool.runningThread p with
         | Some r => indexOf (ThreadPool.threads p) r
         | None => -1
         end) p).

(** [isParked(thread)] *)
Definition isParked (t : ThreadAddr) : M bool :=
  let* r := getRef t in
  let* p := pool in
  ret (match ThreadPool.parkCounts p !! r with Some c => 0 <? c | None => false end).

(** *** [scheduleResume] of the three frame classes *)

(** An update of the fields of a bytecode frame. *)
Definition onBytecode (f : BytecodeStackFrame.t → BytecodeStackFrame.t) (x : IStackFrame)
    : IStackFrame :=
  match x with
  | Bytecode b => Bytecode (f b)
  | other => other
  end.
Definition updBytecode (a : FrameAddr) (f : BytecodeStackFrame.t → BytecodeStackFrame.t) : M unit :=
  modify (updFrame a (onBytecode f)).

Definition opIs (prevOp : Z) (o : OpCode.t) : bool := prevOp =? OpCode_value o.

(** The switch on [prevOp]: by how much [pc] advances; [None] is the
    [default] case. *)
Definition invokeWidth (prevOp : Z) : option Z :=
  if opIs prevOp OpCode.INVOKEINTERFACE
     || opIs prevOp OpCode.INVOKEINTERFACE_FAST
  then Some 5
  else if opIs prevOp OpCode.INVOKESPECIAL
     || opIs prevOp OpCode.INVOKESTATIC
     || opIs prevOp OpCode.INVOKEVIRTUAL
     || opIs prevOp OpCode.INVOKESTATIC_FAST
     || opIs prevOp OpCode.INVOKENONVIRTUAL_FAST
     || opIs prevOp OpCode.INVOKEVIRTUAL_FAST
     || opIs prevOp OpCode.INVOKEHANDLE
     || opIs prevOp OpCode.INVOKEBASIC
     || opIs prevOp OpCode.LINKTOSPECIAL
     || opIs prevOp OpCode.LINKTOVIRTUAL
     || opIs prevOp OpCode.INVOKEDYNAMIC
     || opIs prevOp OpCode.INVOKEDYNAMIC_FAST
  then Some 3
  else None.

(** [this.stack.push(v)] on a bytecode frame *)
Definition pushOperand (a : FrameAddr) (v : Value) : M unit :=
  updBytecode a (fun b => BytecodeStackFrame.with_stack (BytecodeStackFrame.stack b ++ [v]) b).

Definition BytecodeStackFrame_scheduleResume
    (a : FrameAddr) (b : BytecodeStackFrame.t) (t : ThreadAddr) (rv rv2 : Value) : M unit :=
  match readUInt8 (Method.code (BytecodeStackFrame.method b)) (BytecodeStackFrame.pc b) with
  | None => throw (RangeError "readUInt8: index out of range")
  | Some prevOp =>
      match invokeWidth prevOp with
      | Some n => updBytecode a (fun b => BytecodeStackFrame.with_pc (BytecodeStackFrame.pc b + n) b)
      | None => assert false "Resuming from a non-invoke opcode!"
      end ;;;
      when (negb (bool_decide (rv = undefined))) (pushOperand a rv) ;;;
      when (negb (bool_decide (rv2 = undefined))) (pushOperand a rv2)
  end.

Definition InternalStackFrame_scheduleResume
    (a : FrameAddr) (i : InternalStackFrame.t) (t : ThreadAddr) (rv : Value) : M unit :=
  setFrame a (Internal (InternalStackFrame.mk false rv (InternalStackFrame.cb i))).

(** [stack[idx].scheduleResume(this, rv, rv2)], by the class of the frame *)
Definition scheduleResume (a : FrameAddr) (t : ThreadAddr) (rv rv2 : Value) : M unit :=
  let* f := frame a in
  match f with
  | Bytecode b => BytecodeStackFrame_scheduleResume a b t rv rv2
  | Native _ => ret tt
  | Internal i => InternalStackFrame_scheduleResume a i t rv
  end.

(** *** [scheduleException] of the three frame classes *)

(** What the loop over the exception handlers ends with. *)
Inductive HandlerScan :=
| Caught (eh : ExceptionHandler.t)
| NeedsResolution
| NotCaught.

(** The [for] loop of step 1.  The loop only reads the state until it
    breaks or takes the asynchronous path, so it is a function of the state
    at entry. *)
Fixpoint scanHandlers (w : W) (l : ClassLoader) (ecls : ClassData) (pc : Z)
    (ehs : list ExceptionHandler.t) : HandlerScan :=
  match ehs with
  | [] => NotCaught
  | eh :: rest =>
      if (ExceptionHandler.startPC eh <=? pc) && (pc <? ExceptionHandler.endPC eh) then
        if String.eqb (ExceptionHandler.catchType eh) "<any>" then Caught eh
        else
          match ClassLoader_getResolvedClass l (ExceptionHandler.catchType eh) w with
          | Some resolvedCatchType =>
              if ClassData_isCastable ecls resolvedCatchType then Caught eh
              else scanHandlers w l ecls pc rest
          | None => NeedsResolution
          end
      else scanHandlers w l ecls pc rest
  end.

(** [handlerClasses]: every catch type of the table except the any marker *)
Definition handlerClasses (ehs : list ExceptionHandler.t) : list string :=
  ExceptionHandler.catchType <$>
    filter (fun eh => negb (String.eqb (ExceptionHandler.catchType eh) "<any>") = true) ehs.

Definition BytecodeStackFrame_scheduleException
    (setStatus : ThreadAddr → ThreadStatus.t → option Monitor → M unit)
    (a : FrameAddr) (b : BytecodeStackFrame.t) (t : ThreadAddr) (e : Throwable) : M bool :=
  let method := BytecodeStackFrame.method b in
  let pc := BytecodeStackFrame.pc b in
  let exceptionHandlers := Method.exceptionHandlers method in
  let ecls := Throwable_getClass e in
  let* scan := get (fun w => scanHandlers w (Method.loader method) ecls pc exceptionHandlers) in
  match scan with
  | NeedsResolution =>
      setStatus t ThreadStatus.ASYNC_WAITING None ;;;
      extern (EvResolveClasses (Method.loader method) t (handlerClasses exceptionHandlers))
        (ClassLoader_resolveClasses (Method.loader method) t
           (handlerClasses exceptionHandlers) (CbRethrow t e)) ;;;
      ret true
  | Caught handler =>
      updBytecode a (fun b =>
        BytecodeStackFrame.with_pc (ExceptionHandler.handlerPC handler)
          (BytecodeStackFrame.with_stack [obj e] b)) ;;;
      ret true
  | NotCaught =>
      when (Method.isSynchronized method)
        (let* mon := get (Method_methodLock method t a) in
         extern (EvMonitorExit mon t) (Monitor_exit mon t)) ;;;
      ret false
  end.

Definition InternalStackFrame_scheduleException
    (a : FrameAddr) (i : InternalStackFrame.t) (t : ThreadAddr) (e : Throwable) : M bool :=
  setFrame a (Internal (InternalStackFrame.mk true (obj e) (InternalStackFrame.cb i))) ;;;
  ret true.

(** [stack[idx].scheduleException(this, e)], by the class of the frame *)
Definition scheduleException
    (setStatus : ThreadAddr → ThreadStatus.t → option Monitor → M unit)
    (a : FrameAddr) (t : ThreadAddr) (e : Throwable) : M bool :=
  let* f := frame a in
  match f with
  | Bytecode b => BytecodeStackFrame_scheduleException setStatus a b t e
  | Native _ => ret false
  | Internal i => InternalStackFrame_scheduleException a i t e
  end.

(** *** [JVMThread.exit] *)

(** [phase2] *)
Definition exit_phase2 (t : ThreadAddr) (monitor : Monitor) : M unit :=
  extern (EvMonitorNotifyAll monitor t) (Monitor_notifyAll monitor t) ;;;
  extern (EvMonitorExit monitor t) (Monitor_exit monitor t) ;;;
  rawSetStatus t ThreadStatus.TERMINATED ;;;
  threadTerminated t.

Definition exit (t : ThreadAddr) : M unit :=
  let* th := thread t in
  let monitor := Thread_getMonitor (JVMThread.jvmThreadObj th) in
  rawSetStatus t ThreadStatus.ASYNC_WAITING ;;;
  let* entered := extern (EvMonitorEnter monitor t)
                    (Monitor_enter monitor t (CbExitPhase2 t monitor)) in
  when entered (exit_phase2 t monitor).

(** *** [currentMethod] *)

(** The loop starts at the top of the stack and returns the first method
    that is not null.  The frame projection of a bytecode or native frame
    always has a method, and reading [.method] of the [null] projection of an
    internal frame is a TypeError, so the first iteration decides. *)
Definition currentMethod (t : ThreadAddr) : M (option Method.t) :=
  let* th := thread t in
  match last (JVMThread.stack th) with
  | None => ret None
  | Some a =>
      let* f := frame a in
      match getStackTraceFrame f with
      | None => throw (TypeError "Cannot read property 'method' of null")
      | Some stf => ret (Some (IStackTraceFrame.method stf))
      end
  end.


(** *** The bodies of the mutually recursive methods

    Each body takes the methods it calls back into as arguments; the
    fixpoint below ties them together. *)

(** The switch on [oldStatus] of [setStatus] *)
Definition preTransition
    (asyncReturn : ThreadAddr → Value → Value → M unit)
    (t : ThreadAddr) (oldStatus : ThreadStatus.t) : M unit :=
  match oldStatus with
  | ThreadStatus.TERMINATED =>
      (* Resurrect thread. *)
      resurrectThread t
  | ThreadStatus.PARKED =>
      (* Return from sun.misc.Unsafe.park *)
      asyncReturn t undefined undefined
  | _ => ret tt
  end.

(** The switch on [this.status] of [setStatus] *)
Definition postTransition
    (run : ThreadAddr → M unit)
    (t : ThreadAddr) (monitor : option Monitor) : M unit :=
  let* cur := getStatus t in
  match cur with
  | ThreadStatus.RUNNABLE =>
      (* Tell the threadpool we're ready to run. *)
      threadRunnable t
  | ThreadStatus.RUNNING =>
      (* I'm scheduled to run! *)
      run t
  | ThreadStatus.TERMINATED => exit t
  | ThreadStatus.BLOCKED
  | ThreadStatus.UNINTERRUPTABLY_BLOCKED
  | ThreadStatus.WAITING
  | ThreadStatus.TIMED_WAITING =>
      assert (bool_decide (is_Some monitor)) "" ;;;
      setThread t (JVMThread.with_monitor monitor) ;;;
      threadSuspended t
  | _ => threadSuspended t
  end.

Definition setStatus_body
    (asyncReturn : ThreadAddr → Value → Value → M unit)
    (run : ThreadAddr → M unit)
    (t : ThreadAddr) (status : ThreadStatus.t) (monitor : option Monitor) : M unit :=
  let* th := thread t in
  (* Ignore RUNNING => RUNNABLE transitions. *)
  if negb (ThreadStatus.eqb (JVMThread.status th) status)
     && negb (ThreadStatus.eqb (JVMThread.status th) ThreadStatus.RUNNING
              && ThreadStatus.eqb status ThreadStatus.RUNNABLE)
  then
    let oldStatus := JVMThread.status th in
    (* Prevent termination if immortal. *)
    if JVMThread.immortal th && ThreadStatus.eqb status ThreadStatus.TERMINATED then ret tt
    else
      assert (validateThreadTransition oldStatus status) "Invalid thread transition" ;;;
      (* Optimistically change state. *)
      rawSetStatus t status ;;;
      setThread t (JVMThread.with_monitor None) ;;;
      (* Pre-transition actions *)
      preTransition asyncReturn t oldStatus ;;;
      (* Post-transition actions *)
      postTransition run t monitor
  else ret tt.

(** *** [validateReturnValue] *)

(** [v === undefined] and [v === null] *)
Definition isUndefined (v : Value) : bool :=
  match v with undefined => true | _ => false end.
Definition isNull (v : Value) : bool :=
  match v with null => true | _ => false end.

(** [a === b]: the values of the model have no NaN *)
Definition strictEq (a b : Value) : bool := bool_decide (a = b).

(** The number that [<=], [>=] and [isNaN] convert their operand to; [None]
    is NaN.  The numbers of the model are the integers. *)
Definition ToNumber (w : W) (v : Value) : option Z :=
  match v with
  | undefined => None
  | null => Some 0
  | num n => Some n
  | boolean b => Some (if b then 1 else 0)
  | obj a => Object_ToNumber a w
  end.

(** [isNaN(v)] *)
Definition isNaN (w : W) (v : Value) : bool := bool_decide (ToNumber w v = None).

(** [v <= hi && v >= lo] *)
Definition withinBounds (w : W) (v : Value) (hi lo : Z) : bool :=
  match ToNumber w v with
  | Some n => (n <=? hi) && (n >=? lo)
  | None => false
  end.

(** Assertions in the order they are made: the error of the first one that
    fails.  The text of a message stops where the source inserts the method
    or the value. *)
Fixpoint firstFailed (checks : list (bool * string)) : option JSError :=
  match checks with
  | [] => None
  | (ok, msg) :: rest => if ok then firstFailed rest else Some (AssertionError msg)
  end.

(** The case of the type J: the second assertion calls the comparison
    methods of [gLong] on [rv1], which throws when [rv1] has none. *)
Definition validateLong (rv1 rv2 : Value) : option JSError :=
  if isNull rv2 then
    match rv1 with
    | obj a =>
        match gLong_value a with
        | Some z =>
            firstFailed [((z <=? 2 ^ 63 - 1) && (z >=? - 2 ^ 63), "Long value is out of bounds: ")]
        | None => Some (TypeError "rv1.lessThanOrEqual is not a function")
        end
    | undefined => Some (TypeError "Cannot read property 'lessThanOrEqual' of undefined")
    | null => Some (TypeError "Cannot read property 'lessThanOrEqual' of null")
    | _ => Some (TypeError "rv1.lessThanOrEqual is not a function")
    end
  else Some (AssertionError "Second return value must be NULL for Long type.").

(** The [switch] over the primitive types. *)
Definition validatePrimitive (w : W) (returnType : string) (rv1 rv2 : Value)
    : option JSError :=
  if String.eqb returnType "Z" then
    firstFailed
      [(isUndefined rv2, "Second return value must be undefined for Boolean type.");
       (strictEq rv1 (num 1) || strictEq rv1 (num 0), "Booleans must be 0 or 1.")]
  else if String.eqb returnType "B" then
    firstFailed
      [(isUndefined rv2, "Second return value must be undefined for Byte type.");
       (withinBounds w rv1 127 (-128), "Byte value for method ")]
  else if String.eqb returnType "C" then
    firstFailed
      [(isUndefined rv2, "Second return value must be undefined for Character type.");
       (withinBounds w rv1 65535 0, "Character value is out of bounds: ")]
  else if String.eqb returnType "S" then
    firstFailed
      [(isUndefined rv2, "Second return value must be undefined for Short type.");
       (withinBounds w rv1 32767 (-32768), "Short value is out of bounds: ")]
  else if String.eqb returnType "I" then
    firstFailed
      [(isUndefined rv2, "Second return value must be undefined for Int type.");
       (withinBounds w rv1 2147483647 (-2147483648), "Int value is out of bounds: ")]
  else if String.eqb returnType "J" then validateLong rv1 rv2
  else if String.eqb returnType "F" then
    firstFailed
      [(isUndefined rv2, "Second return value must be undefined for Float type.");
       (strictEq (util_wrapFloat rv1) rv1 || (isNaN w rv1 && isNaN w (util_wrapFloat rv1)),
        "Float value is out of bounds: ")]
  else if String.eqb returnType "D" then
    firstFailed
      [(isNull rv2, "Second return value must be NULL for Double type.");
       (match rv1 with num _ => true | _ => false end, "Invalid double value: ")]
  else if String.eqb returnType "V" then
    firstFailed
      [(isUndefined rv1 && isUndefined rv2, "Return values must be undefined for Void type")]
  else None.

(** The branch of the array types. *)
Definition validateArray (thread : ThreadAddr) (w : W) (returnType : string)
    (bsCl cl : ClassLoader) (rv1 rv2 : Value) : option JSError :=
  if isUndefined rv2 then
    match rv1 with
    | null => None
    | obj a =>
        if Object_hasGetClass a then
          let cls :=
            match ClassLoader_getInitializedClass cl thread returnType w with
            | Some c => Some c
            | None => ClassLoader_getInitializedClass bsCl thread returnType w
            end in
          match cls with
          | Some c =>
              firstFailed [(ClassData_isCastable (Throwable_getClass a) c, "Return value of type ")]
          | None => Some (AssertionError "Unable to get class for ")
          end
        else Some (AssertionError "Invalid array object: ")
    | _ => Some (AssertionError "Invalid array object: ")
    end
  else Some (AssertionError "Second return value must be undefined for array type.").

(** The loop [while (cls === null)] over the class loaders: [find] is the
    lookup made in each loader, [tempCl] the loader of the turn and [parents]
    the loaders the next turns move to.  [None] is the failure of the
    assertion made at the loader that has no loader object. *)
Fixpoint walkLoaders (find : ClassLoader → option ClassData) (tempCl : ClassLoader)
    (parents : list ClassLoader) : option ClassData :=
  match find tempCl with
  | Some cls => Some cls
  | None =>
      match parents with
      | [] => None
      | parent :: rest => walkLoaders find parent rest
      end
  end.

(** The branch of the reference types. *)
Definition validateReference (thread : ThreadAddr) (w : W) (returnType : string)
    (cl : ClassLoader) (rv1 rv2 : Value) : option JSError :=
  if negb (util_is_reference_type returnType) then
    Some (AssertionError "Invalid reference type: ")
  else if negb (isUndefined rv2) then
    Some (AssertionError "Second return value must be undefined for reference type.")
  else
    match rv1 with
    | null => None
    | obj a =>
        if Object_instanceOfObject thread a w then
          match walkLoaders (fun l => ClassLoader_getResolvedClass l returnType w)
                  cl (ClassLoader_parents cl w) with
          | None => Some (AssertionError "Unable to get resolved class for type ")
          | Some resolved =>
              let cls :=
                if ClassData_isInterface resolved then Some resolved
                else walkLoaders (fun l => ClassLoader_getInitializedClass l thread returnType w)
                       cl (ClassLoader_parents cl w) in
              match cls with
              | None => Some (AssertionError "Unable to get initialized class for type ")
              | Some c =>
                  firstFailed [(ClassData_isCastable (Throwable_getClass a) c, "Unable to cast ")]
              end
          end
        else Some (AssertionError "Reference return type must be an instance of Object; value: ")
    | _ => Some (AssertionError "Reference return type must be an instance of Object; value: ")
    end.

Definition invokeBasic : string :=
  "java/lang/invoke/MethodHandle/invokeBasic([Ljava/lang/Object;)Ljava/lang/Object;".

(** [validateReturnValue(thread, method, returnType, bsCl, cl, rv1, rv2)]: the
    error it throws in a debug build, [None] when it returns true.  It only
    reads the state. *)
Definition validateReturnValue (thread : ThreadAddr) (method : Method.t) (returnType : string)
    (bsCl cl : ClassLoader) (rv1 rv2 : Value) (w : W) : option JSError :=
  if String.eqb (Method.fullSignature method) invokeBasic then None
  else if util_is_primitive_type returnType then validatePrimitive w returnType rv1 rv2
  else if util_is_array_type returnType then validateArray thread w returnType bsCl cl rv1 rv2
  else validateReference thread w returnType cl rv1 rv2.

(** [assert(validateReturnValue(this, method, method.returnType, this.bsCl,
    method.cls.getLoader(), rv, rv2), ...)]: the call is the argument of an
    assertion, so a release build does not make it. *)
Definition assertReturnValue (t : ThreadAddr) (method : Method.t) (rv rv2 : Value) : M unit :=
  let* failed := get (validateReturnValue t method (Method.returnType method) JVMThread_bsCl
                        (Method.loader method) rv rv2) in
  if RELEASE then ret tt
  else match failed with
       | Some err => throw err
       | None => ret tt
       end.

Definition asyncReturn_body
    (setStatus : ThreadAddr → ThreadStatus.t → option Monitor → M unit)
    (t : ThreadAddr) (rv rv2 : Value) : M unit :=
  let* th := thread t in
  assert (ThreadStatus.eqb (JVMThread.status th) ThreadStatus.RUNNING
          || ThreadStatus.eqb (JVMThread.status th) ThreadStatus.RUNNABLE
          || ThreadStatus.eqb (JVMThread.status th) ThreadStatus.ASYNC_WAITING) "" ;;;
  assert (notBoolean rv && looseNull rv2) "" ;;;
  (* Pop off the current method. *)
  let (rest, top) := pop (JVMThread.stack th) in
  setThread t (JVMThread.with_stack rest) ;;;
  match top with
  | None => throw (TypeError "Cannot read property 'type' of undefined")
  | Some a =>
      let* f := frame a in
      match f with
      | Internal _ => ret tt
      | Bytecode b => assertReturnValue t (BytecodeStackFrame.method b) rv rv2
      | Native n => assertReturnValue t (NativeStackFrame.method n) rv rv2
      end ;;;
      (* Tell the top of the stack that this RV is waiting for it. *)
      match last rest with
      | Some below => scheduleResume below t rv rv2
      | None => ret tt
      end ;;;
      (* Thread state transition. *)
      setStatus t ThreadStatus.RUNNABLE None
  end.

(** [BytecodeStackFrame.run]: the loop that runs opcodes until one of them
    sets [returnToThreadLoop]. *)
Definition bytecodeLoop_body
    (loop : FrameAddr → ThreadAddr → list Z → M unit)
    (a : FrameAddr) (t : ThreadAddr) (code : list Z) : M unit :=
  let* f := frame a in
  match f with
  | Bytecode b =>
      if negb (BytecodeStackFrame.returnToThreadLoop b) then
        match readUInt8 code (BytecodeStackFrame.pc b) with
        | None => throw (RangeError "readUInt8: index out of range")
        | Some op =>
            extern (EvOpcode op t a (BytecodeStackFrame.pc b))
              (opcodes_LookupTable op t a code (BytecodeStackFrame.pc b)) ;;;
            loop a t code
        end
      else ret tt
  | _ => ret tt
  end.

Definition BytecodeStackFrame_run
    (loop : FrameAddr → ThreadAddr → list Z → M unit)
    (a : FrameAddr) (b : BytecodeStackFrame.t) (t : ThreadAddr) : M unit :=
  let method := BytecodeStackFrame.method b in
  let code := Method.code method in
  let* entered :=
    if Method.isSynchronized method && negb (BytecodeStackFrame.lockedMethodLock b) then
      (* We are starting a synchronized method! *)
      let* mon := get (Method_methodLock method t a) in
      let* r := extern (EvMonitorEnter mon t) (Monitor_enter mon t (CbMethodLockAcquired a)) in
      updBytecode a (BytecodeStackFrame.with_lockedMethodLock r) ;;;
      if negb r then
        (* Failed. Thread is automatically blocked. Return. *)
        let* st := getStatus t in
        assert (ThreadStatus.eqb st ThreadStatus.BLOCKED)
          "Failed to enter a monitor. Thread must be BLOCKED." ;;;
        ret false
      else ret true
    else ret true in
  if entered then
    (* Reset the returnToThreadLoop switch. *)
    updBytecode a (BytecodeStackFrame.with_returnToThreadLoop false) ;;;
    loop a t code
  else ret tt.

Definition NativeStackFrame_run
    (asyncReturn : ThreadAddr → Value → Value → M unit)
    (a : FrameAddr) (n : NativeStackFrame.t) (t : ThreadAddr) : M unit :=
  let method := NativeStackFrame.method n in
  let* rv := extern (EvNativeCall method t)
               (nativeFunction method t (NativeStackFrame.args n)) in
  (* Ensure thread is running, and we are the running method. *)
  let* st := getStatus t in
  if ThreadStatus.eqb st ThreadStatus.RUNNING then
    let* cm := currentMethod t in
    if bool_decide (cm = Some method) then
      (* Normal native method exit. *)
      if String.eqb (Method.returnType method) "J" || String.eqb (Method.returnType method) "D"
      then asyncReturn t rv null
      else if String.eqb (Method.returnType method) "Z"
      then asyncReturn t (num (if truthy rv then 1 else 0)) undefined
      else asyncReturn t rv undefined
    else ret tt
  else ret tt.

Definition InternalStackFrame_run
    (setStatus : ThreadAddr → ThreadStatus.t → option Monitor → M unit)
    (a : FrameAddr) (t : ThreadAddr) : M unit :=
  (* Pop myself off of the stack. *)
  framePop t ;;;
  (* Pause the thread before returning into native JavaScript code. *)
  setStatus t ThreadStatus.ASYNC_WAITING None ;;;
  let* f := frame a in
  match f with
  | Internal i =>
      if InternalStackFrame.isException i then
        extern (EvInternalCallback (InternalStackFrame.cb i) (InternalStackFrame.val i) undefined)
          (callJSFunction (InternalStackFrame.cb i) (InternalStackFrame.val i) undefined)
      else
        extern (EvInternalCallback (InternalStackFrame.cb i) null (InternalStackFrame.val i))
          (callJSFunction (InternalStackFrame.cb i) null (InternalStackFrame.val i))
  | _ => ret tt
  end.

(** [stack[stack.length - 1].run(this)], by the class of the frame *)
Definition frameRun_body
    (setStatus : ThreadAddr → ThreadStatus.t → option Monitor → M unit)
    (asyncReturn : ThreadAddr → Value → Value → M unit)
    (loop : FrameAddr → ThreadAddr → list Z → M unit)
    (a : FrameAddr) (t : ThreadAddr) : M unit :=
  let* f := frame a in
  match f with
  | Bytecode b => BytecodeStackFrame_run loop a b t
  | Native n => NativeStackFrame_run asyncReturn a n t
  | Internal _ => InternalStackFrame_run setStatus a t
  end.

(** One turn of the [while] loop of [JVMThread.run], followed by the rest
    of the loop.  (The debug-only switch of the log level around the call of
    the frame is not modelled.) *)
Definition runLoop_body
    (setStatus : ThreadAddr → ThreadStatus.t → option Monitor → M unit)
    (frameRun : FrameAddr → ThreadAddr → M unit)
    (loop : ThreadAddr → float → M unit)
    (t : ThreadAddr) (startTime : float) : M unit :=
  let* th := thread t in
  match last (JVMThread.stack th) with
  | Some top =>
      if ThreadStatus.eqb (JVMThread.status th) ThreadStatus.RUNNING then
        frameRun top t ;;;
        modify (fun w => with_methodResumesLeft (methodResumesLeft w - 1)%float w) ;;;
        let* left := get methodResumesLeft in
        (if PrimFloat.eqb left 0%float then
           let* endTime := get Date_getTime in
           let duration := (endTime - startTime)%float in
           (* Estimated number of methods we can resume before needing to yield. *)
           let* estMaxMethodResumes :=
             get (fun w => Math_floor ((maxMethodResumes w / duration) * responsiveness w)%float) in
           (* Update CMA. *)
           modify (fun w =>
             with_maxMethodResumes
               ((estMaxMethodResumes + numSamples w * maxMethodResumes w) / (numSamples w + 1))%float w) ;;;
           modify (fun w => with_numSamples (numSamples w + 1)%float w) ;;;
           (* If we're still scheduled to run, yield to the browser loop. *)
           let* st := getStatus t in
           when (ThreadStatus.eqb st ThreadStatus.RUNNING)
             (setStatus t ThreadStatus.ASYNC_WAITING None ;;;
              setImmediate (CbYieldResume t))
         else ret tt) ;;;
        loop t startTime
      else ret tt
  | None => ret tt
  end.

Definition run_body
    (setStatus : ThreadAddr → ThreadStatus.t → option Monitor → M unit)
    (loop : ThreadAddr → float → M unit)
    (t : ThreadAddr) : M unit :=
  let* startTime := get Date_getTime in
  (* Reset counter. Threads always start from a fresh stack / yield. *)
  modify (fun w => with_methodResumesLeft (maxMethodResumes w) w) ;;;
  loop t startTime ;;;
  let* th := thread t in
  when (bool_decide (JVMThread.stack th = []))
    (* This thread has finished! *)
    (setStatus t ThreadStatus.TERMINATED None).

(** *** The methods themselves *)

Fixpoint bytecodeLoop (fuel : nat) : FrameAddr → ThreadAddr → list Z → M unit :=
  match fuel with
  | O => fun _ _ _ => outOfFuel
  | S n => bytecodeLoop_body (bytecodeLoop n)
  end.

Fixpoint setStatus (fuel : nat) : ThreadAddr → ThreadStatus.t → option Monitor → M unit :=
  match fuel with
  | O => fun _ _ _ => outOfFuel
  | S n => setStatus_body (asyncReturn n) (run n)
  end
with asyncReturn (fuel : nat) : ThreadAddr → Value → Value → M unit :=
  match fuel with
  | O => fun _ _ _ => outOfFuel
  | S n => asyncReturn_body (setStatus n)
  end
with run (fuel : nat) : ThreadAddr → M unit :=
  match fuel with
  | O => fun _ => outOfFuel
  | S n => run_body (setStatus n) (runLoop n)
  end
with runLoop (fuel : nat) : ThreadAddr → float → M unit :=
  match fuel with
  | O => fun _ _ => outOfFuel
  | S n => runLoop_body (setStatus n) (frameRun n) (runLoop n)
  end
with frameRun (fuel : nat) : FrameAddr → ThreadAddr → M unit :=
  match fuel with
  | O => fun _ _ => outOfFuel
  | S n => frameRun_body (setStatus n) (asyncReturn n) (bytecodeLoop n)
  end.

(** *** [JVMThread.throwException] *)

(** [handleUncaughtException(exception)] *)
Definition handleUncaughtException (t : ThreadAddr) (e : Throwable) : M unit :=
  extern (EvDispatchUncaughtException t e) (Thread_dispatchUncaughtException t e).

(** The [while] loop that looks for a frame that handles the exception;
    [idx] is the local variable of the source. *)
Fixpoint unwindLoop (setStatus : ThreadAddr → ThreadStatus.t → option Monitor → M unit)
    (fuel : nat) (t : ThreadAddr) (e : Throwable) (idx : Z) : M unit :=
  match fuel with
  | O => outOfFuel
  | S n =>
      let* th := thread t in
      if bool_decide (JVMThread.stack th = []) then ret tt
      else
        match lookupZ (JVMThread.stack th) idx with
        | None => throw (TypeError "Cannot read property 'scheduleException' of undefined")
        | Some a =>
            let* handled := scheduleException setStatus a t e in
            if negb handled then
              framePop t ;;;
              unwindLoop setStatus n t e (idx - 1)
            else ret tt
        end
  end.

Definition throwException (fuel : nat) (t : ThreadAddr) (e : Throwable) : M unit :=
  let* th := thread t in
  assert (ThreadStatus.eqb (JVMThread.status th) ThreadStatus.RUNNING
          || ThreadStatus.eqb (JVMThread.status th) ThreadStatus.RUNNABLE
          || ThreadStatus.eqb (JVMThread.status th) ThreadStatus.ASYNC_WAITING)
    "Tried to throw exception while thread was in an invalid state" ;;;
  let idx := Z.of_nat (length (JVMThread.stack th)) - 1 in
  (* Stack may actually be empty, so guard against this. *)
  match last (JVMThread.stack th) with
  | Some top =>
      (* An internal stack frame cannot process its own thrown exception. *)
      let* f := frame top in
      let* idx :=
        match f with
        | Internal _ => framePop t ;;; ret (idx - 1)
        | _ => ret idx
        end in
      (* Set our status before scheduling the exception. *)
      setStatus fuel t ThreadStatus.RUNNABLE None ;;;
      unwindLoop (setStatus fuel) fuel t e idx
  | None => ret tt
  end ;;;
  let* th := thread t in
  when (bool_decide (JVMThread.stack th = []))
    (* Uncaught exception! *)
    (handleUncaughtException t e).

(** *** [ThreadPool.park], [unpark], [completelyUnpark] *)

(** [if (!this.parkCounts.hasOwnProperty(ref)) this.parkCounts[ref] = 0] *)
Definition initParkCount (r : Z) : M unit :=
  let* p := pool in
  match ThreadPool.parkCounts p !! r with
  | None => setPool (ThreadPool.with_parkCounts (<[r := 0]> (ThreadPool.parkCounts p)))
  | Some _ => ret tt
  end.

(** [this.parkCounts[ref]] once the entry exists *)
Definition parkCount (r : Z) : M Z :=
  let* p := pool in ret (default 0 (ThreadPool.parkCounts p !! r)).

Definition setParkCount (r c : Z) : M unit :=
  setPool (fun p => ThreadPool.with_parkCounts (<[r := c]> (ThreadPool.parkCounts p)) p).

Definition park (fuel : nat) (t : ThreadAddr) : M unit :=
  let* r := getRef t in
  initParkCount r ;;;
  (* ++this.parkCounts[ref] > 0 *)
  let* c := parkCount r in
  setParkCount r (c + 1) ;;;
  when (0 <? c + 1) (setStatus fuel t ThreadStatus.PARKED None).

Definition unpark (fuel : nat) (t : ThreadAddr) : M unit :=
  let* r := getRef t in
  initParkCount r ;;;
  (* --this.parkCounts[ref] <= 0 *)
  let* c := parkCount r in
  setParkCount r (c - 1) ;;;
  when (c - 1 <=? 0) (setStatus fuel t ThreadStatus.RUNNABLE None).

Definition completelyUnpark (fuel : nat) (t : ThreadAddr) : M unit :=
  let* r := getRef t in
  setParkCount r 0 ;;;
  setStatus fuel t ThreadStatus.RUNNABLE None.

(** *** The closure of [ThreadPool.scheduleNextThread] *)

(** What the [for] loop over the threads ends with. *)
Inductive Pick :=
| Picked (iFixed : Z) (t : ThreadAddr)
| NoThread
| PickTypeError.

(** The turns [i], [i + 1], ... of the loop, [n] of them: the loop reads
    the state only, until it picks a thread and breaks. *)
Fixpoint pickFrom (w : W) (threads : list ThreadAddr) (runningThreadIndex : Z)
    (i : Z) (n : nat) : Pick :=
  match n with
  | O => NoThread
  | S n' =>
      let iFixed := Z.rem (runningThreadIndex + 1 + i) (Z.of_nat (length threads)) in
      match lookupZ threads iFixed with
      | None => PickTypeError
      | Some t =>
          if ThreadStatus.eqb (JVMThread.status (threadObjs w t)) ThreadStatus.RUNNABLE
          then Picked iFixed t
          else pickFrom w threads runningThreadIndex (i + 1) n'
      end
  end.

Definition pickNext (w : W) : Pick :=
  let threads := ThreadPool.threads (tpool w) in
  pickFrom w threads (ThreadPool.runningThreadIndex (tpool w)) 0 (length threads).

(** The function given to [setImmediate] by [scheduleNextThread]. *)
Definition scheduleNextThread_deferred (fuel : nat) : M unit :=
  let* p := pool in
  match ThreadPool.runningThread p with
  | None =>
      let* pick := get pickNext in
      match pick with
      | Picked iFixed t =>
          setPool (ThreadPool.with_runningThread (Some t)) ;;;
          setPool (ThreadPool.with_runningThreadIndex iFixed) ;;;
          setStatus fuel t ThreadStatus.RUNNING None
      | NoThread => ret tt
      | PickTypeError => throw (TypeError "Cannot read property 'getStatus' of undefined")
      end
  | Some _ => ret tt
  end.

(** *** Running a closure of this file *)



(** *** Short names for what the statements read *)

Definition statusOf (w : W) (t : ThreadAddr) : ThreadStatus.t :=
  JVMThread.status (threadObjs w t).
Definition threadStatusOf (w : W) (t : ThreadAddr) : Z :=
  java_lang_Thread.threadStatus (JVMThread.jvmThreadObj (threadObjs w t)).
Definition stackOf (w : W) (t : ThreadAddr) : list FrameAddr :=
  JVMThread.stack (threadObjs w t).
Definition refOf (w : W) (t : ThreadAddr) : Z :=
  java_lang_Thread.ref (JVMThread.jvmThreadObj (threadObjs w t)).

(** *** What a call leaves behind *)

(** [Q] holds of the state the call ends in, whether it returns or throws. *)
Definition ends {A} (r : Result (X:=X) A) (Q : W → Prop) : Prop :=
  match r with
  | Ok _ w' => Q w'
  | Throw _ w' => Q w'
  | OutOfFuel => True
  end.

Definition preserves {A} (I : W → Prop) (m : M A) : Prop :=
  ∀ w, I w → ends (m w) I.

Definition ext_preserves {A} (I : W → Prop) (f : ExtM X A) : Prop :=
  ∀ w, I w → match f w with ExtOk _ w' => I w' | ExtThrow _ w' => I w' end.

(** The other modules keep [I]. *)
Record ExternalsPreserve (I : W → Prop) : Prop := {
  ep_opcode : ∀ op t a code pc, ext_preserves I (opcodes_LookupTable op t a code pc);
  ep_native : ∀ m t args, ext_preserves I (nativeFunction m t args);
  ep_callJS : ∀ f e rv, ext_preserves I (callJSFunction f e rv);
  ep_enter : ∀ m t cb, ext_preserves I (Monitor_enter m t cb);
  ep_exit : ∀ m t, ext_preserves I (Monitor_exit m t);
  ep_notifyAll : ∀ m t, ext_preserves I (Monitor_notifyAll m t);
  ep_resolve : ∀ l t names cb, ext_preserves I (ClassLoader_resolveClasses l t names cb);
  ep_dispatch : ∀ t e, ext_preserves I (Thread_dispatchUncaughtException t e);
  ep_systemExit : ∀ t, ext_preserves I (System_exit t);
  ep_emptyCallback : ext_preserves I ThreadPool_emptyCallback
}.

(** *** The Java-visible status *)

(** The JVMTI projection in the words of the specification: the statuses
    that map to each JVMTI state. *)
Definition JVMTI_projection (s : ThreadStatus.t) : JVMTIThreadState.t :=
  if bool_decide (s ∈ [ThreadStatus.NEW]) then JVMTIThreadState.ALIVE
  else if bool_decide (s ∈ [ThreadStatus.RUNNING; ThreadStatus.RUNNABLE])
  then JVMTIThreadState.RUNNABLE
  else if bool_decide (s ∈ [ThreadStatus.BLOCKED; ThreadStatus.UNINTERRUPTABLY_BLOCKED])
  then JVMTIThreadState.BLOCKED_ON_MONITOR_ENTER
  else if bool_decide (s ∈ [ThreadStatus.WAITING; ThreadStatus.ASYNC_WAITING; ThreadStatus.PARKED])
  then JVMTIThreadState.WAITING_INDEFINITELY
  else if bool_decide (s ∈ [ThreadStatus.TIMED_WAITING])
  then JVMTIThreadState.WAITING_WITH_TIMEOUT
  else JVMTIThreadState.TERMINATED.

(** The threadStatus field of the Java object of [t] is the number
    [rawSetStatus] writes for the status of [t]. *)
Definition synced (t : ThreadAddr) (w : W) : Prop :=
  threadStatusOf w t = jvmNewStatus (statusOf w t).

(** [setStatus(status)] goes past its guards on thread [t]: the status
    differs, the pair is not RUNNING => RUNNABLE, the thread is not an
    immortal one asked to terminate, and the assertion on the transition
    holds or is compiled out. *)
Definition performsTransition (w : W) (t : ThreadAddr) (status : ThreadStatus.t) : bool :=
  negb (ThreadStatus.eqb (statusOf w t) status)
  && negb (ThreadStatus.eqb (statusOf w t) ThreadStatus.RUNNING
           && ThreadStatus.eqb status ThreadStatus.RUNNABLE)
  && negb (JVMThread.immortal (threadObjs w t) && ThreadStatus.eqb status ThreadStatus.TERMINATED)
  && (RELEASE || validateThreadTransition (statusOf w t) status).

(** *** Calls that finish *)

(** The call does not run out of fuel; [Qok] holds of the state it returns
    in, [Qthrow] of the state it throws in. *)
Definition outcome {A} (r : Result (X:=X) A) (Qok Qthrow : W → Prop) : Prop :=
  match r with
  | Ok _ w' => Qok w'
  | Throw _ w' => Qthrow w'
  | OutOfFuel => False
  end.

(** From a state with [P] the call finishes, with [Qok] when it returns and
    [Qthrow] when it throws. *)
Definition hoare {A} (P : W → Prop) (m : M A) (Qok Qthrow : W → Prop) : Prop :=
  ∀ w, P w → outcome (m w) Qok Qthrow.

(** The call finishes and keeps [Inv]. *)
Definition keeps {A} (Inv : W → Prop) (m : M A) : Prop := hoare Inv m Inv Inv.

(** The status and the reference number of [t], and the park counts. *)
Definition threadView (t : ThreadAddr) (s : ThreadStatus.t) (r : Z) (pc : gmap Z Z) (w : W) : Prop :=
  statusOf w t = s ∧ refOf w t = r ∧ ThreadPool.parkCounts (tpool w) = pc.

(** *** Sequences of [park] and [unpark] on one thread *)

Inductive ParkCall := Park | Unpark.

Definition parkCall (fuel : nat) (t : ThreadAddr) (c : ParkCall) : M unit :=
  match c with
  | Park => park fuel t
  | Unpark => unpark fuel t
  end.

(** The calls one after the other; the sequence stops at a call that throws. *)
Fixpoint parkCalls (fuel : nat) (t : ThreadAddr) (cs : list ParkCall) : M unit :=
  match cs with
  | [] => ret tt
  | c :: cs' => parkCall fuel t c ;;; parkCalls fuel t cs'
  end.

(** The number of parks minus the number of unparks. *)
Fixpoint signedCount (cs : list ParkCall) : Z :=
  match cs with
  | [] => 0
  | Park :: cs' => signedCount cs' + 1
  | Unpark :: cs' => signedCount cs' - 1
  end.

(** [parkCounts[thread.getRef()]], 0 when there is no entry yet. *)
Definition parkCountOf (w : W) (t : ThreadAddr) : Z :=
  default 0 (ThreadPool.parkCounts (tpool w) !! refOf w t).

(** The state with [parkCounts[r]] set to [c]. *)
Definition setCount (r c : Z) (w : W) : W :=
  updPool (fun p => ThreadPool.with_parkCounts (<[r := c]> (ThreadPool.parkCounts p)) p) w.

(** The state a call returned in. *)
Definition returned {A} (r : Result (X:=X) A) : option W :=
  match r with
  | Ok _ w' => Some w'
  | _ => None
  end.

(** *** What [BytecodeStackFrame.scheduleResume] leaves in the frame *)

(** [v] when it is not [undefined]. *)
Definition definedValue (v : Value) : list Value :=
  if bool_decide (v = undefined) then [] else [v].

(** The frame [b] with [pc] advanced by [width] and the return values that
    are not [undefined] pushed, [rv] first. *)
Definition resumedFrame (b : BytecodeStackFrame.t) (width : Z) (rv rv2 : Value)
    : BytecodeStackFrame.t :=
  BytecodeStackFrame.with_stack
    (BytecodeStackFrame.stack b ++ definedValue rv ++ definedValue rv2)
    (BytecodeStackFrame.with_pc (BytecodeStackFrame.pc b + width) b).

(** The width the specification gives to an invoke opcode. *)
Definition specWidth (o : OpCode.t) : Z := if OpCode.isInterface o then 5 else 3.

(** *** What an exception handler entry says *)

(** [start_pc <= pc < end_pc] *)
Definition inRange (pc : Z) (eh : ExceptionHandler.t) : bool :=
  (ExceptionHandler.startPC eh <=? pc) && (pc <? ExceptionHandler.endPC eh).

Definition isAny (eh : ExceptionHandler.t) : bool :=
  String.eqb (ExceptionHandler.catchType eh) "<any>".

(** The entry covers [pc], and its catch type is the any marker or a
    resolved class the class of the exception can be cast to. *)
Definition handlerMatches (w : W) (l : ClassLoader) (ecls : ClassData) (pc : Z)
    (eh : ExceptionHandler.t) : bool :=
  inRange pc eh
  && (isAny eh
      || match ClassLoader_getResolvedClass l (ExceptionHandler.catchType eh) w with
         | Some resolved => ClassData_isCastable ecls resolved
         | None => false
         end).

(** The entry covers [pc] and its catch type is a class the loader has not
    resolved. *)
Definition handlerUnresolved (w : W) (l : ClassLoader) (pc : Z)
    (eh : ExceptionHandler.t) : bool :=
  inRange pc eh && negb (isAny eh)
  && bool_decide (ClassLoader_getResolvedClass l (ExceptionHandler.catchType eh) w = None).

(** The frame [b] set up to resume in the handler [eh] of exception [e]. *)
Definition caughtFrame (b : BytecodeStackFrame.t) (eh : ExceptionHandler.t) (e : Throwable)
    : BytecodeStackFrame.t :=
  BytecodeStackFrame.with_pc (ExceptionHandler.handlerPC eh)
    (BytecodeStackFrame.with_stack [obj e] b).

(** An entry the loop over the handlers steps over: it neither matches nor
    needs resolution. *)
Definition skipped (w : W) (l : ClassLoader) (ecls : ClassData) (pc : Z)
    (eh : ExceptionHandler.t) : Prop :=
  handlerMatches w l ecls pc eh = false ∧ handlerUnresolved w l pc eh = false.

(** The call finishes from every state with [P]; when it returns, [Q] holds. *)
Definition finishes {A} (P : W → Prop) (m : M A) (Q : W → Prop) : Prop :=
  hoare P m Q (fun _ => True).

(** [w] differs from [w0] in scheduling state only (statuses, monitors, the
    pool, the queue of [setImmediate]): call stacks, frames, the calls made
    into other modules and the state of those modules are the same. *)
Definition sameFrames (w0 w : W) : Prop :=
  (∀ t, stackOf w t = stackOf w0 t)
  ∧ frameObjs w = frameObjs w0
  ∧ calls w = calls w0
  ∧ ext w = ext w0.

(** The status after [setStatus(RUNNABLE)] from RUNNING, RUNNABLE or
    ASYNC_WAITING: a RUNNING thread stays RUNNING. *)
Definition afterRunnable (s : ThreadStatus.t) : ThreadStatus.t :=
  if ThreadStatus.eqb s ThreadStatus.RUNNING then ThreadStatus.RUNNING
  else ThreadStatus.RUNNABLE.

(** *** The order in which [scheduleNextThread] looks at the threads *)

(** The indices [(runningThreadIndex + 1 + i) mod len] for [i] from 0 up
    to [len - 1]. *)
Definition scanOrder (runningThreadIndex : Z) (len : nat) : list Z :=
  (fun i => (runningThreadIndex + 1 + i) mod Z.of_nat len) <$> seqZ 0 (Z.of_nat len).

(** The thread at index [i] of the list is RUNNABLE. *)
Definition runnableAt (w : W) (threads : list ThreadAddr) (i : Z) : bool :=
  match lookupZ threads i with
  | Some t => ThreadStatus.eqb (statusOf w t) ThreadStatus.RUNNABLE
  | None => false
  end.

(** The state in which the picked thread [t], found at index [i], starts
    to run: it is the running thread of the pool and its status is RUNNING. *)
Definition pickedState (w : W) (i : Z) (t : ThreadAddr) : W :=
  updThread t (JVMThread.with_monitor None)
    (updThread t (withRawStatus ThreadStatus.RUNNING)
       (updPool (ThreadPool.with_runningThreadIndex i)
          (updPool (ThreadPool.with_runningThread (Some t)) w))).

(** *** Unwinding, as the specification describes it *)

(** The state with the top frame of [t] popped. *)
Definition popFrame (t : ThreadAddr) (w : W) : W :=
  updThread t (fun th => JVMThread.with_stack (removelast (JVMThread.stack th)) th) w.

(** The state with the top frame of [t] popped if it is an internal frame. *)
Definition popInternal (t : ThreadAddr) (w : W) : W :=
  match last (stackOf w t) with
  | Some top =>
      match frameObjs w top with
      | Internal _ => popFrame t w
      | _ => w
      end
  | None => w
  end.

(** From the first state, asking the top frame of [t] again and again and
    popping each frame that answers false ends in the second state, either
    because the stack is empty or because a frame answered true.  The list
    gives the frames asked and their answers, first asked first. *)
Inductive Unwinds (fuel : nat) (t : ThreadAddr) (e : Throwable)
    : W → list (FrameAddr * bool) → W → Prop :=
| Unwinds_empty (w : W) :
    stackOf w t = [] →
    Unwinds fuel t e w [] w
| Unwinds_handled (w : W) (a : FrameAddr) (w' : W) :
    last (stackOf w t) = Some a →
    scheduleException (setStatus fuel) a t e w = Ok true w' →
    Unwinds fuel t e w [(a, true)] w'
| Unwinds_declined (w : W) (a : FrameAddr) (w1 : W) (asked : list (FrameAddr * bool)) (w' : W) :
    last (stackOf w t) = Some a →
    scheduleException (setStatus fuel) a t e w = Ok false w1 →
    Unwinds fuel t e (popFrame t w1) asked w' →
    Unwinds fuel t e w ((a, false) :: asked) w'.

Definition isDispatch (ev : Event) : bool :=
  match ev with
  | EvDispatchUncaughtException _ _ => true
  | _ => false
  end.

(** The number of uncaught dispatches among the calls made so far. *)
Definition dispatches (w : W) : nat := length (List.filter isDispatch (calls w)).

(** *** Throwing again after a failed resolution *)

(** [throwException] on thread [t], once for each exception of [es]: what
    happens when each resolution of the handler classes fails and the
    failure is thrown on the thread in turn. *)
Fixpoint rethrows (fuel : nat) (t : ThreadAddr) (es : list Throwable) : M unit :=
  match es with
  | [] => ret tt
  | e :: es' => throwException fuel t e ;;; rethrows fuel t es'
  end.

Definition isResolveClasses (l : ClassLoader) (names : list string) (ev : Event) : bool :=
  match ev with
  | EvResolveClasses l' _ names' => bool_decide (l' = l ∧ names' = names)
  | _ => false
  end.

(** The number of requests made so far to loader [l] to resolve [names]. *)
Definition resolveRequests (l : ClassLoader) (names : list string) (w : W) : nat :=
  length (List.filter (isResolveClasses l names) (calls w)).

(** *** What a transition writes *)

Definition monitorOf (w : W) (t : ThreadAddr) : option Monitor :=
  JVMThread.monitor (threadObjs w t).

(** The statuses whose case of the second switch of [setStatus] asserts and
    records the monitor. *)
Definition needsMonitor (s : ThreadStatus.t) : bool :=
  match s with
  | ThreadStatus.BLOCKED | ThreadStatus.UNINTERRUPTABLY_BLOCKED
  | ThreadStatus.WAITING | ThreadStatus.TIMED_WAITING => true
  | _ => false
  end.

(** The statuses whose case of the second switch of [setStatus] ends in
    [threadSuspended]. *)
Definition suspends (s : ThreadStatus.t) : bool :=
  match s with
  | ThreadStatus.RUNNABLE | ThreadStatus.RUNNING | ThreadStatus.TERMINATED => false
  | _ => true
  end.

(** [setStatus(status)] goes past its guards: the status differs, the pair
    is not RUNNING => RUNNABLE, the thread is not an immortal one asked to
    terminate. *)
Definition pastGuards (w : W) (t : ThreadAddr) (status : ThreadStatus.t) : bool :=
  negb (ThreadStatus.eqb (statusOf w t) status)
  && negb (ThreadStatus.eqb (statusOf w t) ThreadStatus.RUNNING
           && ThreadStatus.eqb status ThreadStatus.RUNNABLE)
  && negb (JVMThread.immortal (threadObjs w t) && ThreadStatus.eqb status ThreadStatus.TERMINATED).

(** The state after the two writes that open a transition:
    [this.rawSetStatus(status); this.monitor = null]. *)
Definition transitionOpened (t : ThreadAddr) (s : ThreadStatus.t) (w : W) : W :=
  updThread t (JVMThread.with_monitor None) (updThread t (withRawStatus s) w).

(** [w'] differs from [w] at most in the status, the threadStatus field and
    the monitor of thread [t], in the running thread of the pool and in the
    queue of [setImmediate]. *)
Definition statusOnly (t : ThreadAddr) (w w' : W) : Prop :=
  (∀ t', t' ≠ t → threadObjs w' t' = threadObjs w t')
  ∧ stackOf w' t = stackOf w t
  ∧ JVMThread.interrupted (threadObjs w' t) = JVMThread.interrupted (threadObjs w t)
  ∧ JVMThread.immortal (threadObjs w' t) = JVMThread.immortal (threadObjs w t)
  ∧ refOf w' t = refOf w t
  ∧ java_lang_Thread.daemon (JVMThread.jvmThreadObj (threadObjs w' t))
    = java_lang_Thread.daemon (JVMThread.jvmThreadObj (threadObjs w t))
  ∧ frameObjs w' = frameObjs w
  ∧ ThreadPool.threads (tpool w') = ThreadPool.threads (tpool w)
  ∧ ThreadPool.runningThreadIndex (tpool w') = ThreadPool.runningThreadIndex (tpool w)
  ∧ ThreadPool.parkCounts (tpool w') = ThreadPool.parkCounts (tpool w)
  ∧ calls w' = calls w
  ∧ ext w' = ext w.

(** *** [ThreadPool.newThread] *)

(** [newThread(threadObj)]; [a] is the address of the object that
    [new JVMThread(this.bsCl, this, threadObj)] creates. *)
Definition newThread (a : ThreadAddr) (threadObj : java_lang_Thread.t) : M ThreadAddr :=
  setThread a (fun _ => JVMThread.new threadObj) ;;;
  addThread a ;;;
  ret a.

(** *** What [threadTerminated] leaves *)

(** Thread [a] counts for [anySchedulableThreads]: it is not a daemon and
    its status is neither NEW nor TERMINATED. *)
Definition keepsAlive (w : W) (a : ThreadAddr) : Prop :=
  java_lang_Thread.daemon (JVMThread.jvmThreadObj (threadObjs w a)) = 0
  ∧ statusOf w a ≠ ThreadStatus.NEW
  ∧ statusOf w a ≠ ThreadStatus.TERMINATED.

(** The pool once its running thread, at position [k] of the list, has been
    removed by [threadTerminated]. *)
Definition runningThreadRemoved (k : nat) (w : W) : W :=
  updPool (fun p => ThreadPool.with_runningThreadIndex (ThreadPool.runningThreadIndex p - 1) p)
    (updPool (ThreadPool.with_runningThread None)
       (updPool (ThreadPool.with_threads (delete k (ThreadPool.threads (tpool w)))) w)).

(** *** Returning from a frame *)

(** [validateReturnValue], called as [asyncReturn] calls it for a frame of
    [method], returns true. *)
Definition returnValueValid (t : ThreadAddr) (method : Method.t) (rv rv2 : Value) (w : W)
    : Prop :=
  validateReturnValue t method (Method.returnType method) JVMThread_bsCl
    (Method.loader method) rv rv2 w = None.

(** The check of [validateReturnValue] that [asyncReturn] asserts for the
    frame [f] it popped (internal frames are not checked). *)
Definition returnValueChecked (t : ThreadAddr) (rv rv2 : Value) (w : W) (f : IStackFrame)
    : Prop :=
  match f with
  | Internal _ => True
  | Bytecode b => returnValueValid t (BytecodeStackFrame.method b) rv rv2 w
  | Native n => returnValueValid t (NativeStackFrame.method n) rv rv2 w
  end.

(** The two values [NativeStackFrame.run] passes to [asyncReturn] for a
    method of return type [returnType] whose native function returned [rv]. *)
Definition nativeReturnValues (returnType : string) (rv : Value) : Value * Value :=
  if String.eqb returnType "J" || String.eqb returnType "D" then (rv, null)
  else if String.eqb returnType "Z" then (num (if truthy rv then 1 else 0), undefined)
  else (rv, undefined).

(** The method of a frame that has one. *)
Definition frameMethod (f : IStackFrame) : option Method.t :=
  match f with
  | Bytecode b => Some (BytecodeStackFrame.method b)
  | Native n => Some (NativeStackFrame.method n)
  | Internal _ => None
  end.

(** The two arguments [InternalStackFrame.run] calls the callback with:
    [cb(val)] for an exception, [cb(null, val)] for a value. *)
Definition internalCallbackArgs (i : InternalStackFrame.t) : Value * Value :=
  if InternalStackFrame.isException i then (InternalStackFrame.val i, undefined)
  else (null, InternalStackFrame.val i).

(** The state in which an internal frame run by thread [t] calls its
    callback: the top frame popped, the thread ASYNC_WAITING, and the pool
    told that the thread is suspended. *)
Definition beforeCallback (t : ThreadAddr) (w : W) : W :=
  let w1 := transitionOpened t ThreadStatus.ASYNC_WAITING (popFrame t w) in
  if bool_decide (ThreadPool.runningThread (tpool w1) = Some t)
  then with_immediates (immediates w1 ++ [CbScheduleNextThread])
         (updPool (ThreadPool.with_runningThread None) w1)
  else w1.

(** The state in which [run] of thread [t], scheduled with an empty stack,
    leaves its loop: the status written, the counter of method resumes
    reset. *)
Definition scheduledEmpty (t : ThreadAddr) (w : W) : W :=
  with_methodResumesLeft (maxMethodResumes w) (transitionOpened t ThreadStatus.RUNNING w).

(** *** Calls from outside the file *)






End Threading.

(** ** A small instance of the other modules

    Used to run the definitions on concrete states.  The state of the other
    modules is the list of the classes the loader has resolved. *)

Module Sample.

Definition Ext : Type := list (string * ClassData).

(** JVMTI thread state bits of the JVMTI specification. *)
Definition JVMTI_value (s : JVMTIThreadState.t) : Z :=
  match s with
  | JVMTIThreadState.ALIVE => 0x0001
  | JVMTIThreadState.TERMINATED => 0x0002
  | JVMTIThreadState.RUNNABLE => 0x0004
  | JVMTIThreadState.BLOCKED_ON_MONITOR_ENTER => 0x0400
  | JVMTIThreadState.WAITING_INDEFINITELY => 0x0010
  | JVMTIThreadState.WAITING_WITH_TIMEOUT => 0x0020
  end.

(** The five invoke opcodes of the JVM specification, and sample numbers in
    the unassigned range for the others. *)
Definition opcode_value (o : OpCode.t) : Z :=
  match o with
  | OpCode.INVOKEVIRTUAL => 0xb6
  | OpCode.INVOKESPECIAL => 0xb7
  | OpCode.INVOKESTATIC => 0xb8
  | OpCode.INVOKEINTERFACE => 0xb9
  | OpCode.INVOKEDYNAMIC => 0xba
  | OpCode.INVOKENONVIRTUAL_FAST => 0xdb
  | OpCode.INVOKESTATIC_FAST => 0xdc
  | OpCode.INVOKEVIRTUAL_FAST => 0xdd
  | OpCode.INVOKEINTERFACE_FAST => 0xde
  | OpCode.INVOKEHANDLE => 0xdf
  | OpCode.INVOKEBASIC => 0xe0
  | OpCode.LINKTOSPECIAL => 0xe1
  | OpCode.LINKTOVIRTUAL => 0xe2
  | OpCode.INVOKEDYNAMIC_FAST => 0xe3
  end.

(** Every opcode returns to the thread loop at once. *)
Definition opcode (op : Z) (t : ThreadAddr) (a : FrameAddr) (code : list Z) (pc : Z)
    : ExtM Ext unit :=
  fun w => ExtOk tt (updFrame a (onBytecode (BytecodeStackFrame.with_returnToThreadLoop true)) w).

Definition getResolvedClass (l : ClassLoader) (name : string) (w : World Ext) : option ClassData :=
  snd <$> List.find (fun p => String.eqb (fst p) name) (ext w).

(** The one-letter names of the primitive types. *)
Definition is_primitive_type (type_str : string) : bool :=
  bool_decide (type_str ∈ ["B"; "C"; "D"; "F"; "I"; "J"; "S"; "V"; "Z"]).

(** Debug and release builds of the same modules. *)
Definition externals (release : bool) : Externals Ext := {|
  RELEASE := release;
  JVMTIThreadState_value := JVMTI_value;
  OpCode_value := opcode_value;
  opcodes_LookupTable := opcode;
  nativeFunction := fun _ _ _ w => ExtOk (num 42) w;
  callJSFunction := fun _ _ _ w => ExtOk tt w;
  Method_methodLock := fun _ _ _ _ => 7%nat;
  Monitor_enter := fun _ _ _ w => ExtOk true w;
  Monitor_exit := fun _ _ w => ExtOk tt w;
  Monitor_notifyAll := fun _ _ w => ExtOk tt w;
  Thread_getMonitor := fun o => Z.to_nat (java_lang_Thread.ref o);
  ClassLoader_getResolvedClass := getResolvedClass;
  ClassLoader_resolveClasses := fun _ _ _ _ w => ExtOk tt w;
  Throwable_getClass := fun e => e;
  ClassData_isCastable := fun c target => Nat.eqb c target || Nat.eqb target 1;
  Thread_dispatchUncaughtException := fun _ _ w => ExtOk tt w;
  JVM_isShutdown := fun _ => false;
  System_exit := fun _ w => ExtOk tt w;
  ThreadPool_emptyCallback := fun w => ExtOk tt w;
  Date_getTime := fun _ => 0%float;
  JVMThread_bsCl := 0%nat;
  ClassLoader_getInitializedClass := fun l _ name w => getResolvedClass l name w;
  ClassLoader_parents := fun _ _ => [];
  ClassData_isInterface := fun _ => false;
  util_is_primitive_type := is_primitive_type;
  util_is_array_type := fun s => String.prefix "[" s;
  util_is_reference_type := fun s => String.prefix "L" s;
  util_wrapFloat := fun v => v;
  Object_ToNumber := fun _ _ => None;
  gLong_value := fun _ => None;
  Object_hasGetClass := fun _ => true;
  Object_instanceOfObject := fun _ _ _ => true
|}.

Definition debug : Externals Ext := externals false.
Definition release : Externals Ext := externals true.

(** A caller at an invokestatic at pc 12 (scenario S3 of the spec), with a
    handler for class 1 over [8, 20) that jumps to 30 (scenario S4). *)
Definition callerCode : list Z :=
  [0; 0; 0; 0; 0; 0; 0; 0; 0; 0; 0; 0; 0xb8; 0; 1; 0; 0; 0; 0; 0].

Definition caller : Method.t :=
  Method.mk "Main.main([Ljava/lang/String;)V" false false false "V" callerCode
    [ExceptionHandler.mk 8 20 30 "Ljava/lang/Exception;"] 0%nat.

Definition parkMethod : Method.t :=
  Method.mk "sun/misc/Unsafe.park(ZJ)V" true false false "V" [] [] 0%nat.

Definition callerFrame : IStackFrame :=
  Bytecode (BytecodeStackFrame.mk 12 [] [] false false caller).
Definition parkFrame : IStackFrame :=
  Native (NativeStackFrame.mk parkMethod []).

(** Frames 0 and 2 are callers, frame 1 is the native frame of park; every
    other address holds an internal frame. *)
Definition frames (a : FrameAddr) : IStackFrame :=
  match a with
  | 0%nat | 2%nat => callerFrame
  | 1%nat => parkFrame
  | _ => Internal (InternalStackFrame.new 0%nat)
  end.

(** Thread [a] has reference number [a]; thread 0 is running the native
    frame of park over the caller, thread 1 is runnable in the caller, the
    others are new. *)
Definition threads (a : ThreadAddr) : JVMThread.t :=
  let o := java_lang_Thread.mk (Z.of_nat a) 0 0 in
  match a with
  | O => JVMThread.mk ThreadStatus.RUNNING [0%nat; 1%nat] false false None
           (java_lang_Thread.with_threadStatus 4 o)
  | S O => JVMThread.mk ThreadStatus.RUNNABLE [2%nat] false false None
           (java_lang_Thread.with_threadStatus 4 o)
  | _ => JVMThread.new o
  end.

Definition world : World Ext :=
  mkWorld threads frames
    (ThreadPool.mk [0%nat; 1%nat] (Some 0%nat) 0 ∅)
    10000%float 10000%float 1000%float 1%float [] [] [].

(** The same state with thread 1 immortal. *)
Definition immortalWorld : World Ext :=
  updThread 1%nat
    (fun th => JVMThread.mk (JVMThread.status th) (JVMThread.stack th)
                 (JVMThread.interrupted th) true (JVMThread.monitor th)
                 (JVMThread.jvmThreadObj th)) world.

(** The same state once thread 0 waits on an asynchronous operation and no
    thread is running. *)
Definition idleWorld : World Ext :=
  updPool (ThreadPool.with_runningThread None)
    (updThread 0%nat (JVMThread.with_status ThreadStatus.ASYNC_WAITING) world).

(** The same state with the catch type of the caller's handler resolved to
    class 1. *)
Definition resolvedWorld : World Ext :=
  mkWorld threads frames
    (ThreadPool.mk [0%nat; 1%nat] (Some 0%nat) 0 ∅)
    10000%float 10000%float 1000%float 1%float [] [] [("Ljava/lang/Exception;", 1%nat)].

(** A synchronized method with the same code and handler table, and the
    sample state with thread 1 in it at pc 2, which the handler does not
    cover. *)
Definition syncCaller : Method.t :=
  Method.mk "Main.run()V" false false true "V" callerCode
    [ExceptionHandler.mk 8 20 30 "Ljava/lang/Exception;"] 0%nat.

Definition syncWorld : World Ext :=
  updFrame 2%nat (fun _ => Bytecode (BytecodeStackFrame.mk 2 [] [] false true syncCaller)) world.

(** The same state after an [unpark] of thread 0 that no [park] preceded. *)
Definition unparkedWorld : World Ext := setCount 0 (-1) world.


(** Thread 1 of the sample state once its only frame is gone. *)
Definition emptyWorld : World Ext :=
  updThread 1%nat (JVMThread.with_stack []) world.

(** Thread 0 with an internal frame on top of the frame of park. *)
Definition callbackWorld : World Ext :=
  updThread 0%nat (JVMThread.with_stack [0%nat; 1%nat; 3%nat]) world.

(** Thread 0 in the native frame of park called from an internal frame. *)
Definition nativeWorld : World Ext :=
  updThread 0%nat (JVMThread.with_stack [3%nat; 1%nat]) world.

(** Thread 0 PARKED in the frame of park, and no thread running. *)
Definition parkedWorld : World Ext :=
  updPool (ThreadPool.with_runningThread None)
    (updThread 0%nat (JVMThread.with_status ThreadStatus.PARKED) world).

(** A native method that returns an int, and the sample states with its
    frame in the place of the frame of park. *)
Definition hashMethod : Method.t :=
  Method.mk "java/lang/Object.hashCode()I" true false false "I" [] [] 0%nat.

Definition hashFrame : IStackFrame :=
  Native (NativeStackFrame.mk hashMethod []).

Definition intWorld : World Ext := updFrame 1%nat (fun _ => hashFrame) world.

Definition intNativeWorld : World Ext := updFrame 1%nat (fun _ => hashFrame) nativeWorld.

End Sample.
(** ** Properties *)

Section Properties.
Context {X : Type} {E : Externals X}.

Local Open Scope js_scope.
Local Abbreviation W := (World X).
Local Abbreviation M := (M X).

(** *** The monad *)

Lemma bind_ret {A B} (a : A) (k : A → M B) (w : W) : bind (ret a) k w = k a w.
Proof. reflexivity. Qed.

Lemma bind_get {A B} (f : W → A) (k : A → M B) (w : W) : bind (get f) k w = k (f w) w.
Proof. reflexivity. Qed.

Lemma bind_modify {B} (f : W → W) (k : unit → M B) (w : W) :
  bind (modify f) k w = k tt (f w).
Proof. reflexivity. Qed.

Lemma bind_assoc {A B C} (m : M A) (k : A → M B) (k' : B → M C) (w : W) :
  bind (bind m k) k' w = bind m (fun a => bind (k a) k') w.
Proof. unfold bind. destruct (m w); reflexivity. Qed.

Lemma bind_Ok {A B} (m : M A) (k : A → M B) (w w' : W) (a : A) :
  m w = Ok a w' → bind m k w = k a w'.
Proof. unfold bind. intros ->. reflexivity. Qed.

Lemma bind_Throw {A B} (m : M A) (k : A → M B) (w w' : W) (e : JSError) :
  m w = Throw e w' → bind m k w = Throw e w'.
Proof. unfold bind. intros ->. reflexivity. Qed.

Lemma setStatus_S n :
  setStatus (S n) = setStatus_body (asyncReturn n) (run n).
Proof. reflexivity. Qed.

Lemma asyncReturn_S n : asyncReturn (S n) = asyncReturn_body (setStatus n).
Proof. reflexivity. Qed.

Lemma run_S n : run (S n) = run_body (setStatus n) (runLoop n).
Proof. reflexivity. Qed.

Lemma runLoop_S n : runLoop (S n) = runLoop_body (setStatus n) (frameRun n) (runLoop n).
Proof. reflexivity. Qed.

Lemma frameRun_S n :
  frameRun (S n) = frameRun_body (setStatus n) (asyncReturn n) (bytecodeLoop n).
Proof. reflexivity. Qed.

(** *** Properties kept by every step of a call *)

Lemma preserves_ret {A} (Inv : W → Prop) (a : A) : preserves Inv (ret a).
Proof. intros w H. exact H. Qed.

Lemma preserves_throw {A} (Inv : W → Prop) (e : JSError) : preserves Inv (throw (A:=A) e).
Proof. intros w H. exact H. Qed.

Lemma preserves_outOfFuel {A} (Inv : W → Prop) : preserves Inv (outOfFuel (A:=A)).
Proof. intros w H. exact I. Qed.

Lemma preserves_get {A} (Inv : W → Prop) (f : W → A) : preserves Inv (get f).
Proof. intros w H. exact H. Qed.

Lemma preserves_bind {A B} (Inv : W → Prop) (m : M A) (k : A → M B) :
  preserves Inv m → (∀ a, preserves Inv (k a)) → preserves Inv (bind m k).
Proof.
  intros Hm Hk w H. specialize (Hm w H). unfold bind.
  destruct (m w) as [a w'|e w'|]; cbn in *; auto.
  apply Hk. exact Hm.
Qed.

Lemma preserves_when (Inv : W → Prop) (c : bool) (m : M unit) :
  preserves Inv m → preserves Inv (when c m).
Proof. intros Hm. destruct c; [exact Hm | apply preserves_ret]. Qed.

Lemma preserves_assert (Inv : W → Prop) (b : bool) (msg : string) : preserves Inv (assert b msg).
Proof.
  unfold assert. destruct RELEASE; [apply preserves_ret|].
  destruct b; [apply preserves_ret | apply preserves_throw].
Qed.

Lemma preserves_modify (Inv : W → Prop) (f : W → W) :
  (∀ w, Inv w → Inv (f w)) → preserves Inv (modify f).
Proof. intros Hf w H. apply Hf, H. Qed.

Lemma preserves_extern {A} (Inv : W → Prop) (ev : Event) (f : ExtM X A) :
  (∀ w c, Inv w → Inv (with_calls c w)) →
  ext_preserves Inv f → preserves Inv (extern ev f).
Proof.
  intros Hc Hf w H. specialize (Hf w H). unfold extern, logged.
  destruct (f w); cbn; apply Hc, Hf.
Qed.

(** One step of a proof that a call keeps a property: [side] closes the
    conditions on the writes, [ext] those on the other modules. *)
Ltac pres_with side ext :=
  repeat first
    [ assumption
    | apply preserves_ret | apply preserves_throw | apply preserves_outOfFuel
    | apply preserves_get | apply preserves_assert
    | apply preserves_when
    | apply preserves_bind; [ | intros ? ]
    | apply preserves_modify; solve [side]
    | apply preserves_extern; [ solve [side] | solve [ext] ]
    | match goal with
      | |- preserves _ (match ?x with _ => _ end) => destruct x
      | |- preserves _ (if ?c then _ else _) => destruct c
      | |- preserves _ (let (_, _) := ?x in _) => destruct x
      end ].

Ltac unfold_prims :=
  unfold resurrectThread, addThread, threadRunnable, threadSuspended, scheduleNextThread,
    anySchedulableThreads, threadTerminated, isParked, initParkCount, parkCount, setParkCount,
    thread, frame, pool, getStatus, getRef, framePop, pushOperand, setImmediate,
    rawSetStatus, setThread, setFrame, setPool, updBytecode, assertReturnValue.

(** *** Preservation of a property of one thread object

    [P] is a property of the thread object at [t0] that does not read the
    call stack or the monitor of the thread, and that holds after every
    [rawSetStatus]. *)

Section ThreadInvariant.
Variable t0 : ThreadAddr.
Variable P : JVMThread.t → Prop.
Hypothesis P_stack : ∀ th v, P th → P (JVMThread.with_stack v th).
Hypothesis P_monitor : ∀ th v, P th → P (JVMThread.with_monitor v th).
Hypothesis P_raw : ∀ th s, P (withRawStatus s th).

Let Inv (w : W) : Prop := P (threadObjs w t0).

Hypothesis EP : ExternalsPreserve Inv.

Lemma Inv_updThread t f w :
  (∀ th, P th → P (f th)) → Inv w → Inv (updThread t f w).
Proof.
  intros Hf H. unfold Inv, updThread. cbn.
  destruct (Nat.eqb_spec t0 t) as [->|]; [apply Hf|]; exact H.
Qed.

Ltac side :=
  intros; first [ assumption | apply Inv_updThread; [solve [auto] | assumption] ].

Ltac pres := pres_with side ltac:(apply EP).

Lemma preserves_threadRunnable t : preserves Inv (threadRunnable t).
Proof. unfold_prims. pres. Qed.

Lemma preserves_threadSuspended t : preserves Inv (threadSuspended t).
Proof. unfold_prims. pres. Qed.

Lemma preserves_resurrectThread t : preserves Inv (resurrectThread t).
Proof. unfold_prims. pres. Qed.

Lemma preserves_threadTerminated t : preserves Inv (threadTerminated t).
Proof. unfold_prims. pres. Qed.

Lemma preserves_exit t : preserves Inv (exit t).
Proof. unfold exit, exit_phase2. unfold_prims. pres; apply preserves_threadTerminated. Qed.

Lemma preserves_currentMethod t : preserves Inv (currentMethod t).
Proof. unfold currentMethod. unfold_prims. pres. Qed.



Lemma preserves_setStatus_body asyncReturn run t s m :
  (∀ t rv rv2, preserves Inv (asyncReturn t rv rv2)) →
  (∀ t, preserves Inv (run t)) →
  preserves Inv (setStatus_body asyncReturn run t s m).
Proof.
  intros HA HR. unfold setStatus_body, preTransition, postTransition. unfold_prims.
  pres; first [apply HA | apply HR | apply preserves_exit
             | apply preserves_threadRunnable | apply preserves_threadSuspended
             | apply preserves_resurrectThread].
Qed.

Lemma preserves_asyncReturn_body setStatus t rv rv2 :
  (∀ t s m, preserves Inv (setStatus t s m)) →
  preserves Inv (asyncReturn_body setStatus t rv rv2).
Proof.
  intros HS. unfold asyncReturn_body, scheduleResume, BytecodeStackFrame_scheduleResume,
    InternalStackFrame_scheduleResume. unfold_prims.
  pres; apply HS.
Qed.

Lemma preserves_bytecodeLoop fuel a t code : preserves Inv (bytecodeLoop fuel a t code).
Proof.
  revert a t code. induction fuel as [|n IH]; intros a t code; cbn [bytecodeLoop].
  - pres.
  - unfold bytecodeLoop_body. unfold_prims. pres. apply IH.
Qed.

Lemma preserves_frameRun_body setStatus asyncReturn loop a t :
  (∀ t s m, preserves Inv (setStatus t s m)) →
  (∀ t rv rv2, preserves Inv (asyncReturn t rv rv2)) →
  (∀ a t code, preserves Inv (loop a t code)) →
  preserves Inv (frameRun_body setStatus asyncReturn loop a t).
Proof.
  intros HS HA HL.
  unfold frameRun_body, BytecodeStackFrame_run, NativeStackFrame_run, InternalStackFrame_run.
  unfold_prims.
  pres; first [apply HS | apply HA | apply HL | apply preserves_currentMethod].
Qed.

Lemma preserves_runLoop_body setStatus frameRun loop t startTime :
  (∀ t s m, preserves Inv (setStatus t s m)) →
  (∀ a t, preserves Inv (frameRun a t)) →
  (∀ t st, preserves Inv (loop t st)) →
  preserves Inv (runLoop_body setStatus frameRun loop t startTime).
Proof.
  intros HS HF HL. unfold runLoop_body. unfold_prims.
  pres; first [apply HS | apply HF | apply HL].
Qed.

Lemma preserves_run_body setStatus loop t :
  (∀ t s m, preserves Inv (setStatus t s m)) →
  (∀ t st, preserves Inv (loop t st)) →
  preserves Inv (run_body setStatus loop t).
Proof.
  intros HS HL. unfold run_body. unfold_prims.
  pres; first [apply HS | apply HL].
Qed.

(** The five mutually recursive methods keep the property, at every fuel. *)
Lemma preserves_methods (fuel : nat) :
  (∀ t s m, preserves Inv (setStatus fuel t s m))
  ∧ (∀ t rv rv2, preserves Inv (asyncReturn fuel t rv rv2))
  ∧ (∀ t, preserves Inv (run fuel t))
  ∧ (∀ t st, preserves Inv (runLoop fuel t st))
  ∧ (∀ a t, preserves Inv (frameRun fuel a t)).
Proof.
  induction fuel as [|n (HS & HA & HR & HL & HF)].
  - repeat split; intros; cbn; apply preserves_outOfFuel.
  - repeat split; intros.
    + cbn [setStatus]. apply preserves_setStatus_body; assumption.
    + cbn [asyncReturn]. apply preserves_asyncReturn_body; assumption.
    + cbn [run]. apply preserves_run_body; assumption.
    + cbn [runLoop]. apply preserves_runLoop_body; assumption.
    + cbn [frameRun]. apply preserves_frameRun_body; try assumption.
      intros. apply preserves_bytecodeLoop.
Qed.


(** Once past its guards [setStatus] establishes the property of its own
    thread, whatever held before. *)
Lemma setStatus_establishes fuel m w s :
  performsTransition w t0 s = true →
  ends (setStatus fuel t0 s m w) Inv.
Proof.
  intros Hp. destruct fuel as [|n]; [exact I|].
  unfold performsTransition, statusOf in Hp.
  apply andb_prop in Hp as [Hp Hassert].
  apply andb_prop in Hp as [Hp Himm].
  cbn [setStatus]. unfold setStatus_body at 1.
  unfold thread. rewrite bind_get. rewrite Hp.
  apply negb_true_iff in Himm. rewrite Himm.
  assert (Ha : assert (validateThreadTransition (JVMThread.status (threadObjs w t0)) s)
                 "Invalid thread transition" w = Ok tt w).
  { unfold assert. destruct RELEASE; [reflexivity|]. cbn in Hassert. rewrite Hassert. reflexivity. }
  rewrite (bind_Ok _ _ _ _ _ Ha).
  assert (HI : Inv (updThread t0 (withRawStatus s) w)).
  { unfold Inv, updThread. cbn. rewrite Nat.eqb_refl. apply P_raw. }
  unfold rawSetStatus at 1, setThread at 1. rewrite bind_modify.
  revert HI. generalize (updThread t0 (withRawStatus s) w).
  intros w1 HI.
  destruct (preserves_methods n) as (HS & HA & HR & HL & HF).
  revert w1 HI. 
  change (preserves Inv
    (setThread t0 (JVMThread.with_monitor None);;;
      preTransition (asyncReturn n) t0 (JVMThread.status (threadObjs w t0));;;
      postTransition (run n) t0 m)).
  unfold preTransition, postTransition. unfold_prims.
  pres; first [apply HA | apply HR | apply preserves_exit
             | apply preserves_threadRunnable | apply preserves_threadSuspended
             | apply preserves_resurrectThread].
Qed.

End ThreadInvariant.


(** The guard of [setStatus] read off the code: with the status at RUNNING
    and RUNNABLE asked for, the body is skipped. *)
Lemma setStatus_ignored fuel (w : W) t monitor :
  statusOf w t = ThreadStatus.RUNNING →
  setStatus (S fuel) t ThreadStatus.RUNNABLE monitor w = Ok tt w.
Proof.
  intros Hst. unfold statusOf in Hst.
  cbn [setStatus]. unfold setStatus_body, bind, thread, get.
  rewrite Hst. reflexivity.
Qed.

(** *** The two transitions [setStatus] drops *)

(** C8. A thread whose status is RUNNING ignores [setStatus(RUNNABLE)]: the
    call returns and the whole state is the one before the call, so the
    status stays RUNNING, the threadStatus field of the Java object is
    untouched, nothing is queued for the scheduler, no monitor is recorded
    and no other module is called. *)
Theorem setStatus_RUNNING_RUNNABLE_ignored :
  ∀ (fuel : nat) (w : W) (t : ThreadAddr) (monitor : option Monitor),
    statusOf w t = ThreadStatus.RUNNING →
    setStatus (S fuel) t ThreadStatus.RUNNABLE monitor w = Ok tt w.
Proof.
  intros fuel w t monitor Hst.
  rewrite setStatus_S. unfold setStatus_body, bind, thread, get.
  fold (statusOf w t). rewrite Hst. reflexivity.
Qed.

(** C9. On an immortal thread [setStatus(TERMINATED)] does nothing: the call
    returns and the whole state is the one before the call (status and
    threadStatus unchanged, no monitor notified, the thread stays in the
    pool, no shutdown is started).  This holds in every state of the thread,
    TERMINATED included. *)
Theorem setStatus_TERMINATED_immortal_noop :
  ∀ (fuel : nat) (w : W) (t : ThreadAddr) (monitor : option Monitor),
    JVMThread.immortal (threadObjs w t) = true →
    setStatus (S fuel) t ThreadStatus.TERMINATED monitor w = Ok tt w.
Proof.
  intros fuel w t monitor Him.
  cbn [setStatus]. unfold setStatus_body, bind, thread, get.
  rewrite Him.
  destruct (JVMThread.status (threadObjs w t)); reflexivity.
Qed.


(** *** Calls that finish and keep a property *)

Lemma outcome_weaken {A} (r : Result A) (Q1 Q2 Q1' Q2' : W → Prop) :
  outcome r Q1 Q2 → (∀ w, Q1 w → Q1' w) → (∀ w, Q2 w → Q2' w) → outcome r Q1' Q2'.
Proof. destruct r; cbn; auto. Qed.

Lemma outcome_bind {A B} (m : M A) (k : A → M B) (w : W) (Q1 Qok Qthrow : W → Prop) :
  outcome (m w) Q1 Qthrow →
  (∀ a w', m w = Ok a w' → Q1 w' → outcome (k a w') Qok Qthrow) →
  outcome (bind m k w) Qok Qthrow.
Proof.
  unfold bind. destruct (m w) as [a w'|e w'|]; cbn; auto.
Qed.

Lemma keeps_ret {A} (Inv : W → Prop) (a : A) : keeps Inv (ret a).
Proof. intros w H. exact H. Qed.

Lemma keeps_throw {A} (Inv : W → Prop) (e : JSError) : keeps Inv (throw (A:=A) e).
Proof. intros w H. exact H. Qed.

Lemma keeps_get {A} (Inv : W → Prop) (f : W → A) : keeps Inv (get f).
Proof. intros w H. exact H. Qed.

Lemma keeps_bind {A B} (Inv : W → Prop) (m : M A) (k : A → M B) :
  keeps Inv m → (∀ a, keeps Inv (k a)) → keeps Inv (bind m k).
Proof.
  intros Hm Hk w H. specialize (Hm w H). unfold bind.
  destruct (m w) as [a w'|e w'|]; cbn in *; auto.
  apply Hk. exact Hm.
Qed.

(** Reading a value that [Inv] fixes. *)
Lemma keeps_bind_get {A B} (Inv : W → Prop) (f : W → A) (k : A → M B) (v : A) :
  (∀ w, Inv w → f w = v) → keeps Inv (k v) → keeps Inv (bind (get f) k).
Proof.
  intros Hf Hk w H. rewrite bind_get, (Hf w H). apply Hk, H.
Qed.

Lemma keeps_when (Inv : W → Prop) (c : bool) (m : M unit) :
  keeps Inv m → keeps Inv (when c m).
Proof. intros Hm. destruct c; [exact Hm | apply keeps_ret]. Qed.

Lemma keeps_assert (Inv : W → Prop) (b : bool) (msg : string) : keeps Inv (assert b msg).
Proof.
  unfold assert. destruct RELEASE; [apply keeps_ret|].
  destruct b; [apply keeps_ret | apply keeps_throw].
Qed.

Lemma keeps_modify (Inv : W → Prop) (f : W → W) :
  (∀ w, Inv w → Inv (f w)) → keeps Inv (modify f).
Proof. intros Hf w H. apply Hf, H. Qed.

Lemma keeps_extern {A} (Inv : W → Prop) (ev : Event) (f : ExtM X A) :
  (∀ w c, Inv w → Inv (with_calls c w)) →
  ext_preserves Inv f → keeps Inv (extern ev f).
Proof.
  intros Hc Hf w H. specialize (Hf w H). unfold extern, logged.
  destruct (f w); cbn; apply Hc, Hf.
Qed.

Ltac keeps_with side known :=
  repeat first
    [ assumption
    | known
    | apply keeps_ret | apply keeps_throw
    | apply keeps_get | apply keeps_assert
    | apply keeps_when
    | apply keeps_bind; [ | intros ? ]
    | apply keeps_modify; solve [side]
    | match goal with
      | |- keeps _ (match ?x with _ => _ end) => destruct x
      | |- keeps _ (if ?c then _ else _) => destruct c
      | |- keeps _ (let (_, _) := ?x in _) => destruct x
      end ].

(** Simplification of reads of a written state. *)
Ltac wsimpl :=
  cbn [threadObjs frameObjs tpool maxMethodResumes methodResumesLeft responsiveness numSamples
       immediates calls ext
       updThread updFrame updPool logged
       with_threadObjs with_frameObjs with_tpool with_maxMethodResumes with_methodResumesLeft
       with_numSamples with_immediates with_calls
       JVMThread.status JVMThread.stack JVMThread.interrupted JVMThread.immortal
       JVMThread.monitor JVMThread.jvmThreadObj
       JVMThread.with_status JVMThread.with_stack JVMThread.with_interrupted
       JVMThread.with_monitor JVMThread.with_jvmThreadObj
       java_lang_Thread.ref java_lang_Thread.threadStatus java_lang_Thread.daemon
       java_lang_Thread.with_threadStatus
       ThreadPool.threads ThreadPool.runningThread ThreadPool.runningThreadIndex
       ThreadPool.parkCounts ThreadPool.with_threads ThreadPool.with_runningThread
       ThreadPool.with_runningThreadIndex ThreadPool.with_parkCounts] in *;
  rewrite ?Nat.eqb_refl in *.

Lemma bind_getStatus {B} t (k : ThreadStatus.t → M B) (w : W) :
  bind (getStatus t) k w = k (statusOf w t) w.
Proof. reflexivity. Qed.

Lemma bind_getRef {B} t (k : Z → M B) (w : W) :
  bind (getRef t) k w = k (refOf w t) w.
Proof. reflexivity. Qed.

Lemma bind_thread {B} t (k : JVMThread.t → M B) (w : W) :
  bind (thread t) k w = k (threadObjs w t) w.
Proof. reflexivity. Qed.

Lemma bind_pool {B} (k : ThreadPool.t → M B) (w : W) :
  bind pool k w = k (tpool w) w.
Proof. reflexivity. Qed.

Lemma keeps_bind_getStatus {B} (Inv : W → Prop) t (k : ThreadStatus.t → M B) s :
  (∀ w, Inv w → statusOf w t = s) → keeps Inv (k s) → keeps Inv (bind (getStatus t) k).
Proof.
  intros Hf Hk w H. rewrite bind_getStatus, (Hf w H). apply Hk, H.
Qed.

(** *** The status, reference number and park counts across [setStatus] *)

Lemma threadView_updThread t s r pc t' f (w : W) :
  (∀ th, JVMThread.status (f th) = JVMThread.status th
         ∧ JVMThread.jvmThreadObj (f th) = JVMThread.jvmThreadObj th) →
  threadView t s r pc w → threadView t s r pc (updThread t' f w).
Proof.
  intros Hf (Hs & Hr & Hp). unfold threadView, statusOf, refOf in *. wsimpl.
  destruct (Nat.eqb_spec t t') as [->|]; auto.
  destruct (Hf (threadObjs w t')) as [-> ->]. auto.
Qed.

Lemma threadView_updPool t s r pc f (w : W) :
  (∀ p, ThreadPool.parkCounts (f p) = ThreadPool.parkCounts p) →
  threadView t s r pc w → threadView t s r pc (updPool f w).
Proof.
  intros Hf (Hs & Hr & Hp). unfold threadView, statusOf, refOf in *. wsimpl.
  rewrite Hf. auto.
Qed.

Ltac view_side :=
  intros;
  first [ assumption
        | apply threadView_updThread; [ intros; split; reflexivity | assumption ]
        | apply threadView_updPool; [ intros; reflexivity | assumption ]
        | match goal with H : threadView _ _ _ _ _ |- _ => exact H end ].

Ltac keeps_view_using known := keeps_with view_side known.
Ltac keeps_view := keeps_view_using fail.

Lemma keeps_view_scheduleResume t s r pc a t' rv rv2 :
  keeps (X:=X) (threadView t s r pc) (scheduleResume a t' rv rv2).
Proof.
  unfold scheduleResume, BytecodeStackFrame_scheduleResume, InternalStackFrame_scheduleResume.
  unfold_prims. keeps_view.
Qed.

Lemma keeps_view_threadRunnable t s r pc t' : keeps (X:=X) (threadView t s r pc) (threadRunnable t').
Proof. unfold_prims. keeps_view. Qed.

Lemma keeps_view_threadSuspended t s r pc t' : keeps (X:=X) (threadView t s r pc) (threadSuspended t').
Proof. unfold_prims. keeps_view. Qed.

Lemma keeps_view_resurrectThread t s r pc t' : keeps (X:=X) (threadView t s r pc) (resurrectThread t').
Proof. unfold_prims. keeps_view. Qed.

(** [setStatus] with the status the thread has does nothing. *)
Lemma setStatus_same n (w : W) t m :
  setStatus (S n) t (statusOf w t) m w = Ok tt w.
Proof.
  rewrite setStatus_S. unfold setStatus_body, thread. rewrite bind_get.
  unfold statusOf. destruct (JVMThread.status (threadObjs w t)); reflexivity.
Qed.

Lemma keeps_view_setStatus_same n t s r pc m :
  keeps (X:=X) (threadView t s r pc) (setStatus (S n) t s m).
Proof.
  intros w H. destruct H as (Hs & Hr & Hp). rewrite <- Hs at 1.
  rewrite setStatus_same. cbn. repeat split; assumption.
Qed.

Lemma keeps_view_asyncReturn n t r pc rv rv2 :
  keeps (X:=X) (threadView t ThreadStatus.RUNNABLE r pc) (asyncReturn (S (S n)) t rv rv2).
Proof.
  rewrite asyncReturn_S. unfold asyncReturn_body, scheduleResume,
    BytecodeStackFrame_scheduleResume, InternalStackFrame_scheduleResume.
  unfold_prims.
  keeps_view_using ltac:(apply keeps_view_setStatus_same).
Qed.

(** [setStatus(RUNNABLE)] on a thread that is not RUNNING: the call
    finishes, and the thread is RUNNABLE in the state it ends in. *)
Lemma setStatus_RUNNABLE_view n (w : W) t m :
  statusOf w t ≠ ThreadStatus.RUNNING →
  outcome (setStatus (S (S (S n))) t ThreadStatus.RUNNABLE m w)
    (threadView t ThreadStatus.RUNNABLE (refOf w t) (ThreadPool.parkCounts (tpool w)))
    (threadView t ThreadStatus.RUNNABLE (refOf w t) (ThreadPool.parkCounts (tpool w))).
Proof.
  intros Hs.
  destruct (ThreadStatus.eq_dec (statusOf w t) ThreadStatus.RUNNABLE) as [Hr|Hr].
  { rewrite <- Hr at 1. rewrite setStatus_same. cbn. repeat split; auto. }
  rewrite setStatus_S. unfold setStatus_body at 1. unfold thread. rewrite bind_get.
  fold (statusOf w t).
  assert (Hguard : negb (ThreadStatus.eqb (statusOf w t) ThreadStatus.RUNNABLE)
     && negb (ThreadStatus.eqb (statusOf w t) ThreadStatus.RUNNING
              && ThreadStatus.eqb ThreadStatus.RUNNABLE ThreadStatus.RUNNABLE) = true).
  { destruct (statusOf w t); try reflexivity; congruence. }
  rewrite Hguard. rewrite andb_false_r.
  assert (Ha : assert (validateThreadTransition (statusOf w t) ThreadStatus.RUNNABLE)
                 "Invalid thread transition" w = Ok tt w).
  { unfold assert. destruct RELEASE; [reflexivity|].
    destruct (statusOf w t); try reflexivity; congruence. }
  rewrite (bind_Ok _ _ _ _ _ Ha).
  unfold rawSetStatus at 1, setThread at 1. rewrite bind_modify.
  set (w1 := updThread t _ w).
  assert (Hv : threadView t ThreadStatus.RUNNABLE (refOf w t) (ThreadPool.parkCounts (tpool w)) w1).
  { unfold threadView, statusOf, refOf, w1. wsimpl. auto. }
  revert Hv. generalize w1. clear w1 Ha Hguard.
  change (keeps (threadView t ThreadStatus.RUNNABLE (refOf w t) (ThreadPool.parkCounts (tpool w)))
    (setThread t (JVMThread.with_monitor None);;;
      preTransition (asyncReturn (S (S n))) t (statusOf w t);;;
      postTransition (run (S (S n))) t m)).
  apply keeps_bind; [unfold_prims; keeps_view|intros _].
  apply keeps_bind.
  { unfold preTransition.
    destruct (statusOf w t); first [apply keeps_ret | apply keeps_view_asyncReturn
                                   | apply keeps_view_resurrectThread]. }
  intros _. unfold postTransition.
  apply keeps_bind_getStatus with (s := ThreadStatus.RUNNABLE).
  { intros w' (H1 & _). exact H1. }
  apply keeps_view_threadRunnable.
Qed.

(** [setStatus(PARKED)] on a thread that is not PARKED: the call returns
    and the thread is PARKED, or (in a debug build, when the transition is not
    RUNNING => PARKED) the assertion throws and the state is the one before
    the call. *)
Lemma setStatus_PARKED_view n (w : W) t m :
  statusOf w t ≠ ThreadStatus.PARKED →
  outcome (setStatus (S n) t ThreadStatus.PARKED m w)
    (threadView t ThreadStatus.PARKED (refOf w t) (ThreadPool.parkCounts (tpool w)))
    (fun w' => w' = w ∧ RELEASE = false ∧ statusOf w t ≠ ThreadStatus.RUNNING).
Proof.
  intros Hs.
  rewrite setStatus_S. unfold setStatus_body at 1. unfold thread. rewrite bind_get.
  fold (statusOf w t).
  assert (Hguard : negb (ThreadStatus.eqb (statusOf w t) ThreadStatus.PARKED)
     && negb (ThreadStatus.eqb (statusOf w t) ThreadStatus.RUNNING
              && ThreadStatus.eqb ThreadStatus.PARKED ThreadStatus.RUNNABLE) = true).
  { destruct (statusOf w t); try reflexivity; congruence. }
  rewrite Hguard. rewrite andb_false_r.
  assert (Ha : assert (validateThreadTransition (statusOf w t) ThreadStatus.PARKED)
                 "Invalid thread transition" w = Ok tt w
               ∨ (assert (validateThreadTransition (statusOf w t) ThreadStatus.PARKED)
                    "Invalid thread transition" w
                  = Throw (AssertionError "Invalid thread transition") w
                  ∧ RELEASE = false ∧ statusOf w t ≠ ThreadStatus.RUNNING)).
  { unfold assert. destruct RELEASE; [left; reflexivity|].
    destruct (statusOf w t); try (left; reflexivity);
      right; repeat split; try reflexivity; congruence. }
  destruct Ha as [Ha | (Ha & Hrel & Hnr)].
  2:{ rewrite (bind_Throw _ _ _ _ _ Ha). cbn. auto. }
  rewrite (bind_Ok _ _ _ _ _ Ha).
  unfold rawSetStatus at 1, setThread at 1. rewrite bind_modify.
  unfold setThread at 1. rewrite bind_modify.
  set (w1 := updThread t _ (updThread t _ w)).
  assert (Hv : threadView t ThreadStatus.PARKED (refOf w t) (ThreadPool.parkCounts (tpool w)) w1).
  { unfold threadView, statusOf, refOf, w1. wsimpl. auto. }
  assert (Hpre : ∃ w2, preTransition (asyncReturn n) t (statusOf w t) w1 = Ok tt w2
      ∧ threadView t ThreadStatus.PARKED (refOf w t) (ThreadPool.parkCounts (tpool w)) w2).
  { unfold preTransition.
    destruct (statusOf w t) eqn:Hst; try (eexists; split; [reflexivity | exact Hv]); [congruence|].
    pose proof (keeps_view_resurrectThread t ThreadStatus.PARKED (refOf w t)
                  (ThreadPool.parkCounts (tpool w)) t w1 Hv) as Hk.
    unfold resurrectThread, addThread in *. rewrite bind_pool in *.
    destruct (indexOf (ThreadPool.threads (tpool w1)) t =? -1); cbn in *;
      eexists; (split; [reflexivity | exact Hk]). }
  destruct Hpre as (w2 & Hpre & Hv2).
  rewrite (bind_Ok _ _ _ _ _ Hpre).
  unfold postTransition.
  rewrite bind_getStatus. destruct Hv2 as (Hs2 & Hr2 & Hp2). rewrite Hs2.
  pose proof (keeps_view_threadSuspended t ThreadStatus.PARKED (refOf w t)
                (ThreadPool.parkCounts (tpool w)) t w2 (conj Hs2 (conj Hr2 Hp2))) as Hk.
  unfold threadSuspended in *. rewrite bind_pool in *.
  destruct (bool_decide _); cbn in *; exact Hk.
Qed.

(** *** [park] and [unpark] *)

(** The state with [parkCounts[r]] set to [c]. *)
Lemma setParkCount_run r c (w : W) :
  setParkCount r c w = Ok tt (setCount r c w).
Proof. reflexivity. Qed.

Lemma initParkCount_setCount r c (w : W) :
  match initParkCount r w with
  | Ok _ w0 => setCount r c w0 = setCount r c w
               ∧ default 0 (ThreadPool.parkCounts (tpool w0) !! r)
                 = default 0 (ThreadPool.parkCounts (tpool w) !! r)
               ∧ refOf w0 = refOf w
  | _ => False
  end.
Proof.
  unfold initParkCount. rewrite bind_pool.
  destruct (ThreadPool.parkCounts (tpool w) !! r) eqn:Hl; cbn.
  - rewrite Hl. auto.
  - unfold setCount, updPool. cbn. rewrite lookup_insert_eq, insert_insert_eq. auto.
Qed.

Lemma park_eq fuel t (w : W) :
  park fuel t w =
  when (0 <? parkCountOf w t + 1) (setStatus fuel t ThreadStatus.PARKED None)
    (setCount (refOf w t) (parkCountOf w t + 1) w).
Proof.
  unfold park. rewrite bind_getRef.
  pose proof (initParkCount_setCount (refOf w t) (parkCountOf w t + 1) w) as Hi.
  destruct (initParkCount (refOf w t) w) as [[] w0|e w0|] eqn:Hinit; try contradiction.
  destruct Hi as (Hset & Hc & Href).
  rewrite (bind_Ok _ _ _ _ _ Hinit).
  unfold parkCount. rewrite bind_assoc, bind_pool, bind_ret.
  rewrite Hc. fold (parkCountOf w t).
  rewrite (bind_Ok _ _ _ _ _ (setParkCount_run _ _ _)).
  rewrite Hset. reflexivity.
Qed.

Lemma unpark_eq fuel t (w : W) :
  unpark fuel t w =
  when (parkCountOf w t - 1 <=? 0) (setStatus fuel t ThreadStatus.RUNNABLE None)
    (setCount (refOf w t) (parkCountOf w t - 1) w).
Proof.
  unfold unpark. rewrite bind_getRef.
  pose proof (initParkCount_setCount (refOf w t) (parkCountOf w t - 1) w) as Hi.
  destruct (initParkCount (refOf w t) w) as [[] w0|e w0|] eqn:Hinit; try contradiction.
  destruct Hi as (Hset & Hc & Href).
  rewrite (bind_Ok _ _ _ _ _ Hinit).
  unfold parkCount. rewrite bind_assoc, bind_pool, bind_ret.
  rewrite Hc. fold (parkCountOf w t).
  rewrite (bind_Ok _ _ _ _ _ (setParkCount_run _ _ _)).
  rewrite Hset. reflexivity.
Qed.

Lemma setCount_view r c (w : W) t :
  refOf w t = r →
  statusOf (setCount r c w) t = statusOf w t
  ∧ refOf (setCount r c w) t = r
  ∧ parkCountOf (setCount r c w) t = c
  ∧ threadObjs (setCount r c w) = threadObjs w.
Proof.
  intros Hr. unfold parkCountOf, statusOf, refOf, setCount in *. wsimpl.
  rewrite Hr, lookup_insert_eq. auto.
Qed.

Lemma threadView_of (t : ThreadAddr) (s : ThreadStatus.t) (w w0 : W) :
  threadView t s (refOf w0 t) (ThreadPool.parkCounts (tpool w0)) w →
  statusOf w t = s ∧ refOf w t = refOf w0 t ∧ parkCountOf w t = parkCountOf w0 t.
Proof.
  intros (Hs & Hr & Hp). unfold parkCountOf. rewrite Hr, Hp. auto.
Qed.

(** One call: it finishes; when it returns, the count moved by one and the
    status is PARKED, RUNNABLE or unchanged as the code decides. *)
Lemma parkCall_step n t c (w : W) :
  outcome (parkCall (3 + n) t c w)
    (fun w' =>
       refOf w' t = refOf w t
       ∧ match c with
         | Park =>
             parkCountOf w' t = parkCountOf w t + 1
             ∧ statusOf w' t = (if 0 <? parkCountOf w t + 1 then ThreadStatus.PARKED
                                else statusOf w t)
         | Unpark =>
             parkCountOf w' t = parkCountOf w t - 1
             ∧ statusOf w' t =
                 (if parkCountOf w t - 1 <=? 0
                  then (if ThreadStatus.eqb (statusOf w t) ThreadStatus.RUNNING
                        then ThreadStatus.RUNNING else ThreadStatus.RUNNABLE)
                  else statusOf w t)
         end)
    (fun _ => True).
Proof.
  destruct c; cbn [parkCall].
  - rewrite park_eq.
    destruct (setCount_view (refOf w t) (parkCountOf w t + 1) w t eq_refl)
      as (Hs & Hr & Hc & _).
    set (w1 := setCount _ _ w) in *.
    destruct (0 <? parkCountOf w t + 1); cbn [when].
    + destruct (ThreadStatus.eq_dec (statusOf w1 t) ThreadStatus.PARKED) as [Hp|Hp].
      * rewrite <- Hp at 1. cbn [Nat.add]. rewrite setStatus_same. cbn. auto.
      * eapply outcome_weaken; [apply setStatus_PARKED_view, Hp | | auto].
        intros w' Hv. cbn beta.
        destruct (threadView_of _ _ _ _ Hv) as (Hs' & Hr' & Hc').
        rewrite Hs', Hr', Hc', Hr, Hc. auto.
    + cbn. auto.
  - rewrite unpark_eq.
    destruct (setCount_view (refOf w t) (parkCountOf w t - 1) w t eq_refl)
      as (Hs & Hr & Hc & _).
    set (w1 := setCount _ _ w) in *.
    destruct (parkCountOf w t - 1 <=? 0); cbn [when].
    + destruct (ThreadStatus.eq_dec (statusOf w1 t) ThreadStatus.RUNNING) as [Hp|Hp].
      * cbn [Nat.add]. rewrite setStatus_ignored by exact Hp.
        cbn. rewrite <- Hs, Hp. auto.
      * eapply outcome_weaken; [apply setStatus_RUNNABLE_view, Hp | | auto].
        intros w' Hv. cbn beta.
        destruct (threadView_of _ _ _ _ Hv) as (Hs' & Hr' & Hc').
        rewrite Hs', Hr', Hc', Hr, Hc.
        rewrite <- Hs. destruct (statusOf w1 t); try congruence; auto.
    + cbn. auto.
Qed.

(** What relates status and count along a sequence that started in status
    [s0] with count 0. *)
Lemma parkCalls_no_OutOfFuel n t calls (w : W) :
  parkCalls (3 + n) t calls w ≠ OutOfFuel.
Proof.
  revert w. induction calls as [|c cs IH]; intros w; cbn [parkCalls]; [discriminate|].
  pose proof (parkCall_step n t c w) as Hstep. unfold bind.
  destruct (parkCall (3 + n) t c w) as [[] w1|e w1|]; cbn in Hstep;
    [apply IH | discriminate | contradiction].
Qed.

Lemma parkCalls_balance n t s0 calls : ∀ (w w' : W),
  (0 < parkCountOf w t → statusOf w t = ThreadStatus.PARKED) →
  (parkCountOf w t <= 0 → statusOf w t = ThreadStatus.RUNNABLE ∨ statusOf w t = s0) →
  parkCalls (3 + n) t calls w = Ok tt w' →
  parkCountOf w' t = parkCountOf w t + signedCount calls
  ∧ (0 < parkCountOf w' t → statusOf w' t = ThreadStatus.PARKED)
  ∧ (parkCountOf w' t <= 0 → statusOf w' t = ThreadStatus.RUNNABLE ∨ statusOf w' t = s0).
Proof.
  induction calls as [|c cs IH]; intros w w' Hpos Hneg Hrun; cbn [parkCalls signedCount] in *.
  - injection Hrun as <-. rewrite Z.add_0_r. auto.
  - pose proof (parkCall_step n t c w) as Hstep. unfold bind in Hrun.
    destruct (parkCall (3 + n) t c w) as [[] w1|e w1|]; cbn in Hstep; try discriminate.
    destruct Hstep as (Hr & Hstep).
    assert (Hc1 : parkCountOf w1 t = parkCountOf w t + signedCount [c]
                  ∧ (0 < parkCountOf w1 t → statusOf w1 t = ThreadStatus.PARKED)
                  ∧ (parkCountOf w1 t <= 0 →
                     statusOf w1 t = ThreadStatus.RUNNABLE ∨ statusOf w1 t = s0)).
    { destruct c; destruct Hstep as (Hc & Hs); rewrite Hc, Hs; cbn [signedCount].
      - destruct (Z.ltb_spec 0 (parkCountOf w t + 1)); repeat split; try lia; auto.
        intros. apply Hneg. lia.
      - destruct (Z.leb_spec (parkCountOf w t - 1) 0); repeat split; try lia.
        + intros _.
          destruct (ThreadStatus.eqb (statusOf w t) ThreadStatus.RUNNING) eqn:Heq; [|auto].
          destruct (Z.ltb_spec 0 (parkCountOf w t)) as [Hp|Hp].
          * rewrite (Hpos Hp) in Heq. discriminate.
          * destruct (Hneg Hp) as [Hx|Hx]; [rewrite Hx in Heq; discriminate|].
            right. destruct (statusOf w t); try discriminate. exact Hx.
        + intros. apply Hpos. lia. }
    destruct Hc1 as (Hc1 & Hpos1 & Hneg1).
    destruct (IH w1 w' Hpos1 Hneg1 Hrun) as (Hc' & Hpos' & Hneg').
    split; [|split; assumption].
    rewrite Hc', Hc1. cbn [signedCount]. destruct c; lia.
Qed.

(** From a count of 0: the sequence does not run out of fuel, and when every
    call returns the count is the signed count of the calls, and the status
    follows from it as far as the code lets it. *)
Lemma parkCalls_from_zero n (w : W) t (calls : list ParkCall) :
  parkCountOf w t = 0 →
  parkCalls (3 + n) t calls w ≠ OutOfFuel
  ∧ ∀ w', parkCalls (3 + n) t calls w = Ok tt w' →
      parkCountOf w' t = signedCount calls
      ∧ (0 < signedCount calls → statusOf w' t = ThreadStatus.PARKED)
      ∧ (signedCount calls <= 0 →
         statusOf w' t = ThreadStatus.RUNNABLE ∨ statusOf w' t = statusOf w t)
      ∧ (statusOf w t = ThreadStatus.RUNNABLE →
         statusOf w' t = if signedCount calls <=? 0
                         then ThreadStatus.RUNNABLE else ThreadStatus.PARKED).
Proof.
  intros H0. split; [apply parkCalls_no_OutOfFuel|].
  intros w' Hrun.
  destruct (parkCalls_balance n t (statusOf w t) calls w w') as (Hc & Hpos & Hneg); auto.
  - rewrite H0. lia.
  - rewrite H0 in Hc. rewrite Z.add_0_l in Hc. rewrite Hc in *.
    repeat split; auto.
    intros Hs. destruct (Z.leb_spec (signedCount calls) 0) as [Hle|Hgt].
    + destruct (Hneg Hle) as [Hx|Hx]; congruence.
    + apply Hpos, Hgt.
Qed.




(** C10. An [unpark] whose resulting count is at most 0 is the call
    [setStatus(RUNNABLE)] on the state with the count decremented, whatever
    the status of the thread: a thread that was never parked (NEW, WAITING,
    BLOCKED, ...) ends RUNNABLE as well; only a RUNNING thread stays RUNNING.
    A [park] whose resulting count is at most 0 returns in the state with the
    count incremented and nothing else changed: no thread object is touched. *)
Theorem unpark_sets_RUNNABLE_park_leaves_status :
  ∀ (n : nat) (w wp : W) (t : ThreadAddr),
    parkCountOf w t - 1 <= 0 →
    parkCountOf wp t + 1 <= 0 →
    (unpark (3 + n) t w
       = setStatus (3 + n) t ThreadStatus.RUNNABLE None
           (setCount (refOf w t) (parkCountOf w t - 1) w)
     ∧ outcome (unpark (3 + n) t w)
         (fun w' => statusOf w' t = if ThreadStatus.eqb (statusOf w t) ThreadStatus.RUNNING
                                    then ThreadStatus.RUNNING else ThreadStatus.RUNNABLE)
         (fun w' => statusOf w' t = ThreadStatus.RUNNABLE))
    ∧ (park (3 + n) t wp = Ok tt (setCount (refOf wp t) (parkCountOf wp t + 1) wp)
       ∧ threadObjs (setCount (refOf wp t) (parkCountOf wp t + 1) wp) = threadObjs wp).
Proof.
  intros n w wp t Hu Hp. split; split.
  - rewrite unpark_eq. destruct (Z.leb_spec (parkCountOf w t - 1) 0); [reflexivity | lia].
  - rewrite unpark_eq. destruct (Z.leb_spec (parkCountOf w t - 1) 0); [|lia]. cbn [when].
    destruct (setCount_view (refOf w t) (parkCountOf w t - 1) w t eq_refl) as (Hs & _).
    rewrite <- Hs.
    set (w1 := setCount _ _ w) in *.
    destruct (ThreadStatus.eq_dec (statusOf w1 t) ThreadStatus.RUNNING) as [Hr|Hr].
    + cbn [Nat.add]. rewrite setStatus_ignored by exact Hr.
      cbn. rewrite Hr. reflexivity.
    + eapply outcome_weaken; [apply setStatus_RUNNABLE_view, Hr | |].
      * intros w' (Hs' & _). rewrite Hs'. destruct (statusOf w1 t); try congruence; reflexivity.
      * intros w' (Hs' & _). exact Hs'.
  - rewrite park_eq. destruct (Z.ltb_spec 0 (parkCountOf wp t + 1)); [lia | reflexivity].
  - reflexivity.
Qed.


(** *** C4: [BytecodeStackFrame.scheduleResume] *)

Lemma invokeWidth_invoke (o : OpCode.t) :
  (∀ o1 o2, OpCode_value o1 = OpCode_value o2 → o1 = o2) →
  invokeWidth (OpCode_value o) = Some (specWidth o).
Proof.
  intros Hinj.
  assert (Hop : ∀ o', opIs (OpCode_value o) o' = bool_decide (o = o')).
  { intros o'. unfold opIs. destruct (Z.eqb_spec (OpCode_value o) (OpCode_value o')) as [Heq|Hne].
    - apply Hinj in Heq. subst. symmetry. apply bool_decide_eq_true. reflexivity.
    - symmetry. apply bool_decide_eq_false. intros ->. apply Hne. reflexivity. }
  unfold invokeWidth. rewrite !Hop. destruct o; reflexivity.
Qed.

Lemma invokeWidth_other (op : Z) :
  (∀ o, op ≠ OpCode_value o) → invokeWidth op = None.
Proof.
  intros Hne.
  assert (Hop : ∀ o', opIs op o' = false).
  { intros o'. unfold opIs. apply Z.eqb_neq, Hne. }
  unfold invokeWidth. rewrite !Hop. reflexivity.
Qed.

Lemma pushOperand_frame a v (w : W) b :
  frameObjs w a = Bytecode b →
  ∃ w', when (negb (bool_decide (v = undefined))) (pushOperand a v) w = Ok tt w'
        ∧ frameObjs w' a
          = Bytecode (BytecodeStackFrame.with_stack (BytecodeStackFrame.stack b ++ definedValue v) b)
        ∧ (∀ a', a' ≠ a → frameObjs w' a' = frameObjs w a')
        ∧ threadObjs w' = threadObjs w ∧ tpool w' = tpool w
        ∧ immediates w' = immediates w ∧ calls w' = calls w.
Proof.
  intros Hb. unfold definedValue. destruct (bool_decide (v = undefined)); cbn [negb when].
  - exists w. rewrite app_nil_r, Hb. destruct b; auto 10.
  - eexists. split; [reflexivity|]. cbn. rewrite Nat.eqb_refl, Hb. cbn.
    repeat split; auto. intros a' Hne. apply Nat.eqb_neq in Hne. rewrite Hne. reflexivity.
Qed.

(** C4. When [pc] of a bytecode frame points at an invoke opcode,
    [scheduleResume(rv, rv2)] returns with [pc] advanced by exactly 5 for
    invokeinterface and its fast variant and by exactly 3 for each of the
    other twelve invoke opcodes, then [rv] pushed if it is not undefined, then
    [rv2] pushed if it is not undefined; nothing else changes.  When [pc]
    points at any other opcode, a debug build throws the assertion error and
    changes nothing.  (The enum values of the opcodes are pairwise distinct.) *)
Theorem scheduleResume_advances_past_invoke :
  ∀ (w : W) (a : FrameAddr) (b : BytecodeStackFrame.t) (t : ThreadAddr) (rv rv2 : Value) (op : Z),
    frameObjs w a = Bytecode b →
    (∀ o1 o2, OpCode_value o1 = OpCode_value o2 → o1 = o2) →
    readUInt8 (Method.code (BytecodeStackFrame.method b)) (BytecodeStackFrame.pc b) = Some op →
    (∀ o, op = OpCode_value o →
       ∃ w', scheduleResume a t rv rv2 w = Ok tt w'
             ∧ frameObjs w' a = Bytecode (resumedFrame b (specWidth o) rv rv2)
             ∧ (∀ a', a' ≠ a → frameObjs w' a' = frameObjs w a')
             ∧ threadObjs w' = threadObjs w ∧ tpool w' = tpool w
             ∧ immediates w' = immediates w ∧ calls w' = calls w)
    ∧ ((∀ o, op ≠ OpCode_value o) → RELEASE = false →
       scheduleResume a t rv rv2 w
       = Throw (AssertionError "Resuming from a non-invoke opcode!") w).
Proof.
  intros w a b t rv rv2 op Hb Hinj Hread. split.
  - intros o ->.
    unfold scheduleResume, frame. rewrite bind_get, Hb.
    unfold BytecodeStackFrame_scheduleResume. rewrite Hread.
    rewrite (invokeWidth_invoke o Hinj).
    unfold updBytecode at 1. rewrite bind_modify.
    set (w1 := updFrame a _ w).
    assert (Hb1 : frameObjs w1 a
                  = Bytecode (BytecodeStackFrame.with_pc (BytecodeStackFrame.pc b + specWidth o) b)).
    { unfold w1. cbn. rewrite Nat.eqb_refl, Hb. reflexivity. }
    destruct (pushOperand_frame a rv w1 _ Hb1) as (w2 & Hr2 & Hb2 & Ho2 & Ht2 & Hp2 & Hi2 & Hc2).
    rewrite (bind_Ok _ _ _ _ _ Hr2).
    destruct (pushOperand_frame a rv2 w2 _ Hb2) as (w3 & Hr3 & Hb3 & Ho3 & Ht3 & Hp3 & Hi3 & Hc3).
    exists w3. split; [exact Hr3|]. split.
    { rewrite Hb3. unfold resumedFrame. cbn. rewrite <- app_assoc. reflexivity. }
    split.
    { intros a' Hne. rewrite Ho3, Ho2 by exact Hne. unfold w1. cbn.
      apply Nat.eqb_neq in Hne. rewrite Hne. reflexivity. }
    rewrite Ht3, Ht2, Hp3, Hp2, Hi3, Hi2, Hc3, Hc2. auto.
  - intros Hne Hdebug.
    unfold scheduleResume, frame. rewrite bind_get, Hb.
    unfold BytecodeStackFrame_scheduleResume. rewrite Hread.
    rewrite (invokeWidth_other op Hne).
    unfold assert. rewrite Hdebug. reflexivity.
Qed.

(** *** C5: [BytecodeStackFrame.scheduleException] *)

(** The loop returns the first entry, in table order, that matches or needs
    resolution. *)
Lemma scanHandlers_spec (w : W) l ecls pc (ehs : list ExceptionHandler.t) :
  match scanHandlers w l ecls pc ehs with
  | Caught eh =>
      ∃ pre post, ehs = pre ++ eh :: post
                  ∧ Forall (skipped w l ecls pc) pre
                  ∧ handlerMatches w l ecls pc eh = true
  | NeedsResolution =>
      ∃ pre eh post, ehs = pre ++ eh :: post
                     ∧ Forall (skipped w l ecls pc) pre
                     ∧ handlerUnresolved w l pc eh = true
  | NotCaught => Forall (skipped w l ecls pc) ehs
  end.
Proof.
  induction ehs as [|eh rest IH]; cbn [scanHandlers]; [constructor|].
  fold (inRange pc eh). fold (isAny eh).
  destruct (inRange pc eh) eqn:Hr.
  - destruct (isAny eh) eqn:Ha.
    + exists [], rest. repeat split; [constructor|].
      unfold handlerMatches. rewrite Hr, Ha. reflexivity.
    + destruct (ClassLoader_getResolvedClass l (ExceptionHandler.catchType eh) w) as [rc|] eqn:Hres.
      * destruct (ClassData_isCastable ecls rc) eqn:Hc.
        -- exists [], rest. repeat split; [constructor|].
           unfold handlerMatches. rewrite Hr, Ha, Hres, Hc. reflexivity.
        -- assert (Hs : skipped w l ecls pc eh).
           { unfold skipped, handlerMatches, handlerUnresolved.
             rewrite Hr, Ha, Hres, Hc. split; reflexivity. }
           destruct (scanHandlers w l ecls pc rest).
           ++ destruct IH as (pre & post & -> & Hpre & Hm).
              exists (eh :: pre), post. repeat split; [constructor; assumption | assumption].
           ++ destruct IH as (pre & eh' & post & -> & Hpre & Hm).
              exists (eh :: pre), eh', post. repeat split; [constructor; assumption | assumption].
           ++ constructor; assumption.
      * exists [], eh, rest. repeat split; [constructor|].
        unfold handlerUnresolved. rewrite Hr, Ha, Hres. reflexivity.
  - assert (Hs : skipped w l ecls pc eh).
    { unfold skipped, handlerMatches, handlerUnresolved. rewrite Hr. split; reflexivity. }
    destruct (scanHandlers w l ecls pc rest).
    + destruct IH as (pre & post & -> & Hpre & Hm).
      exists (eh :: pre), post. repeat split; [constructor; assumption | assumption].
    + destruct IH as (pre & eh' & post & -> & Hpre & Hm).
      exists (eh :: pre), eh', post. repeat split; [constructor; assumption | assumption].
    + constructor; assumption.
Qed.

(** The loop steps over the entries that neither match nor need
    resolution, and stops at the first entry that matches or needs
    resolution. *)
Lemma scanHandlers_skipped (w : W) l ecls pc (pre rest : list ExceptionHandler.t) :
  Forall (skipped w l ecls pc) pre →
  scanHandlers w l ecls pc (pre ++ rest) = scanHandlers w l ecls pc rest.
Proof.
  induction 1 as [|eh pre [Hm Hu] _ IH]; [reflexivity|].
  cbn [app scanHandlers]. fold (inRange pc eh). fold (isAny eh).
  unfold handlerMatches in Hm. unfold handlerUnresolved in Hu.
  destruct (inRange pc eh); [|exact IH].
  destruct (isAny eh); [discriminate Hm|].
  destruct (ClassLoader_getResolvedClass l (ExceptionHandler.catchType eh) w) as [rc|].
  - cbn in Hm. rewrite Hm. exact IH.
  - rewrite bool_decide_eq_true_2 in Hu by reflexivity. discriminate Hu.
Qed.

Lemma scanHandlers_matches (w : W) l ecls pc eh (post : list ExceptionHandler.t) :
  handlerMatches w l ecls pc eh = true →
  scanHandlers w l ecls pc (eh :: post) = Caught eh.
Proof.
  unfold handlerMatches. intros Hm. cbn [scanHandlers].
  fold (inRange pc eh). fold (isAny eh).
  destruct (inRange pc eh); [|discriminate Hm].
  destruct (isAny eh); [reflexivity|].
  destruct (ClassLoader_getResolvedClass l (ExceptionHandler.catchType eh) w) as [rc|];
    [|discriminate Hm].
  cbn in Hm. rewrite Hm. reflexivity.
Qed.

Lemma scanHandlers_unresolved (w : W) l ecls pc eh (post : list ExceptionHandler.t) :
  handlerUnresolved w l pc eh = true →
  scanHandlers w l ecls pc (eh :: post) = NeedsResolution.
Proof.
  unfold handlerUnresolved. intros Hu. cbn [scanHandlers].
  fold (inRange pc eh). fold (isAny eh).
  destruct (inRange pc eh); [|discriminate Hu].
  destruct (isAny eh); [discriminate Hu|].
  destruct (ClassLoader_getResolvedClass l (ExceptionHandler.catchType eh) w) as [rc|];
    [|reflexivity].
  rewrite bool_decide_eq_false_2 in Hu by discriminate. discriminate Hu.
Qed.

Lemma handlerMatches_iff (w : W) l ecls pc eh :
  handlerMatches w l ecls pc eh = true
  ↔ ExceptionHandler.startPC eh <= pc < ExceptionHandler.endPC eh
    ∧ (ExceptionHandler.catchType eh = "<any>"
       ∨ ∃ resolved,
           ClassLoader_getResolvedClass l (ExceptionHandler.catchType eh) w = Some resolved
           ∧ ClassData_isCastable ecls resolved = true).
Proof.
  unfold handlerMatches, inRange, isAny.
  rewrite !andb_true_iff, orb_true_iff, Z.leb_le, Z.ltb_lt, String.eqb_eq.
  destruct (ClassLoader_getResolvedClass l (ExceptionHandler.catchType eh) w) as [rc|].
  - split.
    + intros (Hr & [Ha|Hc]); (split; [exact Hr|]); [left; exact Ha | right; exists rc; auto].
    + intros (Hr & [Ha|(rc' & Heq & Hc)]); (split; [exact Hr|]); [left; exact Ha|].
      right. injection Heq as ->. exact Hc.
  - split.
    + intros (Hr & [Ha|Hc]); [|discriminate Hc]. split; [exact Hr | left; exact Ha].
    + intros (Hr & [Ha|(rc' & Heq & _)]); [|discriminate Heq]. split; [exact Hr | left; exact Ha].
Qed.

Lemma handlerUnresolved_iff (w : W) l pc eh :
  handlerUnresolved w l pc eh = true
  ↔ ExceptionHandler.startPC eh <= pc < ExceptionHandler.endPC eh
    ∧ ExceptionHandler.catchType eh ≠ "<any>"
    ∧ ClassLoader_getResolvedClass l (ExceptionHandler.catchType eh) w = None.
Proof.
  unfold handlerUnresolved, inRange, isAny.
  rewrite !andb_true_iff, negb_true_iff, Z.leb_le, Z.ltb_lt, String.eqb_neq,
    bool_decide_eq_true.
  tauto.
Qed.

(** C5. [scheduleException] on a bytecode frame, for every table of
    handlers.  An entry matches when [start_pc <= pc < end_pc] and its catch
    type is the any marker or a resolved class that the class of the exception
    is castable to; it needs resolution when it covers [pc] and its catch
    type is a class the loader has not resolved.  The entries are scanned in
    table order up to the first one that matches or needs resolution, so
    exactly one of three cases holds.  If the first such entry matches, it is
    the handler: the call returns true, the operand stack of the frame is
    exactly [exception], its [pc] is the [handler_pc] of that entry, and
    nothing else changes.  If no entry matches and none needs resolution, the
    call exits the monitor of the method exactly when the method is
    synchronized (that one call of another module and no other) and returns
    false; if the method is not synchronized the state is unchanged.  If the
    first such entry needs resolution, no handler is selected: the call sets
    the thread ASYNC_WAITING, asks the loader to resolve the catch types and
    returns true. *)
Theorem scheduleException_bytecode :
  ∀ (fuel : nat) (w : W) (a : FrameAddr) (b : BytecodeStackFrame.t) (t : ThreadAddr) (e : Throwable),
    frameObjs w a = Bytecode b →
    let method := BytecodeStackFrame.method b in
    let l := Method.loader method in
    let ecls := Throwable_getClass e in
    let pc := BytecodeStackFrame.pc b in
    let ehs := Method.exceptionHandlers method in
    let matches := fun eh => handlerMatches w l ecls pc eh = true in
    let unresolved := fun eh => handlerUnresolved w l pc eh = true in
    let passed := Forall (fun eh => ¬ matches eh ∧ ¬ unresolved eh) in
    let caught := fun eh => updFrame a (onBytecode (fun b => caughtFrame b eh e)) w in
    (∀ eh, matches eh
           ↔ ExceptionHandler.startPC eh <= pc < ExceptionHandler.endPC eh
             ∧ (ExceptionHandler.catchType eh = "<any>"
                ∨ ∃ resolved,
                    ClassLoader_getResolvedClass l (ExceptionHandler.catchType eh) w
                    = Some resolved
                    ∧ ClassData_isCastable ecls resolved = true))
    ∧ (∀ eh, unresolved eh
             ↔ ExceptionHandler.startPC eh <= pc < ExceptionHandler.endPC eh
               ∧ ExceptionHandler.catchType eh ≠ "<any>"
               ∧ ClassLoader_getResolvedClass l (ExceptionHandler.catchType eh) w = None)
    ∧ ((∃ pre eh post, ehs = pre ++ eh :: post ∧ passed pre ∧ matches eh)
       ∨ (∃ pre eh post, ehs = pre ++ eh :: post ∧ passed pre ∧ unresolved eh)
       ∨ passed ehs)
    ∧ (∀ pre eh post, ehs = pre ++ eh :: post → passed pre → matches eh →
         scheduleException (setStatus fuel) a t e w = Ok true (caught eh)
         ∧ frameObjs (caught eh) a = Bytecode (caughtFrame b eh e)
         ∧ (∀ a', a' ≠ a → frameObjs (caught eh) a' = frameObjs w a')
         ∧ threadObjs (caught eh) = threadObjs w
         ∧ calls (caught eh) = calls w
         ∧ BytecodeStackFrame.stack (caughtFrame b eh e) = [obj e]
         ∧ BytecodeStackFrame.pc (caughtFrame b eh e) = ExceptionHandler.handlerPC eh)
    ∧ (passed ehs →
         scheduleException (setStatus fuel) a t e w
         = if Method.isSynchronized method then
             let mon := Method_methodLock method t a w in
             match Monitor_exit mon t w with
             | ExtOk _ w' => Ok false (logged (EvMonitorExit mon t) w w')
             | ExtThrow err w' => Throw err (logged (EvMonitorExit mon t) w w')
             end
           else Ok false w)
    ∧ (∀ pre eh post, ehs = pre ++ eh :: post → passed pre → unresolved eh →
         scheduleException (setStatus fuel) a t e w
         = (setStatus fuel t ThreadStatus.ASYNC_WAITING None ;;;
            extern (EvResolveClasses l t (handlerClasses ehs))
              (ClassLoader_resolveClasses l t (handlerClasses ehs) (CbRethrow t e)) ;;;
            ret true) w).
Proof.
  intros fuel w a b t e Hb method l ecls pc ehs matches unresolved passed caught.
  assert (Hpassed : ∀ hs, passed hs ↔ Forall (skipped w l ecls pc) hs).
  { intros hs. unfold passed, skipped, matches, unresolved.
    apply Forall_iff. intros eh.
    destruct (handlerMatches w l ecls pc eh), (handlerUnresolved w l pc eh);
      split; intros [H1 H2]; split; congruence. }
  assert (Hrun : scheduleException (setStatus fuel) a t e w
                 = match scanHandlers w l ecls pc ehs with
                   | NeedsResolution =>
                       (setStatus fuel t ThreadStatus.ASYNC_WAITING None ;;;
                        extern (EvResolveClasses l t (handlerClasses ehs))
                          (ClassLoader_resolveClasses l t (handlerClasses ehs) (CbRethrow t e)) ;;;
                        ret true) w
                   | Caught eh => Ok true (caught eh)
                   | NotCaught =>
                       (when (Method.isSynchronized method)
                          (let* mon := get (Method_methodLock method t a) in
                           extern (EvMonitorExit mon t) (Monitor_exit mon t)) ;;;
                        ret false) w
                   end).
  { unfold scheduleException, frame. rewrite bind_get, Hb.
    unfold BytecodeStackFrame_scheduleException.
    fold method. fold l. fold ecls. fold pc. fold ehs.
    rewrite bind_get. destruct (scanHandlers w l ecls pc ehs); reflexivity. }
  split_and!.
  - intros eh. apply handlerMatches_iff.
  - intros eh. apply handlerUnresolved_iff.
  - pose proof (scanHandlers_spec w l ecls pc ehs) as Hspec.
    destruct (scanHandlers w l ecls pc ehs) as [eh| |].
    + destruct Hspec as (pre & post & Heq & Hpre & Hm).
      left. exists pre, eh, post. split_and!; [exact Heq | apply Hpassed, Hpre | exact Hm].
    + destruct Hspec as (pre & eh & post & Heq & Hpre & Hu).
      right. left. exists pre, eh, post.
      split_and!; [exact Heq | apply Hpassed, Hpre | exact Hu].
    + right. right. apply Hpassed, Hspec.
  - intros pre eh post Heq Hpre Hm.
    assert (Hscan : scanHandlers w l ecls pc ehs = Caught eh).
    { rewrite Heq, scanHandlers_skipped by (apply Hpassed, Hpre).
      apply scanHandlers_matches, Hm. }
    rewrite Hrun, Hscan. unfold caught.
    split_and!; try reflexivity.
    + cbn. rewrite Nat.eqb_refl, Hb. reflexivity.
    + intros a' Hne. cbn. apply Nat.eqb_neq in Hne. rewrite Hne. reflexivity.
  - intros Hall.
    assert (Hscan : scanHandlers w l ecls pc ehs = NotCaught).
    { rewrite <- (app_nil_r ehs), scanHandlers_skipped by (apply Hpassed, Hall).
      reflexivity. }
    rewrite Hrun, Hscan.
    destruct (Method.isSynchronized method); cbn [when]; [|reflexivity].
    rewrite bind_assoc, bind_get. unfold bind, extern.
    destruct (Monitor_exit (Method_methodLock method t a w) t w); reflexivity.
  - intros pre eh post Heq Hpre Hu.
    assert (Hscan : scanHandlers w l ecls pc ehs = NeedsResolution).
    { rewrite Heq, scanHandlers_skipped by (apply Hpassed, Hpre).
      apply scanHandlers_unresolved, Hu. }
    rewrite Hrun, Hscan. reflexivity.
Qed.

(** *** Calls that finish *)

Lemma hoare_weaken {A} (P P' Q Q' Qt Qt' : W → Prop) (m : M A) :
  hoare P m Q Qt → (∀ w, P' w → P w) → (∀ w, Q w → Q' w) → (∀ w, Qt w → Qt' w) →
  hoare P' m Q' Qt'.
Proof.
  intros Hm HP HQ HQt w H. specialize (Hm w (HP w H)). destruct (m w); cbn in *; auto.
Qed.

Lemma hoare_bind {A B} (P Q1 Q Qt : W → Prop) (m : M A) (k : A → M B) :
  hoare P m Q1 Qt → (∀ a, hoare Q1 (k a) Q Qt) → hoare P (bind m k) Q Qt.
Proof.
  intros Hm Hk w H. specialize (Hm w H). unfold bind.
  destruct (m w) as [a w'|e w'|]; cbn in *; auto.
  apply Hk. exact Hm.
Qed.

Lemma hoare_ret {A} (P Q Qt : W → Prop) (a : A) : (∀ w, P w → Q w) → hoare P (ret a) Q Qt.
Proof. intros HQ w H. apply HQ, H. Qed.

Lemma hoare_throw {A} (P Q Qt : W → Prop) (e : JSError) :
  (∀ w, P w → Qt w) → hoare P (throw (A:=A) e) Q Qt.
Proof. intros HQ w H. apply HQ, H. Qed.

Lemma hoare_get {A} (P Q Qt : W → Prop) (f : W → A) : (∀ w, P w → Q w) → hoare P (get f) Q Qt.
Proof. intros HQ w H. apply HQ, H. Qed.

Lemma hoare_modify (P Q Qt : W → Prop) (f : W → W) :
  (∀ w, P w → Q (f w)) → hoare P (modify f) Q Qt.
Proof. intros HQ w H. apply HQ, H. Qed.

Lemma hoare_assert (P Q Qt : W → Prop) (b : bool) (msg : string) :
  (∀ w, P w → Q w) → (∀ w, P w → Qt w) → hoare P (assert b msg) Q Qt.
Proof.
  intros HQ HQt. unfold assert. destruct RELEASE; [apply hoare_ret, HQ|].
  destruct b; [apply hoare_ret, HQ | apply hoare_throw, HQt].
Qed.

Lemma hoare_when (P Q Qt : W → Prop) (c : bool) (m : M unit) :
  hoare P m Q Qt → (∀ w, P w → Q w) → hoare P (when c m) Q Qt.
Proof. intros Hm HQ. destruct c; [exact Hm | apply hoare_ret, HQ]. Qed.

Lemma hoare_extern {A} (P Q Qt : W → Prop) (ev : Event) (f : ExtM X A) :
  (∀ w a w', P w → f w = ExtOk a w' → Q (logged ev w w')) →
  (∀ w e w', P w → f w = ExtThrow e w' → Qt (logged ev w w')) →
  hoare P (extern ev f) Q Qt.
Proof.
  intros HQ HQt w H. unfold extern. destruct (f w) eqn:Hf; cbn; eauto.
Qed.

Lemma hoare_bind_getStatus {B} (P Q Qt : W → Prop) t (k : ThreadStatus.t → M B) s :
  (∀ w, P w → statusOf w t = s) → hoare P (k s) Q Qt → hoare P (bind (getStatus t) k) Q Qt.
Proof.
  intros Hf Hk w H. rewrite bind_getStatus, (Hf w H). apply Hk, H.
Qed.

(** Steps of a proof that a call keeps [P] from start to end, whatever is
    known of the states it throws in: [side] closes the conditions on the
    writes, [thr] those on the throws, [known] applies a lemma on a call. *)
Ltac inv_with side thr known :=
  repeat first
    [ assumption
    | known
    | apply hoare_ret; solve [auto]
    | apply hoare_get; solve [auto]
    | apply hoare_throw; solve [thr]
    | apply hoare_assert; [ solve [auto] | solve [thr] ]
    | apply hoare_when; [ | solve [auto] ]
    | match goal with
      | |- hoare ?P (bind _ _) _ _ => apply hoare_bind with (Q1 := P); [ | intros ? ]
      end
    | apply hoare_modify; solve [side]
    | apply hoare_extern; [ solve [side] | solve [thr] ]
    | match goal with
      | |- hoare _ (match ?x with _ => _ end) _ _ => destruct x
      | |- hoare _ (if ?c then _ else _) _ _ => destruct c
      | |- hoare _ (let (_, _) := ?x in _) _ _ => destruct x
      end ].

(** *** Properties that scheduling writes do not touch *)

Section Scheduling.
Variable Inv : W → Prop.
Hypothesis Inv_pool : ∀ w f, Inv w → Inv (updPool f w).
Hypothesis Inv_immediates : ∀ w q, Inv w → Inv (with_immediates q w).
Hypothesis Inv_monitor : ∀ w t m, Inv w → Inv (updThread t (JVMThread.with_monitor m) w).

Ltac sched_side :=
  intros; first [ assumption | apply Inv_pool; assumption
                | apply Inv_immediates; assumption | apply Inv_monitor; assumption ].

Lemma sched_threadRunnable Qt t : hoare Inv (threadRunnable t) Inv Qt.
Proof. unfold_prims. inv_with sched_side fail fail. Qed.

Lemma sched_threadSuspended Qt t : hoare Inv (threadSuspended t) Inv Qt.
Proof. unfold_prims. inv_with sched_side fail fail. Qed.

Lemma sched_resurrectThread Qt t : hoare Inv (resurrectThread t) Inv Qt.
Proof. unfold_prims. inv_with sched_side fail fail. Qed.

End Scheduling.

(** A transition to NEW, RUNNABLE, ASYNC_WAITING or PARKED of a thread that
    is not PARKED: the call returns once the status is written, having kept
    what scheduling writes do not touch, or the assertion on the transition
    throws before anything is written. *)
Lemma setStatus_scheduling (Inv : W → Prop) n (w : W) t s m :
  (∀ w f, Inv w → Inv (updPool f w)) →
  (∀ w q, Inv w → Inv (with_immediates q w)) →
  (∀ w t m, Inv w → Inv (updThread t (JVMThread.with_monitor m) w)) →
  s = ThreadStatus.NEW ∨ s = ThreadStatus.RUNNABLE
  ∨ s = ThreadStatus.ASYNC_WAITING ∨ s = ThreadStatus.PARKED →
  statusOf w t ≠ ThreadStatus.PARKED →
  statusOf w t ≠ s →
  ¬ (statusOf w t = ThreadStatus.RUNNING ∧ s = ThreadStatus.RUNNABLE) →
  Inv (updThread t (withRawStatus s) w) →
  outcome (setStatus (S n) t s m w)
    (fun w' => Inv w' ∧ statusOf w' t = s)
    (fun w' => w' = w ∧ RELEASE = false ∧ validateThreadTransition (statusOf w t) s = false).
Proof.
  intros Inv_pool Inv_immediates Inv_monitor Hs Hnp Hne Hni HI.
  rewrite setStatus_S. unfold setStatus_body at 1. rewrite bind_thread.
  fold (statusOf w t).
  assert (Hguard : negb (ThreadStatus.eqb (statusOf w t) s)
     && negb (ThreadStatus.eqb (statusOf w t) ThreadStatus.RUNNING
              && ThreadStatus.eqb s ThreadStatus.RUNNABLE) = true).
  { destruct (statusOf w t), s; try reflexivity; try congruence; exfalso; apply Hni; auto. }
  rewrite Hguard.
  assert (Hterm : ThreadStatus.eqb s ThreadStatus.TERMINATED = false).
  { destruct Hs as [->|[->|[->| ->]]]; reflexivity. }
  rewrite Hterm, andb_false_r.
  unfold assert at 1.
  destruct RELEASE eqn:Hrel; [|destruct (validateThreadTransition (statusOf w t) s) eqn:Hv].
  3:{ cbn. auto. }
  all: rewrite bind_ret;
    unfold rawSetStatus at 1, setThread at 1; rewrite bind_modify;
    unfold setThread at 1; rewrite bind_modify.
  all: set (w1 := updThread t _ (updThread t _ w)).
  all: assert (Hv1 : Inv w1 ∧ statusOf w1 t = s)
         by (split; [apply Inv_monitor, HI | unfold w1, statusOf; wsimpl; reflexivity]).
  all: revert Hv1; generalize w1; clear w1.
  all: match goal with |- ∀ w1, _ → outcome (?m w1) ?Q ?Qt =>
         change (hoare Q m Q Qt) end.
  all: assert (HInv' : ∀ Qt t', hoare (fun w' => Inv w' ∧ statusOf w' t = s)
                         (threadSuspended t') (fun w' => Inv w' ∧ statusOf w' t = s) Qt)
    by (intros; apply sched_threadSuspended; intros ? ? [? ?]; split;
        first [apply Inv_pool | apply Inv_immediates | apply Inv_monitor | idtac]; auto).
  all: assert (HInv'' : ∀ Qt t', hoare (fun w' => Inv w' ∧ statusOf w' t = s)
                         (threadRunnable t') (fun w' => Inv w' ∧ statusOf w' t = s) Qt)
    by (intros; apply sched_threadRunnable; intros ? ? [? ?]; split;
        first [apply Inv_pool | apply Inv_immediates | apply Inv_monitor | idtac]; auto).
  all: assert (HInv3 : ∀ Qt t', hoare (fun w' => Inv w' ∧ statusOf w' t = s)
                         (resurrectThread t') (fun w' => Inv w' ∧ statusOf w' t = s) Qt)
    by (intros; apply sched_resurrectThread; intros ? ? [? ?]; split;
        first [apply Inv_pool | apply Inv_immediates | apply Inv_monitor | idtac]; auto).
  all: apply hoare_bind with (Q1 := fun w' => Inv w' ∧ statusOf w' t = s);
    [ unfold preTransition;
      destruct (statusOf w t); first [congruence | apply hoare_ret; auto | apply HInv3]
    | intros _ ].
  all: unfold postTransition;
    apply hoare_bind_getStatus with (s := s); [intros ? [_ ?]; assumption|].
  all: destruct Hs as [->|[->|[->| ->]]]; first [apply HInv' | apply HInv''].
Qed.

(** *** Enough fuel: every transition except the one to RUNNING finishes *)

Lemma hoare_false {A} (P Q Qt : W → Prop) (m : M A) :
  (∀ w, P w → False) → hoare P m Q Qt.
Proof. intros HP w H. destruct (HP w H). Qed.

Lemma hoare_bind_status {B} (P Q Qt : W → Prop) t (k : ThreadStatus.t → M B) :
  (∀ s, hoare (fun w => P w ∧ statusOf w t = s) (k s) Q Qt) →
  hoare P (bind (getStatus t) k) Q Qt.
Proof.
  intros Hk w H. rewrite bind_getStatus. apply (Hk (statusOf w t)). auto.
Qed.

Ltac triv_side := intros; exact I.
Ltac fin := inv_with triv_side triv_side fail.

Lemma setStatus_RUNNABLE_shallow n t m :
  hoare (fun w => statusOf w t ≠ ThreadStatus.RUNNING ∧ statusOf w t ≠ ThreadStatus.PARKED)
    (setStatus (S n) t ThreadStatus.RUNNABLE m)
    (fun w => statusOf w t = ThreadStatus.RUNNABLE) (fun _ => True).
Proof.
  intros w (Hr & Hp).
  destruct (ThreadStatus.eq_dec (statusOf w t) ThreadStatus.RUNNABLE) as [Heq|Hne].
  - rewrite <- Heq at 1. rewrite setStatus_same. exact Heq.
  - eapply outcome_weaken.
    + apply (setStatus_scheduling (fun _ => True)); auto. tauto.
    + intros w' [_ H]. exact H.
    + auto.
Qed.

Lemma status_updThread (w : W) t' f t :
  (∀ th, JVMThread.status (f th) = JVMThread.status th) →
  statusOf (updThread t' f w) t = statusOf w t.
Proof.
  intros Hf. unfold statusOf, updThread. cbn.
  destruct (Nat.eqb_spec t t') as [->|]; [apply Hf | reflexivity].
Qed.

Ltac status_side :=
  intros ? ?; rewrite ?status_updThread by (intros; reflexivity); assumption.

Lemma asyncReturn_finishes n t rv rv2 :
  hoare (fun w => statusOf w t ≠ ThreadStatus.RUNNING ∧ statusOf w t ≠ ThreadStatus.PARKED)
    (asyncReturn (S (S n)) t rv rv2)
    (fun w => statusOf w t = ThreadStatus.RUNNABLE) (fun _ => True).
Proof.
  rewrite asyncReturn_S. unfold asyncReturn_body, scheduleResume,
    BytecodeStackFrame_scheduleResume, InternalStackFrame_scheduleResume.
  unfold_prims.
  inv_with status_side triv_side ltac:(apply setStatus_RUNNABLE_shallow).
Qed.

Lemma exit_finishes t : hoare (fun _ : W => True) (exit t) (fun _ => True) (fun _ => True).
Proof.
  unfold exit, exit_phase2. unfold_prims. fin.
Qed.

Lemma postTransition_finishes k t m :
  hoare (fun w : W => statusOf w t ≠ ThreadStatus.RUNNING) (postTransition (run k) t m)
    (fun _ => True) (fun _ => True).
Proof.
  unfold postTransition. apply hoare_bind_status. intros cur.
  destruct cur; try (apply hoare_false; intros ? [? ?]; congruence);
    apply hoare_weaken with (P := fun _ => True) (Q := fun _ => True) (Qt := fun _ => True);
    auto; first [ apply exit_finishes | unfold_prims; fin ].
Qed.

Lemma preTransition_finishes n t s old :
  s ≠ ThreadStatus.RUNNING → old ≠ s →
  hoare (fun w : W => statusOf w t = s) (preTransition (asyncReturn (S (S n))) t old)
    (fun w => statusOf w t ≠ ThreadStatus.RUNNING) (fun _ => True).
Proof.
  intros Hs Hold. unfold preTransition.
  destruct old; try (apply hoare_ret; intros ? ->; exact Hs).
  - apply (hoare_weaken _ _ _ _ _ _ _ (asyncReturn_finishes n t undefined undefined));
      [ intros ? ->; split; congruence | intros ? ->; discriminate | auto ].
  - apply hoare_weaken with (P := fun w => statusOf w t ≠ ThreadStatus.RUNNING)
      (Q := fun w => statusOf w t ≠ ThreadStatus.RUNNING) (Qt := fun _ => True); auto.
    + unfold_prims. inv_with status_side triv_side fail.
    + intros ? ->. exact Hs.
Qed.

Lemma setStatus_finishes n t s m (w : W) :
  s ≠ ThreadStatus.RUNNING →
  setStatus (S (S (S n))) t s m w ≠ OutOfFuel.
Proof.
  intros Hs.
  enough (Hh : outcome (setStatus (S (S (S n))) t s m w) (fun _ => True) (fun _ => True)).
  { destruct (setStatus (S (S (S n))) t s m w); [discriminate | discriminate | contradiction]. }
  rewrite setStatus_S. unfold setStatus_body at 1. rewrite bind_thread.
  destruct (negb _ && negb _) eqn:Hguard; [|exact I].
  destruct (JVMThread.immortal (threadObjs w t) && ThreadStatus.eqb s ThreadStatus.TERMINATED);
    [exact I|].
  assert (Hold : JVMThread.status (threadObjs w t) ≠ s)
    by (intros Heq; rewrite Heq in Hguard; destruct s; discriminate).
  assert (Hrest : hoare (fun w1 : W => statusOf w1 t = s)
            (preTransition (asyncReturn (S (S n))) t (JVMThread.status (threadObjs w t));;;
             postTransition (run (S (S n))) t m) (fun _ => True) (fun _ => True)).
  { eapply hoare_bind; [apply preTransition_finishes; assumption|].
    intros _. apply postTransition_finishes. }
  unfold assert at 1.
  destruct RELEASE; [|destruct (validateThreadTransition _ s)]; [| |exact I].
  all: rewrite bind_ret;
    unfold rawSetStatus at 1, setThread at 1; rewrite bind_modify;
    unfold setThread at 1; rewrite bind_modify.
  all: apply Hrest; unfold statusOf; wsimpl; reflexivity.
Qed.

(** *** C7: the scan of [scheduleNextThread] *)

Lemma pickFrom_spec (w : W) (threads : list ThreadAddr) (rIdx : Z) (n : nat) : ∀ (i : Z),
  -1 <= rIdx → 0 <= i → i + Z.of_nat n <= Z.of_nat (length threads) →
  match pickFrom w threads rIdx i n with
  | Picked iFixed t =>
      ∃ pre post,
        (fun j => (rIdx + 1 + j) mod Z.of_nat (length threads)) <$> seqZ i (Z.of_nat n)
        = pre ++ iFixed :: post
        ∧ Forall (fun j => runnableAt w threads j = false) pre
        ∧ lookupZ threads iFixed = Some t
        ∧ statusOf w t = ThreadStatus.RUNNABLE
  | NoThread =>
      Forall (fun j => runnableAt w threads j = false)
        ((fun j => (rIdx + 1 + j) mod Z.of_nat (length threads)) <$> seqZ i (Z.of_nat n))
  | PickTypeError => False
  end.
Proof.
  induction n as [|n IH]; intros i Hr Hi Hlen; cbn [pickFrom].
  - constructor.
  - assert (Hpos : 0 < Z.of_nat (length threads)) by lia.
    rewrite Z.rem_mod_nonneg by lia.
    set (iFixed := (rIdx + 1 + i) mod Z.of_nat (length threads)).
    assert (Hrange : 0 <= iFixed < Z.of_nat (length threads)) by (apply Z.mod_pos_bound; lia).
    replace (Z.of_nat (S n)) with (Z.succ (Z.of_nat n)) by lia.
    rewrite seqZ_cons by lia. rewrite Z.pred_succ. cbn [fmap list_fmap]. fold iFixed.
    unfold lookupZ at 1. destruct (Z.ltb_spec iFixed 0); [lia|].
    destruct (threads !! Z.to_nat iFixed) as [t|] eqn:Hlook.
    2:{ apply lookup_ge_None in Hlook. lia. }
    assert (HlookZ : lookupZ threads iFixed = Some t).
    { unfold lookupZ. destruct (Z.ltb_spec iFixed 0); [lia|]. exact Hlook. }
    fold (statusOf w t).
    destruct (ThreadStatus.eqb (statusOf w t) ThreadStatus.RUNNABLE) eqn:Heq.
    + exists [], ((fun j => (rIdx + 1 + j) mod Z.of_nat (length threads))
                   <$> seqZ (Z.succ i) (Z.of_nat n)).
      repeat split; [constructor | exact HlookZ |].
      destruct (statusOf w t); try discriminate. reflexivity.
    + assert (Hskip : runnableAt w threads iFixed = false).
      { unfold runnableAt. rewrite HlookZ. exact Heq. }
      specialize (IH (i + 1) Hr ltac:(lia) ltac:(lia)).
      replace (Z.succ i) with (i + 1) by lia.
      destruct (pickFrom w threads rIdx (i + 1) n) as [j t'| |].
      * destruct IH as (pre & post & Heq' & Hpre & Hl & Hs).
        exists (iFixed :: pre), post. rewrite Heq'. repeat split; auto.
      * constructor; assumption.
      * contradiction.
Qed.

Lemma setStatus_RUNNABLE_RUNNING n (w : W) t :
  statusOf w t = ThreadStatus.RUNNABLE →
  setStatus (S n) t ThreadStatus.RUNNING None w
  = run n t (updThread t (JVMThread.with_monitor None)
               (updThread t (withRawStatus ThreadStatus.RUNNING) w)).
Proof.
  intros Hs. rewrite setStatus_S. unfold setStatus_body. rewrite bind_thread.
  fold (statusOf w t). rewrite Hs. cbn [ThreadStatus.eqb negb andb].
  rewrite andb_false_r.
  assert (Ha : assert (validateThreadTransition ThreadStatus.RUNNABLE ThreadStatus.RUNNING)
                 "Invalid thread transition" w = Ok tt w).
  { unfold assert. destruct RELEASE; reflexivity. }
  rewrite (bind_Ok _ _ _ _ _ Ha).
  unfold rawSetStatus, setThread. rewrite !bind_modify.
  unfold preTransition. rewrite bind_ret.
  unfold postTransition. rewrite bind_getStatus.
  unfold statusOf. wsimpl. reflexivity.
Qed.

(** C7. With no running thread and a running index of at least -1, the
    function deferred by [scheduleNextThread] looks at the threads in the order
    [(running_index + 1 + i) mod len], [i = 0 .. len - 1], that is, starting
    at index [(running_index + 1) mod len].  If some thread is RUNNABLE it
    takes the first one in that order, records it as the running thread with
    its index as the running index, and moves it to RUNNING, which runs it.  If
    no thread of the list is RUNNABLE, the call returns and the state is the
    one before the call. *)
Theorem scheduleNextThread_round_robin :
  ∀ (n : nat) (w : W),
    ThreadPool.runningThread (tpool w) = None →
    -1 <= ThreadPool.runningThreadIndex (tpool w) →
    let threads := ThreadPool.threads (tpool w) in
    let order := scanOrder (ThreadPool.runningThreadIndex (tpool w)) (length threads) in
    (∃ pre i post t,
        order = pre ++ i :: post
        ∧ Forall (fun j => runnableAt w threads j = false) pre
        ∧ lookupZ threads i = Some t
        ∧ statusOf w t = ThreadStatus.RUNNABLE
        ∧ scheduleNextThread_deferred (S n) w = run n t (pickedState w i t)
        ∧ ThreadPool.runningThread (tpool (pickedState w i t)) = Some t
        ∧ ThreadPool.runningThreadIndex (tpool (pickedState w i t)) = i
        ∧ statusOf (pickedState w i t) t = ThreadStatus.RUNNING)
    ∨ ((∀ t, t ∈ threads → statusOf w t ≠ ThreadStatus.RUNNABLE)
       ∧ scheduleNextThread_deferred (S n) w = Ok tt w).
Proof.
  intros n w Hnone Hidx threads order.
  pose proof (pickFrom_spec w threads (ThreadPool.runningThreadIndex (tpool w))
                (length threads) 0 Hidx ltac:(lia) ltac:(lia)) as Hspec.
  unfold scheduleNextThread_deferred. rewrite bind_pool, Hnone, bind_get.
  unfold pickNext. fold threads.
  destruct (pickFrom w threads (ThreadPool.runningThreadIndex (tpool w)) 0 (length threads))
    as [i t| |]; [| |contradiction].
  - left. destruct Hspec as (pre & post & Heq & Hpre & Hl & Hs).
    exists pre, i, post, t. repeat split; try assumption.
    + unfold setPool. rewrite !bind_modify.
      rewrite setStatus_RUNNABLE_RUNNING by exact Hs. reflexivity.
    + unfold pickedState, statusOf. wsimpl. reflexivity.
  - right. split; [|reflexivity].
    intros t Ht Hs.
    apply list_elem_of_lookup in Ht as [k Hk].
    assert (Hklt : (k < length threads)%nat) by (eapply lookup_lt_Some; exact Hk).
    fold (scanOrder (ThreadPool.runningThreadIndex (tpool w)) (length threads)) in Hspec.
    rewrite Forall_forall in Hspec.
    set (r := ThreadPool.runningThreadIndex (tpool w)) in *.
    set (len := Z.of_nat (length threads)) in *.
    assert (Hin : Z.of_nat k ∈ scanOrder r (length threads)).
    { unfold scanOrder. apply list_elem_of_fmap.
      exists ((Z.of_nat k - (r + 1)) mod len). split.
      - rewrite Zplus_mod_idemp_r. replace (r + 1 + (Z.of_nat k - (r + 1))) with (Z.of_nat k) by lia.
        symmetry. apply Z.mod_small. lia.
      - apply elem_of_seqZ. pose proof (Z.mod_pos_bound (Z.of_nat k - (r + 1)) len). lia. }
    specialize (Hspec _ Hin). unfold runnableAt, lookupZ in Hspec.
    destruct (Z.ltb_spec (Z.of_nat k) 0); [lia|].
    rewrite Nat2Z.id, Hk, Hs in Hspec. discriminate.
Qed.

(** *** C6: [throwException] *)

Lemma sameFrames_refl (w : W) : sameFrames w w.
Proof. repeat split. Qed.

Lemma sameFrames_dispatches (w0 w : W) : sameFrames w0 w → dispatches w = dispatches w0.
Proof. intros (_ & _ & Hc & _). unfold dispatches. rewrite Hc. reflexivity. Qed.

Lemma sameFrames_updPool (w0 w : W) f : sameFrames w0 w → sameFrames w0 (updPool f w).
Proof. intros (H1 & H2 & H3 & H4). repeat split; auto. Qed.

Lemma sameFrames_immediates (w0 w : W) q :
  sameFrames w0 w → sameFrames w0 (with_immediates q w).
Proof. intros (H1 & H2 & H3 & H4). repeat split; auto. Qed.

Lemma sameFrames_updThread (w0 w : W) t f :
  (∀ th, JVMThread.stack (f th) = JVMThread.stack th) →
  sameFrames w0 w → sameFrames w0 (updThread t f w).
Proof.
  intros Hf (H1 & H2 & H3 & H4). repeat split; auto.
  intros t'. rewrite <- H1. unfold stackOf, updThread. cbn.
  destruct (Nat.eqb_spec t' t) as [->|]; [apply Hf | reflexivity].
Qed.

(** [setStatus(s)] for [s] RUNNABLE or ASYNC_WAITING, from a status other
    than PARKED: the call returns and touches scheduling state only, or the
    assertion on the transition throws and nothing is written. *)
Lemma setStatus_quiet n (w : W) t s :
  s = ThreadStatus.RUNNABLE ∨ s = ThreadStatus.ASYNC_WAITING →
  statusOf w t ≠ ThreadStatus.PARKED →
  outcome (setStatus (S n) t s None w) (sameFrames w) (fun w' => w' = w).
Proof.
  intros Hs Hp.
  destruct (ThreadStatus.eq_dec (statusOf w t) s) as [Heq|Hne].
  { rewrite <- Heq. rewrite setStatus_same. apply sameFrames_refl. }
  destruct (ThreadStatus.eq_dec (statusOf w t) ThreadStatus.RUNNING) as [Hr|Hr];
    [destruct (ThreadStatus.eq_dec s ThreadStatus.RUNNABLE) as [->|Hsr]|].
  { rewrite setStatus_ignored by exact Hr. apply sameFrames_refl. }
  all: eapply outcome_weaken;
    [ apply (setStatus_scheduling (sameFrames w)); auto using sameFrames_updPool,
        sameFrames_immediates;
      [ intros; apply sameFrames_updThread; [reflexivity | assumption]
      | tauto
      | intros [? ?]; congruence
      | apply sameFrames_updThread; [reflexivity | apply sameFrames_refl] ]
    | intros ? [? _]; assumption
    | intros ? [? _]; assumption ].
Qed.

(** [setStatus(RUNNABLE)] from RUNNING, RUNNABLE or ASYNC_WAITING returns and
    touches scheduling state only. *)
Lemma setStatus_RUNNABLE_quiet n (w : W) t :
  statusOf w t = ThreadStatus.RUNNING ∨ statusOf w t = ThreadStatus.RUNNABLE
  ∨ statusOf w t = ThreadStatus.ASYNC_WAITING →
  ∃ w1, setStatus (S n) t ThreadStatus.RUNNABLE None w = Ok tt w1 ∧ sameFrames w w1
        ∧ (statusOf w1 t = ThreadStatus.RUNNING ∨ statusOf w1 t = ThreadStatus.RUNNABLE).
Proof.
  intros [Hs|[Hs|Hs]].
  - exists w. split; [apply setStatus_ignored, Hs | split; [apply sameFrames_refl | auto]].
  - exists w. split; [rewrite <- Hs at 1; apply setStatus_same | split; [apply sameFrames_refl | auto]].
  - assert (H : outcome (setStatus (S n) t ThreadStatus.RUNNABLE None w)
      (fun w' => sameFrames w w' ∧ statusOf w' t = ThreadStatus.RUNNABLE)
      (fun w' => w' = w ∧ RELEASE = false
                 ∧ validateThreadTransition (statusOf w t) ThreadStatus.RUNNABLE = false)).
    { apply setStatus_scheduling; auto using sameFrames_updPool, sameFrames_immediates;
        try (rewrite Hs; discriminate).
      - intros; apply sameFrames_updThread; [reflexivity | assumption].
      - rewrite Hs. intros [? _]. discriminate.
      - apply sameFrames_updThread; [reflexivity | apply sameFrames_refl]. }
    destruct (setStatus (S n) t ThreadStatus.RUNNABLE None w) as [[] w1|err w1|]; cbn in H.
    + exists w1. split; [reflexivity | split; [apply H | right; apply H]].
    + destruct H as (_ & _ & Hv). rewrite Hs in Hv. discriminate.
    + contradiction.
Qed.

(** [setStatus(RUNNABLE)] from RUNNING, RUNNABLE or ASYNC_WAITING returns,
    touches scheduling state only, and leaves a RUNNING thread RUNNING. *)
Lemma setStatus_RUNNABLE_from3 n (w : W) t :
  statusOf w t = ThreadStatus.RUNNING ∨ statusOf w t = ThreadStatus.RUNNABLE
  ∨ statusOf w t = ThreadStatus.ASYNC_WAITING →
  ∃ w1, setStatus (S n) t ThreadStatus.RUNNABLE None w = Ok tt w1 ∧ sameFrames w w1
        ∧ statusOf w1 t = afterRunnable (statusOf w t).
Proof.
  unfold afterRunnable. intros [Hs|[Hs|Hs]].
  - exists w. rewrite Hs. split; [apply setStatus_ignored, Hs | split; [apply sameFrames_refl | auto]].
  - exists w. split; [rewrite <- Hs at 1; apply setStatus_same |].
    split; [apply sameFrames_refl | rewrite Hs; reflexivity].
  - assert (H : outcome (setStatus (S n) t ThreadStatus.RUNNABLE None w)
      (fun w' => sameFrames w w' ∧ statusOf w' t = ThreadStatus.RUNNABLE)
      (fun w' => w' = w ∧ RELEASE = false
                 ∧ validateThreadTransition (statusOf w t) ThreadStatus.RUNNABLE = false)).
    { apply setStatus_scheduling; auto using sameFrames_updPool, sameFrames_immediates;
        try (rewrite Hs; discriminate).
      - intros; apply sameFrames_updThread; [reflexivity | assumption].
      - rewrite Hs. intros [? _]. discriminate.
      - apply sameFrames_updThread; [reflexivity | apply sameFrames_refl]. }
    destruct (setStatus (S n) t ThreadStatus.RUNNABLE None w) as [[] w1|err w1|]; cbn in H.
    + exists w1. split; [reflexivity | split; [apply H | rewrite Hs; apply H]].
    + destruct H as (_ & _ & Hv). rewrite Hs in Hv. discriminate.
    + contradiction.
Qed.

Lemma lookupZ_last {A} (l : list A) : lookupZ l (Z.of_nat (length l) - 1) = last l.
Proof.
  unfold lookupZ. rewrite last_lookup.
  destruct l as [|x l]; [reflexivity|].
  destruct (Z.ltb_spec (Z.of_nat (length (x :: l)) - 1) 0) as [H|H]; cbn [length] in *; [lia|].
  f_equal. lia.
Qed.

Lemma dispatches_logged ev (w w' : W) :
  dispatches (logged ev w w') = (dispatches w + if isDispatch ev then 1 else 0)%nat.
Proof.
  unfold dispatches, logged. cbn. rewrite List.filter_app, length_app. cbn.
  destruct (isDispatch ev); reflexivity.
Qed.

Section Unwinding.
Variable t : ThreadAddr.
Variable e : Throwable.
(** Exiting a monitor on behalf of [t] does not change the call stack of [t]. *)
Hypothesis Monitor_exit_stack :
  ∀ m (w w' : W) r, Monitor_exit m t w = ExtOk r w' → stackOf w' t = stackOf w t.

Lemma scheduleException_false fuel a (w w1 : W) :
  scheduleException (setStatus fuel) a t e w = Ok false w1 →
  stackOf w1 t = stackOf w t ∧ dispatches w1 = dispatches w.
Proof.
  unfold scheduleException, frame. rewrite bind_get.
  destruct (frameObjs w a) as [b|nf|i].
  - unfold BytecodeStackFrame_scheduleException. rewrite bind_get.
    destruct (scanHandlers _ _ _ _ _).
    + cbn. discriminate.
    + unfold bind. destruct (setStatus fuel t ThreadStatus.ASYNC_WAITING None w); try discriminate.
      unfold extern. destruct (ClassLoader_resolveClasses _ _ _ _ _); discriminate.
    + destruct (Method.isSynchronized (BytecodeStackFrame.method b)); cbn [when].
      * rewrite bind_assoc, bind_get. unfold bind, extern.
        destruct (Monitor_exit _ t w) as [r w'|err w'] eqn:Hexit; [|discriminate].
        intros Heq. injection Heq as <-. split.
        -- unfold stackOf, logged. cbn. apply (Monitor_exit_stack _ _ _ _ Hexit).
        -- rewrite dispatches_logged. cbn. lia.
      * cbn. intros Heq. injection Heq as <-. auto.
  - cbn. intros Heq. injection Heq as <-. auto.
  - cbn. discriminate.
Qed.

Lemma scheduleException_no_OutOfFuel n a (w : W) :
  scheduleException (setStatus (S (S (S n)))) a t e w ≠ OutOfFuel.
Proof.
  unfold scheduleException, frame. rewrite bind_get.
  destruct (frameObjs w a) as [b|nf|i]; [|discriminate|discriminate].
  unfold BytecodeStackFrame_scheduleException. rewrite bind_get.
  destruct (scanHandlers _ _ _ _ _).
  - discriminate.
  - unfold bind.
    pose proof (setStatus_finishes n t ThreadStatus.ASYNC_WAITING None w ltac:(discriminate)).
    destruct (setStatus (S (S (S n))) t ThreadStatus.ASYNC_WAITING None w); try congruence.
    unfold extern. destruct (ClassLoader_resolveClasses _ _ _ _ _); discriminate.
  - destruct (Method.isSynchronized (BytecodeStackFrame.method b)); cbn [when]; [|discriminate].
    rewrite bind_assoc, bind_get. unfold bind, extern.
    destruct (Monitor_exit _ t w); discriminate.
Qed.

Lemma stackOf_popFrame (w : W) : stackOf (popFrame t w) t = removelast (stackOf w t).
Proof. unfold stackOf, popFrame, updThread. cbn. rewrite Nat.eqb_refl. reflexivity. Qed.

Lemma dispatches_popFrame (w : W) : dispatches (popFrame t w) = dispatches w.
Proof. reflexivity. Qed.

Lemma length_removelast {A} (l : list A) : l ≠ [] → length (removelast l) = pred (length l).
Proof.
  intros Hl. destruct (exists_last Hl) as (l' & x & ->).
  rewrite removelast_last, length_app. cbn. lia.
Qed.

Lemma unwindLoop_Unwinds fuel k : ∀ (w w' : W) idx,
  idx = Z.of_nat (length (stackOf w t)) - 1 →
  unwindLoop (setStatus fuel) k t e idx w = Ok tt w' →
  ∃ asked, Unwinds fuel t e w asked w'
           ∧ (Forall (fun p => snd p = false) asked →
              stackOf w' t = [] ∧ dispatches w' = dispatches w).
Proof.
  induction k as [|k IH]; intros w w' idx Hidx Hrun; cbn [unwindLoop] in Hrun; [discriminate|].
  rewrite bind_thread in Hrun. fold (stackOf w t) in Hrun.
  destruct (bool_decide (stackOf w t = [])) eqn:Hempty.
  - apply bool_decide_eq_true in Hempty. injection Hrun as <-.
    exists []. split; [constructor; exact Hempty | auto].
  - apply bool_decide_eq_false in Hempty.
    rewrite Hidx, lookupZ_last in Hrun.
    destruct (last (stackOf w t)) as [a|] eqn:Hlast; [|discriminate].
    unfold bind at 1 in Hrun.
    destruct (scheduleException (setStatus fuel) a t e w) as [[|] w1|err w1|] eqn:Hsched;
      try discriminate; cbn [negb] in Hrun.
    + injection Hrun as <-. exists [(a, true)]. split.
      * apply Unwinds_handled with (a := a); assumption.
      * intros Hall. inversion Hall; subst. discriminate.
    + destruct (scheduleException_false _ _ _ _ Hsched) as (Hstack & Hdisp).
      unfold framePop, setThread in Hrun. rewrite bind_modify in Hrun.
      fold (popFrame t w1) in Hrun.
      apply IH in Hrun.
      * destruct Hrun as (asked & Hun & Hall).
        exists ((a, false) :: asked). split.
        -- apply Unwinds_declined with (a := a) (w1 := w1); assumption.
        -- intros Hf. inversion Hf; subst.
           destruct (Hall ltac:(assumption)) as (Hs' & Hd').
           split; [exact Hs'|]. rewrite Hd', dispatches_popFrame. exact Hdisp.
      * rewrite stackOf_popFrame, Hstack, length_removelast by exact Hempty.
        destruct (stackOf w t); [congruence | cbn [length]; lia].
Qed.

Lemma unwindLoop_no_OutOfFuel n k : ∀ (w : W) idx,
  idx = Z.of_nat (length (stackOf w t)) - 1 →
  (length (stackOf w t) < k)%nat →
  unwindLoop (setStatus (S (S (S n)))) k t e idx w ≠ OutOfFuel.
Proof.
  induction k as [|k IH]; intros w idx Hidx Hlen; [lia|]. cbn [unwindLoop].
  rewrite bind_thread. fold (stackOf w t).
  destruct (bool_decide (stackOf w t = [])) eqn:Hempty; [discriminate|].
  apply bool_decide_eq_false in Hempty.
  rewrite Hidx, lookupZ_last.
  destruct (last (stackOf w t)) as [a|] eqn:Hlast; [|discriminate].
  unfold bind at 1.
  pose proof (scheduleException_no_OutOfFuel n a w) as Hno.
  destruct (scheduleException (setStatus (S (S (S n)))) a t e w) as [[|] w1|err w1|] eqn:Hsched;
    try discriminate; try congruence; cbn [negb].
  destruct (scheduleException_false _ _ _ _ Hsched) as (Hstack & Hdisp).
  unfold framePop, setThread. rewrite bind_modify. fold (popFrame t w1).
  apply IH.
  - rewrite stackOf_popFrame, Hstack, length_removelast by exact Hempty.
    destruct (stackOf w t); [congruence | cbn [length]; lia].
  - rewrite stackOf_popFrame, Hstack, length_removelast by exact Hempty.
    destruct (stackOf w t); [congruence | cbn [length] in *; lia].
Qed.

End Unwinding.

Lemma statusOf_popInternal (w : W) t : statusOf (popInternal t w) t = statusOf w t.
Proof.
  unfold popInternal. destruct (last (stackOf w t)); [|reflexivity].
  destruct (frameObjs w f); try reflexivity.
  unfold popFrame, statusOf, updThread. cbn. rewrite Nat.eqb_refl. reflexivity.
Qed.

Lemma dispatches_popInternal (w : W) t : dispatches (popInternal t w) = dispatches w.
Proof.
  unfold popInternal. destruct (last (stackOf w t)); [|reflexivity].
  destruct (frameObjs w f); reflexivity.
Qed.

Lemma length_stackOf_popInternal (w : W) t :
  (length (stackOf (popInternal t w) t) <= length (stackOf w t))%nat.
Proof.
  unfold popInternal. destruct (last (stackOf w t)) eqn:Hl; [|lia].
  destruct (frameObjs w f); try lia.
  rewrite stackOf_popFrame.
  destruct (stackOf w t) as [|x l] eqn:Hs; [cbn; lia|].
  rewrite length_removelast by discriminate. lia.
Qed.

(** [throwException] on a thread with a non-empty stack, in a state it
    accepts: what runs after the internal frame is popped. *)
Lemma throwException_eq n (w : W) t e :
  statusOf w t = ThreadStatus.RUNNING ∨ statusOf w t = ThreadStatus.RUNNABLE
  ∨ statusOf w t = ThreadStatus.ASYNC_WAITING →
  stackOf w t ≠ [] →
  throwException n t e w
  = (setStatus n t ThreadStatus.RUNNABLE None ;;;
     unwindLoop (setStatus n) n t e (Z.of_nat (length (stackOf (popInternal t w) t)) - 1) ;;;
     let* th := thread t in
     when (bool_decide (JVMThread.stack th = [])) (handleUncaughtException t e))
      (popInternal t w).
Proof.
  intros Hstatus Hne.
  unfold throwException. rewrite bind_thread. fold (statusOf w t) (stackOf w t).
  assert (Ha : ∀ msg, assert (ThreadStatus.eqb (statusOf w t) ThreadStatus.RUNNING
        || ThreadStatus.eqb (statusOf w t) ThreadStatus.RUNNABLE
        || ThreadStatus.eqb (statusOf w t) ThreadStatus.ASYNC_WAITING) msg w = Ok tt w).
  { intros msg. unfold assert. destruct RELEASE; [reflexivity|].
    destruct Hstatus as [->|[->| ->]]; reflexivity. }
  rewrite (bind_Ok _ _ _ _ _ (Ha _)). cbv zeta.
  unfold popInternal.
  destruct (last (stackOf w t)) as [top|] eqn:Hlast.
  2:{ apply last_None in Hlast. contradiction. }
  unfold frame. rewrite !bind_assoc, bind_get.
  destruct (frameObjs w top); rewrite !bind_assoc;
    try (rewrite bind_ret, bind_assoc; reflexivity).
  unfold framePop, setThread. rewrite bind_modify, bind_ret, bind_assoc.
  fold (popFrame t w). rewrite stackOf_popFrame, length_removelast by exact Hne.
  replace (Z.of_nat (length (stackOf w t)) - 1 - 1)
    with (Z.of_nat (Init.Nat.pred (length (stackOf w t))) - 1); [reflexivity|].
  destruct (stackOf w t); [congruence | cbn [length]; lia].
Qed.

(** C6. For a thread in state RUNNING, RUNNABLE or ASYNC_WAITING with a
    non-empty stack, [throwException(exc)], run with more fuel than the stack
    is deep, finishes.  It pops the top frame exactly if that frame is an
    internal frame, then calls [setStatus(RUNNABLE)], which returns: a thread
    that was RUNNABLE or ASYNC_WAITING is RUNNABLE, a thread that was RUNNING
    is still RUNNING (and for a RUNNING or RUNNABLE thread the call changes
    nothing at all); no stack, frame or call log is touched by it.  When
    [throwException] returns, it has then asked the top frame
    [scheduleException(exc)] again and again, popping each frame that answered
    false and stopping at the first that answered true; if the stack is then
    empty it has dispatched the exception as uncaught, once, through the Java
    thread object, and otherwise it has dispatched nothing.  If every frame
    asked answered false, the stack is empty at the end and exactly one
    uncaught dispatch was made during the whole call.  (Exiting the monitor of
    a synchronized method is assumed to leave the call stack of the thread
    alone.) *)
Theorem throwException_unwinds :
  ∀ (n : nat) (w : W) (t : ThreadAddr) (e : Throwable),
    (∀ m (w0 w1 : W) r, Monitor_exit m t w0 = ExtOk r w1 → stackOf w1 t = stackOf w0 t) →
    statusOf w t = ThreadStatus.RUNNING ∨ statusOf w t = ThreadStatus.RUNNABLE
    ∨ statusOf w t = ThreadStatus.ASYNC_WAITING →
    stackOf w t ≠ [] →
    (length (stackOf w t) <= n + 2)%nat →
    throwException (3 + n) t e w ≠ OutOfFuel
    ∧ ∃ w1,
        setStatus (3 + n) t ThreadStatus.RUNNABLE None (popInternal t w) = Ok tt w1
        ∧ statusOf w1 t = afterRunnable (statusOf w t)
        ∧ sameFrames (popInternal t w) w1
        ∧ (statusOf w t ≠ ThreadStatus.ASYNC_WAITING → w1 = popInternal t w)
        ∧ ∀ w', throwException (3 + n) t e w = Ok tt w' →
            ∃ asked w2,
              Unwinds (3 + n) t e w1 asked w2
              ∧ (stackOf w2 t ≠ [] → w' = w2)
              ∧ (stackOf w2 t = [] →
                 handleUncaughtException t e w2 = Ok tt w' ∧ dispatches w' = S (dispatches w2))
              ∧ (Forall (fun p => snd p = false) asked →
                 stackOf w2 t = [] ∧ dispatches w' = S (dispatches w)).
Proof.
  intros n w t e Hexit Hstatus Hne Hlen.
  set (w0 := popInternal t w).
  pose proof (throwException_eq (3 + n) w t e Hstatus Hne) as Hrun. fold w0 in Hrun.
  assert (Hst0 : statusOf w0 t = statusOf w t) by (unfold w0; apply statusOf_popInternal).
  assert (Hs0 : statusOf w0 t = ThreadStatus.RUNNING ∨ statusOf w0 t = ThreadStatus.RUNNABLE
                ∨ statusOf w0 t = ThreadStatus.ASYNC_WAITING).
  { rewrite Hst0. exact Hstatus. }
  destruct (setStatus_RUNNABLE_from3 (S (S n)) w0 t Hs0) as (w1 & Hset & Hsame & Hafter).
  rewrite Hst0 in Hafter.
  assert (Hkeep : statusOf w t ≠ ThreadStatus.ASYNC_WAITING → w1 = w0).
  { intros Hna.
    assert (Hw0 : setStatus (S (S (S n))) t ThreadStatus.RUNNABLE None w0 = Ok tt w0).
    { destruct Hstatus as [Hs|[Hs|Hs]]; [| |contradiction].
      - apply setStatus_ignored. rewrite Hst0. exact Hs.
      - rewrite <- Hs, <- Hst0 at 1. apply setStatus_same. }
    rewrite Hw0 in Hset. injection Hset as <-. reflexivity. }
  assert (Hstack1 : stackOf w1 t = stackOf w0 t) by apply Hsame.
  assert (Hdisp1 : dispatches w1 = dispatches w).
  { rewrite (sameFrames_dispatches _ _ Hsame). apply dispatches_popInternal. }
  change (S (S (S n))) with (3 + n)%nat in Hset.
  rewrite Hrun, (bind_Ok _ _ _ _ _ Hset), <- Hstack1.
  assert (Hlen1 : (length (stackOf w1 t) < 3 + n)%nat).
  { rewrite Hstack1. pose proof (length_stackOf_popInternal w t). fold w0 in H. lia. }
  pose proof (unwindLoop_no_OutOfFuel t e Hexit n (3 + n) w1 _ eq_refl Hlen1) as Hno.
  pose proof (unwindLoop_Unwinds t e Hexit (3 + n) (3 + n) w1) as Hun.
  change (S (S (S n))) with (3 + n)%nat in Hno.
  unfold bind at 1 3.
  destruct (unwindLoop (setStatus (3 + n)) (3 + n) t e (Z.of_nat (length (stackOf w1 t)) - 1) w1)
    as [[] w2|err w2|] eqn:Hloop; [| | congruence].
  2:{ split; [discriminate|]. exists w1. split_and!; try assumption. intros; discriminate. }
  destruct (Hun w2 _ eq_refl Hloop) as (asked & Hunw & Hall).
  rewrite bind_thread. fold (stackOf w2 t).
  destruct (bool_decide (stackOf w2 t = [])) eqn:Hempty; cbn [when].
  - apply bool_decide_eq_true in Hempty.
    unfold handleUncaughtException, extern.
    destruct (Thread_dispatchUncaughtException t e w2) as [[] w3|err w3] eqn:Hd;
      (split; [discriminate|]); exists w1; (split_and!; try assumption);
      [|intros; discriminate].
    intros w' Heq. injection Heq as Heq. subst w'.
    assert (Hd3 : dispatches (logged (EvDispatchUncaughtException t e) w2 w3) = S (dispatches w2)).
    { rewrite dispatches_logged. cbn. lia. }
    exists asked, w2.
    split; [exact Hunw|].
    split; [intros Hx; destruct (Hx Hempty)|].
    split.
    + intros _. split; [unfold handleUncaughtException, extern; rewrite Hd; reflexivity | exact Hd3].
    + intros Hf. split; [exact Hempty|].
      rewrite Hd3. destruct (Hall Hf) as (_ & ->). rewrite Hdisp1. reflexivity.
  - apply bool_decide_eq_false in Hempty.
    split; [discriminate|]. exists w1. split_and!; try assumption.
    intros w' Heq. injection Heq as <-.
    exists asked, w2.
    split; [exact Hunw|].
    split; [intros _; reflexivity|].
    split.
    + intros Hx. destruct (Hempty Hx).
    + intros Hf. destruct (Hall Hf) as (Hx & _). destruct (Hempty Hx).
Qed.

(** *** Resolution of catch types is asked for on every throw *)

Lemma resolveRequests_logged l names ev (w w' : W) :
  calls w' = calls w →
  resolveRequests l names (logged ev w w')
  = (resolveRequests l names w + if isResolveClasses l names ev then 1 else 0)%nat.
Proof.
  intros Hc. unfold resolveRequests, logged. cbn.
  rewrite List.filter_app, length_app. cbn.
  destruct (isResolveClasses l names ev); reflexivity.
Qed.

(** One throw over a bytecode frame whose scan of the handler table stops at
    a catch type that is not resolved: the thread waits, the frame stays,
    and the loader is asked for the handler classes. *)
Lemma throwException_asks_loader n (w : W) t e a b :
  (∀ cb (w0 : W),
     ClassLoader_resolveClasses (Method.loader (BytecodeStackFrame.method b)) t
       (handlerClasses (Method.exceptionHandlers (BytecodeStackFrame.method b))) cb w0
     = ExtOk tt w0) →
  (∀ w' : W, ext w' = ext w →
     scanHandlers w' (Method.loader (BytecodeStackFrame.method b)) (Throwable_getClass e)
       (BytecodeStackFrame.pc b) (Method.exceptionHandlers (BytecodeStackFrame.method b))
     = NeedsResolution) →
  statusOf w t = ThreadStatus.RUNNING ∨ statusOf w t = ThreadStatus.RUNNABLE
  ∨ statusOf w t = ThreadStatus.ASYNC_WAITING →
  last (stackOf w t) = Some a →
  frameObjs w a = Bytecode b →
  ∃ w', throwException (3 + n) t e w = Ok tt w'
    ∧ statusOf w' t = ThreadStatus.ASYNC_WAITING
    ∧ stackOf w' t = stackOf w t
    ∧ frameObjs w' = frameObjs w
    ∧ ext w' = ext w
    ∧ resolveRequests (Method.loader (BytecodeStackFrame.method b))
        (handlerClasses (Method.exceptionHandlers (BytecodeStackFrame.method b))) w'
      = S (resolveRequests (Method.loader (BytecodeStackFrame.method b))
        (handlerClasses (Method.exceptionHandlers (BytecodeStackFrame.method b))) w).
Proof.
  intros Hresolve Hscan Hstatus Hlast Hframe.
  assert (Hne : stackOf w t ≠ []) by (intros Hnil; rewrite Hnil in Hlast; discriminate).
  rewrite (throwException_eq _ _ _ _ Hstatus Hne).
  assert (Hpop : popInternal t w = w) by (unfold popInternal; rewrite Hlast, Hframe; reflexivity).
  rewrite Hpop.
  destruct (setStatus_RUNNABLE_quiet (2 + n) w t Hstatus) as (w1 & Hset & Hsame & Hst1).
  rewrite (bind_Ok _ _ _ _ _ Hset).
  destruct Hsame as (Hstack1 & Hframes1 & Hcalls1 & Hext1).
  change (3 + n)%nat with (S (2 + n)) at 2. cbn [unwindLoop].
  rewrite !bind_assoc, bind_thread. fold (stackOf w1 t).
  rewrite Hstack1. rewrite (bool_decide_eq_false_2 _ Hne).
  rewrite lookupZ_last, Hlast.
  unfold scheduleException, frame. rewrite !bind_assoc, bind_get, Hframes1, Hframe.
  unfold BytecodeStackFrame_scheduleException. rewrite !bind_assoc, bind_get.
  rewrite (Hscan w1 Hext1). rewrite !bind_assoc.
  assert (Hwait : outcome (setStatus (3 + n) t ThreadStatus.ASYNC_WAITING None w1)
      (fun w' => sameFrames w1 w' ∧ statusOf w' t = ThreadStatus.ASYNC_WAITING)
      (fun w' => w' = w1 ∧ RELEASE = false
                 ∧ validateThreadTransition (statusOf w1 t) ThreadStatus.ASYNC_WAITING = false)).
  { apply setStatus_scheduling; auto using sameFrames_updPool, sameFrames_immediates.
    - intros; apply sameFrames_updThread; [reflexivity | assumption].
    - destruct Hst1 as [-> | ->]; discriminate.
    - destruct Hst1 as [-> | ->]; discriminate.
    - intros [_ ?]. discriminate.
    - apply sameFrames_updThread; [reflexivity | apply sameFrames_refl]. }
  destruct (setStatus (3 + n) t ThreadStatus.ASYNC_WAITING None w1) as [[] w2|err w2|] eqn:Hset2;
    cbn in Hwait.
  2:{ destruct Hwait as (_ & _ & Hv). destruct Hst1 as [Hs | Hs]; rewrite Hs in Hv; discriminate. }
  2:{ contradiction. }
  destruct Hwait as ((Hstack2 & Hframes2 & Hcalls2 & Hext2) & Hst2).
  rewrite (bind_Ok _ _ _ _ _ Hset2).
  rewrite !bind_assoc.
  set (ev := EvResolveClasses _ _ _).
  assert (Hask : extern ev (ClassLoader_resolveClasses
            (Method.loader (BytecodeStackFrame.method b)) t
            (handlerClasses (Method.exceptionHandlers (BytecodeStackFrame.method b)))
            (CbRethrow t e)) w2 = Ok tt (logged ev w2 w2))
    by (unfold extern; rewrite Hresolve; reflexivity).
  rewrite (bind_Ok _ _ _ _ _ Hask).
  rewrite bind_ret. cbn [negb].
  rewrite bind_ret, bind_thread.
  set (w3 := logged ev w2 w2).
  assert (Hstack3 : stackOf w3 t = stackOf w t).
  { unfold w3, stackOf, logged. cbn. fold (stackOf w2 t). rewrite Hstack2. apply Hstack1. }
  fold (stackOf w3 t). rewrite Hstack3, (bool_decide_eq_false_2 _ Hne). cbn [when].
  exists w3. split; [reflexivity|]. repeat split.
  - exact Hst2.
  - exact Hstack3.
  - unfold w3, logged. cbn. congruence.
  - unfold w3, logged. cbn. congruence.
  - unfold w3. rewrite resolveRequests_logged by reflexivity.
    unfold resolveRequests. rewrite Hcalls2, Hcalls1. unfold ev. cbn [isResolveClasses].
    rewrite bool_decide_eq_true_2 by auto. lia.
Qed.

(** C3. The code keeps no record of catch types whose resolution failed.
    Take a thread whose top frame is a bytecode frame at a pc where the scan
    of the handler table stops at a catch type the loader has not resolved,
    and a loader whose resolution attempts change nothing (they fail).  Then
    every exception thrown on the thread makes the frame ask the loader for
    the same handler classes again: after the exceptions of [es] have been
    thrown one after the other, the number of such requests has grown by the
    length of [es], whatever that length is. *)
Theorem scheduleException_asks_again_after_failure :
  ∀ (n : nat) (es : list Throwable) (w : W) (t : ThreadAddr) (a : FrameAddr)
    (b : BytecodeStackFrame.t),
    let method := BytecodeStackFrame.method b in
    let names := handlerClasses (Method.exceptionHandlers method) in
    (∀ cb (w0 : W),
       ClassLoader_resolveClasses (Method.loader method) t names cb w0 = ExtOk tt w0) →
    (∀ e (w' : W), e ∈ es → ext w' = ext w →
       scanHandlers w' (Method.loader method) (Throwable_getClass e)
         (BytecodeStackFrame.pc b) (Method.exceptionHandlers method) = NeedsResolution) →
    statusOf w t = ThreadStatus.RUNNING ∨ statusOf w t = ThreadStatus.RUNNABLE
    ∨ statusOf w t = ThreadStatus.ASYNC_WAITING →
    last (stackOf w t) = Some a →
    frameObjs w a = Bytecode b →
    ∃ w', rethrows (3 + n) t es w = Ok tt w'
      ∧ resolveRequests (Method.loader method) names w'
        = (resolveRequests (Method.loader method) names w + length es)%nat.
Proof.
  intros n es. induction es as [|e es IH]; intros w t a b method names Hresolve Hscan Hstatus Hlast Hframe.
  - exists w. split; [reflexivity | cbn; lia].
  - cbn [rethrows].
    destruct (throwException_asks_loader n w t e a b Hresolve
                (fun w' Hext => Hscan e w' ltac:(left) Hext) Hstatus Hlast Hframe)
      as (w1 & Hthrow & Hst1 & Hstack1 & Hframes1 & Hext1 & Hreq1).
    rewrite (bind_Ok _ _ _ _ _ Hthrow).
    destruct (IH w1 t a b Hresolve) as (w' & Hrun & Hreq).
    + intros e' w' He' Hext. apply Hscan; [right; exact He' | congruence].
    + auto.
    + rewrite Hstack1. exact Hlast.
    + rewrite Hframes1. exact Hframe.
    + exists w'. split; [exact Hrun|].
      subst method names. cbv zeta in Hreq. rewrite Hreq, Hreq1. cbn [length]. lia.
Qed.

(** *** C2: the Java-visible threadStatus *)

Lemma ToInt32_small (z : Z) : - 2 ^ 31 <= z < 2 ^ 31 → ToInt32 z = z.
Proof.
  intros Hz. unfold ToInt32.
  destruct (Z.neg_nonneg_cases z) as [Hneg|Hpos].
  - replace (z mod 2 ^ 32) with (z + 2 ^ 32).
    + destruct (Z.ltb_spec (z + 2 ^ 32) (2 ^ 31)); lia.
    + apply Z.mod_unique with (q := -1); lia.
  - rewrite Z.mod_small by lia.
    destruct (Z.ltb_spec z (2 ^ 31)); lia.
Qed.

Lemma js_or_0 (z : Z) : - 2 ^ 31 <= z < 2 ^ 31 → js_or 0 z = z.
Proof.
  intros Hz. unfold js_or.
  rewrite (ToInt32_small z Hz). change (ToInt32 0) with 0.
  rewrite Z.lor_0_l. apply ToInt32_small, Hz.
Qed.

(** The switch of [rawSetStatus] is the projection of the specification. *)
Lemma jvmtiOf_projection (s : ThreadStatus.t) : jvmtiOf s = JVMTI_projection s.
Proof. destruct s; reflexivity. Qed.

(** [rawSetStatus] writes the status and its projection. *)
Lemma rawSetStatus_spec (t : ThreadAddr) (s : ThreadStatus.t) (w : W) :
  ∃ w', rawSetStatus t s w = Ok tt w'
        ∧ statusOf w' t = s
        ∧ threadStatusOf w' t = js_or 0 (JVMTIThreadState_value (JVMTI_projection s)).
Proof.
  eexists. split; [reflexivity|].
  unfold statusOf, threadStatusOf, updThread. cbn. rewrite Nat.eqb_refl. cbn.
  unfold jvmNewStatus. rewrite jvmtiOf_projection. auto.
Qed.

(** C2. After a transition performed by [setStatus] on a thread [t] (from
    any state, to any state), the field java/lang/Thread/threadStatus of the
    Java object of [t] is the JVMTI projection of the status [t] then has: NEW
    gives ALIVE, RUNNING and RUNNABLE give RUNNABLE, BLOCKED and
    UNINTERRUPTABLY_BLOCKED give BLOCKED_ON_MONITOR_ENTER, WAITING,
    ASYNC_WAITING and PARKED give WAITING_INDEFINITELY, TIMED_WAITING gives
    WAITING_WITH_TIMEOUT and TERMINATED gives TERMINATED.  This holds of the
    state in which the call returns or throws, for every amount of fuel,
    provided the JVMTI constants are 32-bit integers and the other modules,
    which run inside the call, keep the field in step with the status.  A
    transition to any status but RUNNING (which runs the thread) finishes once
    the fuel is 3 or more. *)
Theorem setStatus_threadStatus_projection :
  ∀ (fuel : nat) (w : W) (t : ThreadAddr) (status : ThreadStatus.t) (monitor : option Monitor),
    (∀ o, - 2 ^ 31 <= JVMTIThreadState_value o < 2 ^ 31) →
    ExternalsPreserve (synced t) →
    performsTransition w t status = true →
    ends (setStatus fuel t status monitor w)
      (fun w' =>
         threadStatusOf w' t = JVMTIThreadState_value (JVMTI_projection (statusOf w' t)))
    ∧ (status ≠ ThreadStatus.RUNNING →
       setStatus (3 + fuel) t status monitor w ≠ OutOfFuel).
Proof.
  intros fuel w t status monitor H32 EP Hp.
  split; [|apply setStatus_finishes].
  pose proof (setStatus_establishes t
    (fun th => java_lang_Thread.threadStatus (JVMThread.jvmThreadObj th)
               = jvmNewStatus (JVMThread.status th))) as Hest.
  cbv beta in Hest.
  specialize (Hest ltac:(intros; assumption) ltac:(intros; assumption)
                   ltac:(intros; reflexivity) EP fuel monitor w status Hp).
  unfold ends in *.
  destruct (setStatus fuel t status monitor w) as [[] w'|e w'|]; try exact I;
    unfold threadStatusOf, statusOf; rewrite Hest; unfold jvmNewStatus;
    rewrite jvmtiOf_projection; apply js_or_0, H32.
Qed.


(** *** Transitions, step by step *)

Lemma pastGuards_true (w : W) t s :
  pastGuards w t s = true →
  negb (ThreadStatus.eqb (statusOf w t) s)
  && negb (ThreadStatus.eqb (statusOf w t) ThreadStatus.RUNNING
           && ThreadStatus.eqb s ThreadStatus.RUNNABLE) = true
  ∧ JVMThread.immortal (threadObjs w t) && ThreadStatus.eqb s ThreadStatus.TERMINATED = false.
Proof.
  unfold pastGuards. intros H. apply andb_prop in H as [H1 H2].
  split; [exact H1 | apply negb_true_iff, H2].
Qed.

(** Past the guards and the assertion, [setStatus] is the two writes and the
    two switches. *)
Lemma setStatus_performed n (w : W) t s m :
  pastGuards w t s = true →
  RELEASE = true ∨ validateThreadTransition (statusOf w t) s = true →
  setStatus (S n) t s m w
  = (preTransition (asyncReturn n) t (statusOf w t) ;;; postTransition (run n) t m)
      (transitionOpened t s w).
Proof.
  intros Hg Hv. apply pastGuards_true in Hg as [Hg Hi].
  rewrite setStatus_S. unfold setStatus_body at 1. rewrite bind_thread.
  fold (statusOf w t). rewrite Hg, Hi.
  assert (Ha : assert (validateThreadTransition (statusOf w t) s) "Invalid thread transition" w
               = Ok tt w).
  { unfold assert. destruct Hv as [-> | ->]; [reflexivity|]. destruct RELEASE; reflexivity. }
  rewrite (bind_Ok _ _ _ _ _ Ha).
  unfold rawSetStatus at 1, setThread at 1. rewrite bind_modify.
  unfold setThread at 1. rewrite bind_modify. reflexivity.
Qed.

(** X1. In a debug build [setStatus] refuses a transition that is not in the
    table: past the guards, the assertion throws and nothing has been
    written. *)
Theorem setStatus_invalid_transition_throws :
  ∀ (fuel : nat) (w : W) (t : ThreadAddr) (s : ThreadStatus.t) (m : option Monitor),
    RELEASE = false →
    pastGuards w t s = true →
    validateThreadTransition (statusOf w t) s = false →
    setStatus (S fuel) t s m w = Throw (AssertionError "Invalid thread transition") w.
Proof.
  intros fuel w t s m Hdebug Hg Hv. apply pastGuards_true in Hg as [Hg Hi].
  rewrite setStatus_S. unfold setStatus_body at 1. rewrite bind_thread.
  fold (statusOf w t). rewrite Hg, Hi.
  unfold assert. rewrite Hdebug, Hv. reflexivity.
Qed.

(** X2. The shape of the table of valid transitions: RUNNING is entered from
    RUNNABLE only; BLOCKED, WAITING, TIMED_WAITING and PARKED are entered from
    RUNNING only; UNINTERRUPTABLY_BLOCKED from WAITING and TIMED_WAITING only;
    NEW from TERMINATED only; RUNNABLE can be entered from every other status;
    no status leads to itself, and nothing leaves RUNNABLE except towards
    RUNNING and ASYNC_WAITING. *)
Theorem validTransitions_shape :
  (∀ s, validateThreadTransition s ThreadStatus.RUNNING = true ↔ s = ThreadStatus.RUNNABLE)
  ∧ (∀ s s', s' ∈ [ThreadStatus.BLOCKED; ThreadStatus.WAITING;
                   ThreadStatus.TIMED_WAITING; ThreadStatus.PARKED] →
       (validateThreadTransition s s' = true ↔ s = ThreadStatus.RUNNING))
  ∧ (∀ s, validateThreadTransition s ThreadStatus.UNINTERRUPTABLY_BLOCKED = true
          ↔ s = ThreadStatus.WAITING ∨ s = ThreadStatus.TIMED_WAITING)
  ∧ (∀ s, validateThreadTransition s ThreadStatus.NEW = true ↔ s = ThreadStatus.TERMINATED)
  ∧ (∀ s, s ≠ ThreadStatus.RUNNABLE → validateThreadTransition s ThreadStatus.RUNNABLE = true)
  ∧ (∀ s, validateThreadTransition s s = false)
  ∧ (∀ s', validateThreadTransition ThreadStatus.RUNNABLE s' = true
           ↔ s' = ThreadStatus.RUNNING ∨ s' = ThreadStatus.ASYNC_WAITING).
Proof.
  split; [|split; [|split; [|split; [|split; [|split]]]]].
  - intros s. split; [destruct s; cbn; congruence | intros ->; reflexivity].
  - intros s s' H. rewrite !elem_of_cons in H.
    destruct H as [->|[->|[->|[->|H]]]]; [| | | |inversion H];
      (split; [destruct s; cbn; congruence | intros ->; reflexivity]).
  - intros s. split; [destruct s; cbn; intros; try discriminate; auto|].
    intros [-> | ->]; reflexivity.
  - intros s. split; [destruct s; cbn; congruence | intros ->; reflexivity].
  - intros s. destruct s; cbn; congruence.
  - intros s. destruct s; reflexivity.
  - intros s'. split; [destruct s'; cbn; intros; try discriminate; auto|].
    intros [-> | ->]; reflexivity.
Qed.

Lemma preTransition_none n t s (w : W) :
  s ≠ ThreadStatus.TERMINATED → s ≠ ThreadStatus.PARKED →
  preTransition (asyncReturn n) t s w = Ok tt w.
Proof. intros H1 H2. destruct s; try reflexivity; congruence. Qed.

Lemma threadSuspended_eq t (w : W) :
  threadSuspended t w
  = Ok tt (if bool_decide (ThreadPool.runningThread (tpool w) = Some t)
           then with_immediates (immediates w ++ [CbScheduleNextThread])
                  (updPool (ThreadPool.with_runningThread None) w)
           else w).
Proof.
  unfold threadSuspended. rewrite bind_pool.
  destruct (bool_decide (ThreadPool.runningThread (tpool w) = Some t)); reflexivity.
Qed.

Lemma threadRunnable_eq t (w : W) :
  threadRunnable t w
  = Ok tt (match ThreadPool.runningThread (tpool w) with
           | None => with_immediates (immediates w ++ [CbScheduleNextThread]) w
           | Some _ => w
           end).
Proof.
  unfold threadRunnable. rewrite bind_pool.
  destruct (ThreadPool.runningThread (tpool w)); reflexivity.
Qed.

Lemma statusOf_transitionOpened t s (w : W) : statusOf (transitionOpened t s w) t = s.
Proof. unfold statusOf, transitionOpened. wsimpl. reflexivity. Qed.

Lemma statusOnly_transitionOpened t s (w : W) : statusOnly t w (transitionOpened t s w).
Proof.
  unfold statusOnly, transitionOpened, stackOf, refOf. wsimpl.
  repeat split; try reflexivity.
  intros t' Hne. apply Nat.eqb_neq in Hne. rewrite Hne. reflexivity.
Qed.

Lemma statusOnly_monitor t m (w0 w : W) :
  statusOnly t w0 w → statusOnly t w0 (updThread t (JVMThread.with_monitor m) w).
Proof.
  unfold statusOnly, stackOf, refOf. wsimpl.
  intros (H1 & H2 & H3 & H4 & H5 & H6 & H7 & H8 & H9 & H10 & H11 & H12).
  repeat split; try assumption.
  intros t' Hne. rewrite <- (H1 t' Hne). apply Nat.eqb_neq in Hne. rewrite Hne. reflexivity.
Qed.

Lemma statusOnly_freed t (w0 w : W) q :
  statusOnly t w0 w →
  statusOnly t w0 (with_immediates q (updPool (ThreadPool.with_runningThread None) w)).
Proof.
  unfold statusOnly, stackOf, refOf. wsimpl.
  intros (H1 & H2 & H3 & H4 & H5 & H6 & H7 & H8 & H9 & H10 & H11 & H12).
  repeat split; assumption.
Qed.

Lemma statusOnly_immediates t (w0 w : W) q :
  statusOnly t w0 w → statusOnly t w0 (with_immediates q w).
Proof.
  unfold statusOnly, stackOf, refOf. wsimpl.
  intros (H1 & H2 & H3 & H4 & H5 & H6 & H7 & H8 & H9 & H10 & H11 & H12).
  repeat split; assumption.
Qed.

(** X3. A transition to a waiting status (ASYNC_WAITING, BLOCKED,
    UNINTERRUPTABLY_BLOCKED, WAITING, TIMED_WAITING, PARKED or NEW) of a
    thread that is neither PARKED nor TERMINATED, allowed by the table or made
    in a release build, with a monitor where the status needs one: the call
    returns; the thread has the new status, the threadStatus field holds its
    JVMTI number, and the monitor of the thread is the one given for the four
    monitor statuses and null for the others.  If the thread was the running
    thread of the pool, the pool has no running thread any more and exactly
    one scheduling closure was queued; otherwise the running thread and the
    queue are as before.  Nothing else changes: no stack, no frame, no other
    thread, no call into another module. *)
Theorem setStatus_suspends :
  ∀ (fuel : nat) (w : W) (t : ThreadAddr) (s : ThreadStatus.t) (m : option Monitor),
    suspends s = true →
    statusOf w t ≠ s →
    statusOf w t ≠ ThreadStatus.PARKED →
    statusOf w t ≠ ThreadStatus.TERMINATED →
    RELEASE = true ∨ validateThreadTransition (statusOf w t) s = true →
    (needsMonitor s = true → RELEASE = true ∨ is_Some m) →
    ∃ w', setStatus (S fuel) t s m w = Ok tt w'
      ∧ statusOf w' t = s
      ∧ threadStatusOf w' t = jvmNewStatus s
      ∧ monitorOf w' t = (if needsMonitor s then m else None)
      ∧ statusOnly t w w'
      ∧ (if bool_decide (ThreadPool.runningThread (tpool w) = Some t)
         then ThreadPool.runningThread (tpool w') = None
              ∧ immediates w' = immediates w ++ [CbScheduleNextThread]
         else ThreadPool.runningThread (tpool w') = ThreadPool.runningThread (tpool w)
              ∧ immediates w' = immediates w).
Proof.
  intros fuel w t s m Hsus Hne Hnp Hnt Hv Hm.
  assert (Hg : pastGuards w t s = true).
  { unfold pastGuards. destruct (statusOf w t), s; try discriminate; try congruence;
      rewrite ?andb_false_r; reflexivity. }
  rewrite (setStatus_performed _ _ _ _ _ Hg Hv).
  rewrite (bind_Ok _ _ _ _ _ (preTransition_none _ _ _ _ Hnt Hnp)).
  unfold postTransition. rewrite bind_getStatus, statusOf_transitionOpened.
  set (w1 := transitionOpened t s w).
  assert (H1 : statusOf w1 t = s) by apply statusOf_transitionOpened.
  assert (H2 : threadStatusOf w1 t = jvmNewStatus s)
    by (unfold w1, threadStatusOf, transitionOpened; wsimpl; reflexivity).
  assert (H3 : monitorOf w1 t = None)
    by (unfold w1, monitorOf, transitionOpened; wsimpl; reflexivity).
  assert (H4 : statusOnly t w w1) by apply statusOnly_transitionOpened.
  assert (H5 : tpool w1 = tpool w ∧ immediates w1 = immediates w) by (split; reflexivity).
  destruct H5 as [H5 H6].
  assert (Hend : ∀ (w2 : W),
    statusOf w2 t = s → threadStatusOf w2 t = jvmNewStatus s →
    monitorOf w2 t = (if needsMonitor s then m else None) →
    statusOnly t w w2 → tpool w2 = tpool w → immediates w2 = immediates w →
    ∃ w', threadSuspended t w2 = Ok tt w'
      ∧ statusOf w' t = s
      ∧ threadStatusOf w' t = jvmNewStatus s
      ∧ monitorOf w' t = (if needsMonitor s then m else None)
      ∧ statusOnly t w w'
      ∧ (if bool_decide (ThreadPool.runningThread (tpool w) = Some t)
         then ThreadPool.runningThread (tpool w') = None
              ∧ immediates w' = immediates w ++ [CbScheduleNextThread]
         else ThreadPool.runningThread (tpool w') = ThreadPool.runningThread (tpool w)
              ∧ immediates w' = immediates w)).
  { intros w2 G1 G2 G3 G4 G5 G6. rewrite threadSuspended_eq, G5.
    destruct (bool_decide (ThreadPool.runningThread (tpool w) = Some t)).
    - eexists. split; [reflexivity|].
      split_and!; try assumption; try (apply statusOnly_freed; assumption);
        cbn; rewrite ?G6; reflexivity.
    - exists w2. split_and!; try assumption; try reflexivity. rewrite G5. reflexivity. }
  assert (Hmon : needsMonitor s = true →
    (assert (bool_decide (is_Some m)) "" ;;;
     setThread t (JVMThread.with_monitor m) ;;; threadSuspended t) w1
    = threadSuspended t (updThread t (JVMThread.with_monitor m) w1)).
  { intros Hn. unfold assert.
    destruct (Hm Hn) as [-> | Hsome]; [reflexivity|].
    rewrite (bool_decide_eq_true_2 _ Hsome). destruct RELEASE; reflexivity. }
  destruct s; try discriminate Hsus;
    first [ rewrite (Hmon eq_refl); apply Hend;
            [ unfold statusOf; wsimpl; exact H1
            | unfold threadStatusOf; wsimpl; exact H2
            | unfold monitorOf; wsimpl; reflexivity
            | apply statusOnly_monitor; exact H4
            | exact H5 | exact H6 ]
          | apply Hend; assumption ].
Qed.

(** X4. In a debug build, a transition to BLOCKED, UNINTERRUPTABLY_BLOCKED,
    WAITING or TIMED_WAITING that the table allows but that comes without a
    monitor throws on the assertion of the second switch, after the status was
    written: the thread has the new status and no monitor, and the pool was
    not told (it keeps its running thread, nothing is queued). *)
Theorem setStatus_monitor_missing :
  ∀ (fuel : nat) (w : W) (t : ThreadAddr) (s : ThreadStatus.t),
    RELEASE = false →
    needsMonitor s = true →
    validateThreadTransition (statusOf w t) s = true →
    setStatus (S fuel) t s None w = Throw (AssertionError "") (transitionOpened t s w)
    ∧ statusOf (transitionOpened t s w) t = s
    ∧ monitorOf (transitionOpened t s w) t = None
    ∧ tpool (transitionOpened t s w) = tpool w
    ∧ immediates (transitionOpened t s w) = immediates w.
Proof.
  intros fuel w t s Hdebug Hn Hv.
  assert (Hg : pastGuards w t s = true).
  { unfold pastGuards. destruct (statusOf w t), s; try discriminate; rewrite ?andb_false_r; reflexivity. }
  assert (Hold : statusOf w t ≠ ThreadStatus.TERMINATED ∧ statusOf w t ≠ ThreadStatus.PARKED).
  { destruct (statusOf w t), s; try discriminate; split; discriminate. }
  split; [|split_and!; try reflexivity;
             unfold statusOf, monitorOf, transitionOpened; wsimpl; reflexivity].
  rewrite (setStatus_performed _ _ _ _ _ Hg (or_intror Hv)).
  rewrite (bind_Ok _ _ _ _ _ (preTransition_none _ _ _ _ (proj1 Hold) (proj2 Hold))).
  unfold postTransition. rewrite bind_getStatus, statusOf_transitionOpened.
  unfold assert. rewrite Hdebug.
  destruct s; try discriminate Hn; reflexivity.
Qed.

(** X5. [setStatus(RUNNABLE)] on a thread that is not RUNNING, PARKED or
    TERMINATED (and not already RUNNABLE) returns in every build: every such
    transition is in the table.  The thread is RUNNABLE with the JVMTI number
    of RUNNABLE and no monitor.  One scheduling closure is queued exactly when
    the pool has no running thread; the running thread of the pool is never
    changed, and nothing else is. *)
Theorem setStatus_RUNNABLE_wakes :
  ∀ (fuel : nat) (w : W) (t : ThreadAddr) (m : option Monitor),
    statusOf w t ∉ [ThreadStatus.RUNNING; ThreadStatus.RUNNABLE;
                    ThreadStatus.PARKED; ThreadStatus.TERMINATED] →
    ∃ w', setStatus (S fuel) t ThreadStatus.RUNNABLE m w = Ok tt w'
      ∧ statusOf w' t = ThreadStatus.RUNNABLE
      ∧ threadStatusOf w' t = jvmNewStatus ThreadStatus.RUNNABLE
      ∧ monitorOf w' t = None
      ∧ statusOnly t w w'
      ∧ ThreadPool.runningThread (tpool w') = ThreadPool.runningThread (tpool w)
      ∧ immediates w'
        = match ThreadPool.runningThread (tpool w) with
          | None => immediates w ++ [CbScheduleNextThread]
          | Some _ => immediates w
          end.
Proof.
  intros fuel w t m Hs. rewrite !not_elem_of_cons in Hs.
  destruct Hs as (Hnr & Hne & Hnp & Hnt & _).
  assert (Hg : pastGuards w t ThreadStatus.RUNNABLE = true).
  { unfold pastGuards. destruct (statusOf w t); try congruence; rewrite ?andb_false_r; reflexivity. }
  assert (Hv : validateThreadTransition (statusOf w t) ThreadStatus.RUNNABLE = true).
  { destruct (statusOf w t); try congruence; reflexivity. }
  rewrite (setStatus_performed _ _ _ _ _ Hg (or_intror Hv)).
  rewrite (bind_Ok _ _ _ _ _ (preTransition_none _ _ _ _ Hnt Hnp)).
  unfold postTransition. rewrite bind_getStatus, statusOf_transitionOpened.
  rewrite threadRunnable_eq.
  change (tpool (transitionOpened t ThreadStatus.RUNNABLE w)) with (tpool w).
  pose proof (statusOnly_transitionOpened t ThreadStatus.RUNNABLE w) as Hso.
  destruct (ThreadPool.runningThread (tpool w)) eqn:Hrun.
  - eexists. split; [reflexivity|]. split_and!; try reflexivity; try assumption.
    + apply statusOf_transitionOpened.
    + unfold threadStatusOf, transitionOpened. wsimpl. reflexivity.
    + unfold monitorOf, transitionOpened. wsimpl. reflexivity.
  - eexists. split; [reflexivity|]. split_and!; try reflexivity.
    + unfold statusOf, transitionOpened. wsimpl. reflexivity.
    + unfold threadStatusOf, transitionOpened. wsimpl. reflexivity.
    + unfold monitorOf, transitionOpened. wsimpl. reflexivity.
    + apply statusOnly_immediates, Hso.
    + cbn. exact Hrun.
Qed.

(** *** The list of threads of the pool *)

Lemma indexOfFrom_notin (l : list nat) x i : x ∉ l → indexOfFrom l x i = -1.
Proof.
  revert i. induction l as [|y l IH]; intros i Hx; [reflexivity|]. cbn.
  apply not_elem_of_cons in Hx as [Hne Hx].
  destruct (Nat.eqb_spec y x); [congruence | apply IH, Hx].
Qed.

(** [indexOf] finds the first position of [x]. *)
Lemma indexOfFrom_in (l : list nat) x i :
  x ∈ l →
  ∃ k, indexOfFrom l x i = i + Z.of_nat k ∧ l !! k = Some x ∧ ∀ j, (j < k)%nat → l !! j ≠ Some x.
Proof.
  revert i. induction l as [|y l IH]; intros i Hx; [inversion Hx|]. cbn.
  destruct (Nat.eqb_spec y x) as [->|Hne].
  - exists 0%nat. split; [lia|]. split; [reflexivity|]. intros j Hj. lia.
  - apply elem_of_cons in Hx as [Hx|Hx]; [congruence|].
    destruct (IH (i + 1) Hx) as (k & Hk & Hl & Hfirst).
    exists (S k). split; [lia|]. split; [exact Hl|].
    intros [|j] Hj; cbn; [congruence | apply Hfirst; lia].
Qed.

Lemma indexOf_notin (l : list nat) x : indexOf l x = -1 ↔ x ∉ l.
Proof.
  split.
  - intros Hi Hx. destruct (indexOfFrom_in l x 0 Hx) as (k & Hk & _).
    unfold indexOf in Hi. lia.
  - apply indexOfFrom_notin.
Qed.

Lemma indexOf_in (l : list nat) x :
  x ∈ l →
  ∃ k, indexOf l x = Z.of_nat k ∧ l !! k = Some x ∧ ∀ j, (j < k)%nat → l !! j ≠ Some x.
Proof.
  intros Hx. destruct (indexOfFrom_in l x 0 Hx) as (k & Hk & H). exists k.
  split; [unfold indexOf; lia | exact H].
Qed.

Lemma addThread_eq t (w : W) :
  addThread t w
  = Ok tt (if bool_decide (t ∈ ThreadPool.threads (tpool w)) then w
           else updPool (ThreadPool.with_threads (ThreadPool.threads (tpool w) ++ [t])) w).
Proof.
  unfold addThread. rewrite bind_pool.
  destruct (decide (t ∈ ThreadPool.threads (tpool w))) as [Hin|Hnin].
  - rewrite (bool_decide_eq_true_2 _ Hin).
    destruct (Z.eqb_spec (indexOf (ThreadPool.threads (tpool w)) t) (-1)) as [Heq|_];
      [|reflexivity].
    apply indexOf_notin in Heq. contradiction.
  - rewrite (bool_decide_eq_false_2 _ Hnin).
    apply indexOf_notin in Hnin. rewrite Hnin. reflexivity.
Qed.

(** X6. [addThread] (and so [resurrectThread] and [newThread]) keeps the
    list of the pool free of duplicates: the call returns; a thread already
    in the list leaves the state as it is; a thread not in it is appended at
    the end of the list and nothing else changes.  So the thread is in the
    list afterwards, a list without duplicates stays so, and a second call
    changes nothing. *)
Theorem addThread_once :
  ∀ (w : W) (t : ThreadAddr),
    ∃ w', addThread t w = Ok tt w'
      ∧ resurrectThread t w = Ok tt w'
      ∧ t ∈ ThreadPool.threads (tpool w')
      ∧ (t ∈ ThreadPool.threads (tpool w) → w' = w)
      ∧ (t ∉ ThreadPool.threads (tpool w) →
         w' = updPool (ThreadPool.with_threads (ThreadPool.threads (tpool w) ++ [t])) w)
      ∧ (NoDup (ThreadPool.threads (tpool w)) → NoDup (ThreadPool.threads (tpool w')))
      ∧ addThread t w' = Ok tt w'.
Proof.
  intros w t. unfold resurrectThread. rewrite addThread_eq.
  destruct (decide (t ∈ ThreadPool.threads (tpool w))) as [Hin|Hnin].
  - rewrite (bool_decide_eq_true_2 _ Hin). exists w.
    split_and!; auto; try contradiction.
    rewrite addThread_eq, (bool_decide_eq_true_2 _ Hin). reflexivity.
  - rewrite (bool_decide_eq_false_2 _ Hnin). eexists. split_and!; try reflexivity.
    + cbn. apply elem_of_app. right. apply list_elem_of_singleton. reflexivity.
    + contradiction.
    + intros Hnd. cbn. apply NoDup_app. split_and!; [exact Hnd| |apply NoDup_singleton].
      intros x Hx Hx'. apply list_elem_of_singleton in Hx'. subst. contradiction.
    + rewrite addThread_eq. cbn [tpool updPool with_tpool ThreadPool.threads ThreadPool.with_threads].
      rewrite bool_decide_eq_true_2; [reflexivity|].
      apply elem_of_app. right. apply list_elem_of_singleton. reflexivity.
Qed.

(** X7. [newThread(threadObj)] puts a thread in the NEW state, with an empty
    stack, not interrupted, not immortal, without monitor, around the Java
    object it is given, whose fields it does not write; when the new object
    is not yet in the list it is appended at the end; no other thread
    changes. *)
Theorem newThread_NEW :
  ∀ (w : W) (a : ThreadAddr) (threadObj : java_lang_Thread.t),
    a ∉ ThreadPool.threads (tpool w) →
    ∃ w', newThread a threadObj w = Ok a w'
      ∧ threadObjs w' a = JVMThread.mk ThreadStatus.NEW [] false false None threadObj
      ∧ (∀ t, t ≠ a → threadObjs w' t = threadObjs w t)
      ∧ ThreadPool.threads (tpool w') = ThreadPool.threads (tpool w) ++ [a]
      ∧ ThreadPool.runningThread (tpool w') = ThreadPool.runningThread (tpool w)
      ∧ ThreadPool.runningThreadIndex (tpool w') = ThreadPool.runningThreadIndex (tpool w)
      ∧ immediates w' = immediates w
      ∧ calls w' = calls w.
Proof.
  intros w a threadObj Hnin. unfold newThread, setThread.
  rewrite bind_modify.
  set (w1 := updThread a _ w).
  assert (Hnin1 : a ∉ ThreadPool.threads (tpool w1)) by exact Hnin.
  rewrite (bind_Ok _ _ _ _ _ (addThread_eq a w1)), (bool_decide_eq_false_2 _ Hnin1).
  eexists. split; [reflexivity|]. split_and!; try reflexivity.
  - unfold w1. wsimpl. reflexivity.
  - intros t Hne. unfold w1. wsimpl. apply Nat.eqb_neq in Hne. rewrite Hne. reflexivity.
Qed.

Lemma splice1_delete {A} (l : list A) (k : nat) :
  (k < length l)%nat → splice1 l (Z.of_nat k) = delete k l.
Proof.
  intros Hk. unfold splice1.
  destruct (Z.ltb_spec (Z.of_nat k) 0) as [H|_]; [lia|].
  rewrite Z.min_l by lia. rewrite Nat2Z.id. symmetry. apply delete_take_drop.
Qed.

Lemma splice1_last {A} (l : list A) : splice1 l (-1) = removelast l.
Proof.
  unfold splice1. cbn [Z.ltb Z.compare].
  destruct l as [|x l]; [reflexivity|].
  rewrite Z.max_l by (cbn [length]; lia).
  replace (Z.to_nat (Z.of_nat (length (x :: l)) + -1)) with (length l) by (cbn [length]; lia).
  rewrite (drop_ge (x :: l)) by (cbn [length]; lia). rewrite app_nil_r.
  rewrite removelast_firstn_len. reflexivity.
Qed.

Lemma anySchedulable_true (w : W) (ts : list ThreadAddr) :
  anySchedulable w ts = true ↔ ∃ a, a ∈ ts ∧ keepsAlive w a.
Proof.
  unfold keepsAlive, statusOf. induction ts as [|a ts IH]; cbn [anySchedulable].
  - split; [discriminate | intros (a & Ha & _); inversion Ha].
  - destruct (Z.eqb_spec (java_lang_Thread.daemon (JVMThread.jvmThreadObj (threadObjs w a))) 0)
      as [Hd|Hd]; cbn [negb].
    + destruct (JVMThread.status (threadObjs w a)) eqn:Hs; cbn;
        try (split; [intros _; exists a; split; [left|rewrite Hs; split_and!; [exact Hd|discriminate..]]
                    | reflexivity]).
      all: rewrite IH; split;
        [ intros (b & Hb & H); exists b; split; [right; exact Hb | exact H]
        | intros (b & Hb & H); apply elem_of_cons in Hb as [->|Hb];
          [ rewrite Hs in H; destruct H as (_ & H1 & H2); congruence
          | exists b; split; assumption ] ].
    + rewrite IH. split.
      * intros (b & Hb & H). exists b. split; [right; exact Hb | exact H].
      * intros (b & Hb & H). apply elem_of_cons in Hb as [->|Hb];
          [destruct H as (H & _); congruence | exists b; split; assumption].
Qed.

Lemma lookupZ_nat {A} (l : list A) (k : nat) : lookupZ l (Z.of_nat k) = l !! k.
Proof.
  unfold lookupZ. destruct (Z.ltb_spec (Z.of_nat k) 0); [lia|]. rewrite Nat2Z.id. reflexivity.
Qed.

(** The two reads and the assertion that open [threadTerminated], for a
    thread of the list. *)
Lemma threadTerminated_in t (w : W) :
  t ∈ ThreadPool.threads (tpool w) →
  ∃ k, ThreadPool.threads (tpool w) !! k = Some t
    ∧ (∀ j, (j < k)%nat → ThreadPool.threads (tpool w) !! j ≠ Some t)
    ∧ threadTerminated t w
      = (let* p := pool in
         if bool_decide (ThreadPool.runningThread p = Some t) then
           setPool (ThreadPool.with_runningThread None) ;;;
           setPool (fun p => ThreadPool.with_runningThreadIndex (ThreadPool.runningThreadIndex p - 1) p) ;;;
           let* any := anySchedulableThreads t in
           if any then scheduleNextThread
           else
             let* down := get JVM_isShutdown in
             if negb down then extern (EvSystemExit t) (System_exit t)
             else extern EvEmptyCallback ThreadPool_emptyCallback
         else
           setPool (fun p =>
             ThreadPool.with_runningThreadIndex
               (match ThreadPool.runningThread p with
                | Some r => indexOf (ThreadPool.threads p) r
                | None => -1
                end) p))
          (updPool (ThreadPool.with_threads (delete k (ThreadPool.threads (tpool w)))) w).
Proof.
  intros Hin. destruct (indexOf_in _ _ Hin) as (k & Hk & Hl & Hfirst).
  exists k. split; [exact Hl|]. split; [exact Hfirst|].
  unfold threadTerminated at 1. rewrite bind_pool, Hk.
  assert (Ha : assert (0 <=? Z.of_nat k) "" w = Ok tt w).
  { unfold assert. destruct RELEASE; [reflexivity|].
    destruct (Z.leb_spec 0 (Z.of_nat k)); [reflexivity | lia]. }
  rewrite (bind_Ok _ _ _ _ _ Ha). unfold setPool at 1. rewrite bind_modify.
  rewrite splice1_delete by (apply lookup_lt_Some in Hl; exact Hl).
  reflexivity.
Qed.

(** X8. [threadTerminated] of a thread of the list that is not the running
    thread: the call returns; the first occurrence of the thread is removed
    from the list and the order of the others is kept; the running thread is
    as before and the running index is set to its position in the new list,
    so it still points at the running thread; with no running thread the
    index is set to -1.  Nothing is queued, no other module is called, no
    thread object changes and the park counts stay. *)
Theorem threadTerminated_other :
  ∀ (w : W) (t : ThreadAddr),
    t ∈ ThreadPool.threads (tpool w) →
    ThreadPool.runningThread (tpool w) ≠ Some t →
    ∃ w' k,
      threadTerminated t w = Ok tt w'
      ∧ ThreadPool.threads (tpool w) !! k = Some t
      ∧ (∀ j, (j < k)%nat → ThreadPool.threads (tpool w) !! j ≠ Some t)
      ∧ ThreadPool.threads (tpool w') = delete k (ThreadPool.threads (tpool w))
      ∧ ThreadPool.runningThread (tpool w') = ThreadPool.runningThread (tpool w)
      ∧ (∀ r, ThreadPool.runningThread (tpool w) = Some r →
              r ∈ ThreadPool.threads (tpool w) →
              lookupZ (ThreadPool.threads (tpool w')) (ThreadPool.runningThreadIndex (tpool w'))
              = Some r)
      ∧ (ThreadPool.runningThread (tpool w) = None →
         ThreadPool.runningThreadIndex (tpool w') = -1)
      ∧ ThreadPool.parkCounts (tpool w') = ThreadPool.parkCounts (tpool w)
      ∧ threadObjs w' = threadObjs w
      ∧ frameObjs w' = frameObjs w
      ∧ immediates w' = immediates w
      ∧ calls w' = calls w.
Proof.
  intros w t Hin Hrun.
  destruct (threadTerminated_in t w Hin) as (k & Hl & Hfirst & Heq).
  rewrite Heq. rewrite bind_pool.
  cbn [tpool updPool with_tpool ThreadPool.runningThread ThreadPool.with_threads].
  rewrite (bool_decide_eq_false_2 _ Hrun).
  eexists. exists k. split; [reflexivity|].
  split_and!; try reflexivity; try assumption.
  - intros r Hr Hrin. cbn. rewrite Hr.
    assert (Hne : r ≠ t) by (intros ->; apply Hrun, Hr).
    assert (Hin' : r ∈ delete k (ThreadPool.threads (tpool w))).
    { apply list_elem_of_lookup in Hrin as (i & Hi).
      apply list_elem_of_lookup.
      destruct (decide (i < k)%nat) as [Hlt|Hge].
      - exists i. rewrite list_lookup_delete_lt by exact Hlt. exact Hi.
      - assert (i ≠ k) by (intros ->; rewrite Hl in Hi; congruence).
        exists (pred i). rewrite list_lookup_delete_ge by lia.
        replace (S (pred i)) with i by lia. exact Hi. }
    destruct (indexOf_in _ _ Hin') as (k' & Hk' & Hl' & _).
    fold (indexOf (delete k (ThreadPool.threads (tpool w))) r).
    rewrite Hk', lookupZ_nat. exact Hl'.
  - intros Hr. cbn. rewrite Hr. reflexivity.
Qed.

(** [threadTerminated] of the running thread, past the removal. *)
Lemma threadTerminated_running_eq (w : W) (t : ThreadAddr) :
  t ∈ ThreadPool.threads (tpool w) →
  ThreadPool.runningThread (tpool w) = Some t →
  ∃ k, ThreadPool.threads (tpool w) !! k = Some t
    ∧ (∀ j, (j < k)%nat → ThreadPool.threads (tpool w) !! j ≠ Some t)
    ∧ threadTerminated t w
      = (if anySchedulable (runningThreadRemoved k w) (delete k (ThreadPool.threads (tpool w)))
         then scheduleNextThread
         else
           let* down := get JVM_isShutdown in
           if negb down then extern (EvSystemExit t) (System_exit t)
           else extern EvEmptyCallback ThreadPool_emptyCallback) (runningThreadRemoved k w).
Proof.
  intros Hin Hrun.
  destruct (threadTerminated_in t w Hin) as (k & Hl & Hfirst & Heq).
  exists k. split; [exact Hl|]. split; [exact Hfirst|].
  rewrite Heq, bind_pool.
  cbn [tpool updPool with_tpool ThreadPool.runningThread ThreadPool.with_threads].
  rewrite (bool_decide_eq_true_2 _ Hrun). reflexivity.
Qed.

(** X9. [threadTerminated] of the running thread, which is in the list: its
    first occurrence is removed, the pool has no running thread and the
    running index is one less.  Then exactly one thing happens.  If a thread
    left in the list is not a daemon and is neither NEW nor TERMINATED, one
    scheduling closure is queued and no other module is called.  If there is
    none, the pool calls System.exit(0) when the JVM is not shut down yet, and
    the empty callback when it is: the empty callback is never called while
    such a thread is left or before the shutdown. *)
Theorem threadTerminated_running :
  ∀ (w : W) (t : ThreadAddr),
    t ∈ ThreadPool.threads (tpool w) →
    ThreadPool.runningThread (tpool w) = Some t →
    ∃ k, ThreadPool.threads (tpool w) !! k = Some t
      ∧ (∀ j, (j < k)%nat → ThreadPool.threads (tpool w) !! j ≠ Some t)
      ∧ ((∃ a, a ∈ delete k (ThreadPool.threads (tpool w)) ∧ keepsAlive w a) →
         threadTerminated t w
         = Ok tt (with_immediates (immediates w ++ [CbScheduleNextThread])
                    (runningThreadRemoved k w)))
      ∧ ((∀ a, a ∈ delete k (ThreadPool.threads (tpool w)) → ¬ keepsAlive w a) →
         threadTerminated t w
         = if JVM_isShutdown (runningThreadRemoved k w)
           then extern EvEmptyCallback ThreadPool_emptyCallback (runningThreadRemoved k w)
           else extern (EvSystemExit t) (System_exit t) (runningThreadRemoved k w)).
Proof.
  intros w t Hin Hrun.
  destruct (threadTerminated_running_eq w t Hin Hrun) as (k & Hl & Hfirst & Heq).
  exists k. split; [exact Hl|]. split; [exact Hfirst|].
  rewrite Heq. split.
  - intros Hex.
    apply (anySchedulable_true (runningThreadRemoved k w)) in Hex. rewrite Hex. reflexivity.
  - intros Hall.
    destruct (anySchedulable (runningThreadRemoved k w) (delete k (ThreadPool.threads (tpool w))))
      eqn:Hsch.
    + apply anySchedulable_true in Hsch as (a & Ha & Hk). exfalso. apply (Hall a Ha). exact Hk.
    + rewrite bind_get. destruct (JVM_isShutdown (runningThreadRemoved k w)); reflexivity.
Qed.

Lemma scanOrder_head idx (len : nat) :
  (0 < len)%nat →
  head (scanOrder idx len) = Some ((idx + 1 + 0) mod Z.of_nat len).
Proof.
  intros Hlen. unfold scanOrder. destruct len as [|n]; [lia|].
  rewrite Nat2Z.inj_succ, seqZ_cons by lia. reflexivity.
Qed.

(** X10. When the running thread terminates and a thread that keeps the JVM
    alive is left, the round-robin order is kept: with a list without
    duplicates and the running index at the running thread, the thread is no
    longer in the list, and the first position the next scan looks at holds
    the thread that followed the terminated one in the old list (the first
    thread of the list, if the terminated one was the last). *)
Theorem threadTerminated_keeps_turn :
  ∀ (w : W) (t : ThreadAddr),
    NoDup (ThreadPool.threads (tpool w)) →
    ThreadPool.runningThread (tpool w) = Some t →
    lookupZ (ThreadPool.threads (tpool w)) (ThreadPool.runningThreadIndex (tpool w)) = Some t →
    (∃ a, a ∈ ThreadPool.threads (tpool w) ∧ a ≠ t ∧ keepsAlive w a) →
    ∃ w' i0,
      threadTerminated t w = Ok tt w'
      ∧ ThreadPool.runningThread (tpool w') = None
      ∧ immediates w' = immediates w ++ [CbScheduleNextThread]
      ∧ (t ∉ ThreadPool.threads (tpool w'))
      ∧ head (scanOrder (ThreadPool.runningThreadIndex (tpool w'))
                (length (ThreadPool.threads (tpool w')))) = Some i0
      ∧ lookupZ (ThreadPool.threads (tpool w')) i0
        = lookupZ (ThreadPool.threads (tpool w))
            ((ThreadPool.runningThreadIndex (tpool w) + 1)
               mod Z.of_nat (length (ThreadPool.threads (tpool w)))).
Proof.
  intros w t Hnd Hrun Hidx (a & Ha & Hat & Halive).
  set (l := ThreadPool.threads (tpool w)) in *.
  set (idx := ThreadPool.runningThreadIndex (tpool w)) in *.
  unfold lookupZ in Hidx. destruct (Z.ltb_spec idx 0) as [|Hpos]; [discriminate|].
  assert (Hin : t ∈ l) by (apply list_elem_of_lookup; eauto).
  destruct (threadTerminated_running_eq w t Hin Hrun) as (k & Hl & Hfirst & Hsome).
  fold l in Hl, Hfirst, Hsome.
  assert (Hk : k = Z.to_nat idx) by (eapply NoDup_lookup; eauto).
  assert (Hlen : (k < length l)%nat) by (apply lookup_lt_Some in Hl; exact Hl).
  assert (Ha' : a ∈ delete k l).
  { apply list_elem_of_lookup in Ha as (i & Hi). apply list_elem_of_lookup.
    destruct (decide (i < k)%nat) as [Hlt|Hge].
    - exists i. rewrite list_lookup_delete_lt by exact Hlt. exact Hi.
    - assert (i ≠ k) by (intros ->; rewrite Hl in Hi; congruence).
      exists (pred i). rewrite list_lookup_delete_ge by lia.
      replace (S (pred i)) with i by lia. exact Hi. }
  assert (Hlen2 : (2 <= length l)%nat).
  { apply list_elem_of_lookup in Ha' as (i & Hi). apply lookup_lt_Some in Hi.
    rewrite length_delete in Hi by eauto. lia. }
  rewrite Hsome.
  assert (Hany : anySchedulable (runningThreadRemoved k w) (delete k l) = true)
    by (apply anySchedulable_true; exists a; split; [exact Ha' | exact Halive]).
  rewrite Hany.
  eexists. exists ((idx - 1 + 1 + 0) mod Z.of_nat (length (delete k l))).
  split; [reflexivity|].
  cbn [tpool with_immediates runningThreadRemoved updPool with_tpool immediates
       ThreadPool.runningThread ThreadPool.with_runningThread ThreadPool.with_runningThreadIndex
       ThreadPool.with_threads ThreadPool.threads ThreadPool.runningThreadIndex].
  fold l idx.
  split_and!; try reflexivity.
  - intros Ht. apply list_elem_of_lookup in Ht as (i & Hi).
    destruct (decide (i < k)%nat) as [Hlt|Hge].
    + rewrite list_lookup_delete_lt in Hi by exact Hlt.
      apply (Hfirst i Hlt). exact Hi.
    + rewrite list_lookup_delete_ge in Hi by lia.
      assert (S i = k) by (eapply NoDup_lookup; eauto). lia.
  - apply scanOrder_head. rewrite length_delete by eauto. lia.
  - rewrite length_delete by eauto.
    replace (idx - 1 + 1 + 0) with idx by lia.
    assert (Hidxk : idx = Z.of_nat k) by lia.
    destruct (decide (S k = length l)) as [Hlast|Hnl].
    + replace (Z.of_nat (length l - 1)) with idx by lia.
      rewrite Z.mod_same by lia.
      replace (idx + 1) with (Z.of_nat (length l)) by lia.
      rewrite Z.mod_same by lia.
      change 0 with (Z.of_nat 0). rewrite !lookupZ_nat.
      apply list_lookup_delete_lt. lia.
    + rewrite Z.mod_small by lia. rewrite Z.mod_small by lia.
      rewrite Hidxk. replace (Z.of_nat k + 1) with (Z.of_nat (S k)) by lia.
      rewrite !lookupZ_nat. apply list_lookup_delete_ge. lia.
Qed.

(** X11. [threadTerminated] of a thread that is not in the list: a debug
    build throws on the assertion and changes nothing; a release build goes on
    with the index -1 that [indexOf] returned, and [splice(-1, 1)] removes the
    last thread of the list, whichever it is. *)
Theorem threadTerminated_absent :
  ∀ (w : W) (t : ThreadAddr),
    t ∉ ThreadPool.threads (tpool w) →
    (RELEASE = false → threadTerminated t w = Throw (AssertionError "") w)
    ∧ (RELEASE = true →
       ThreadPool.runningThread (tpool w) ≠ Some t →
       ∃ w', threadTerminated t w = Ok tt w'
         ∧ ThreadPool.threads (tpool w') = removelast (ThreadPool.threads (tpool w))
         ∧ ThreadPool.runningThread (tpool w') = ThreadPool.runningThread (tpool w)
         ∧ threadObjs w' = threadObjs w
         ∧ immediates w' = immediates w
         ∧ calls w' = calls w).
Proof.
  intros w t Hnin. apply indexOf_notin in Hnin.
  split.
  - intros Hdebug. unfold threadTerminated. rewrite bind_pool, Hnin.
    unfold assert. rewrite Hdebug. reflexivity.
  - intros Hrel Hrun. unfold threadTerminated. rewrite bind_pool, Hnin.
    unfold assert. rewrite Hrel. rewrite bind_ret.
    unfold setPool at 1. rewrite bind_modify, bind_pool.
    cbn [tpool updPool with_tpool ThreadPool.runningThread ThreadPool.with_threads].
    rewrite (bool_decide_eq_false_2 _ Hrun).
    eexists. split; [reflexivity|]. split_and!; try reflexivity.
    cbn. apply splice1_last.
Qed.

(** *** Park counts *)

Lemma isParked_eq t (w : W) : isParked t w = Ok (0 <? parkCountOf w t) w.
Proof.
  unfold isParked. rewrite bind_getRef, bind_pool. unfold parkCountOf.
  destruct (ThreadPool.parkCounts (tpool w) !! refOf w t); reflexivity.
Qed.

(** X12. [completelyUnpark] cancels any number of parks: whatever the park
    count of the thread was, the call does not run out of fuel, and in the
    state it ends in (returning or throwing) the count of the thread is 0, so
    [isParked] answers false, and the thread is RUNNABLE, or still RUNNING if
    it was RUNNING. *)
Theorem completelyUnpark_resets :
  ∀ (n : nat) (w : W) (t : ThreadAddr),
    outcome (completelyUnpark (3 + n) t w)
      (fun w' => parkCountOf w' t = 0
                 ∧ isParked t w' = Ok false w'
                 ∧ statusOf w' t = if ThreadStatus.eqb (statusOf w t) ThreadStatus.RUNNING
                                   then ThreadStatus.RUNNING else ThreadStatus.RUNNABLE)
      (fun w' => parkCountOf w' t = 0
                 ∧ isParked t w' = Ok false w'
                 ∧ statusOf w' t = ThreadStatus.RUNNABLE).
Proof.
  intros n w t. unfold completelyUnpark. rewrite bind_getRef.
  rewrite (bind_Ok _ _ _ _ _ (setParkCount_run _ _ _)).
  set (w1 := setCount (refOf w t) 0 w).
  assert (Hc1 : parkCountOf w1 t = 0).
  { unfold parkCountOf, w1, setCount, refOf. wsimpl. rewrite lookup_insert_eq. reflexivity. }
  assert (Hs1 : statusOf w1 t = statusOf w t) by reflexivity.
  destruct (ThreadStatus.eq_dec (statusOf w t) ThreadStatus.RUNNING) as [Hr|Hr].
  - cbn [Nat.add]. rewrite setStatus_ignored by (rewrite Hs1; exact Hr).
    unfold outcome. rewrite isParked_eq, Hc1, Hs1, Hr. auto.
  - eapply outcome_weaken; [apply setStatus_RUNNABLE_view; rewrite Hs1; exact Hr | |].
    + intros w' (Hs & Href & Hpc).
      assert (Hc : parkCountOf w' t = 0) by (unfold parkCountOf; rewrite Href, Hpc; exact Hc1).
      rewrite isParked_eq, Hc, Hs.
      destruct (statusOf w t); try congruence; auto.
    + intros w' (Hs & Href & Hpc).
      assert (Hc : parkCountOf w' t = 0) by (unfold parkCountOf; rewrite Href, Hpc; exact Hc1).
      rewrite isParked_eq, Hc, Hs. auto.
Qed.

(** X13. The debug check that a PARKED thread is parked holds after any
    sequence of [park] and [unpark] calls that returns, on a thread that
    started with a count of 0 and was not PARKED: at the end [isParked]
    answers true exactly when the status of the thread is PARKED. *)
Theorem isParked_iff_PARKED :
  ∀ (n : nat) (w w' : W) (t : ThreadAddr) (calls : list ParkCall),
    parkCountOf w t = 0 →
    statusOf w t ≠ ThreadStatus.PARKED →
    parkCalls (3 + n) t calls w = Ok tt w' →
    isParked t w' = Ok (bool_decide (statusOf w' t = ThreadStatus.PARKED)) w'.
Proof.
  intros n w w' t calls H0 Hnp Hrun.
  destruct (parkCalls_from_zero n w t calls H0) as (_ & Hb).
  destruct (Hb w' Hrun) as (Hc & Hpos & Hneg & _).
  rewrite isParked_eq, Hc.
  destruct (Z.ltb_spec 0 (signedCount calls)) as [Hgt|Hle].
  - rewrite (Hpos Hgt). rewrite bool_decide_eq_true_2 by reflexivity. reflexivity.
  - rewrite bool_decide_eq_false_2; [reflexivity|].
    destruct (Hneg Hle) as [Hs|Hs]; rewrite Hs; congruence.
Qed.

(** *** Returning into the caller *)

Lemma scheduleResume_resumes (w : W) a b t rv rv2 o :
  (∀ o1 o2, OpCode_value o1 = OpCode_value o2 → o1 = o2) →
  frameObjs w a = Bytecode b →
  readUInt8 (Method.code (BytecodeStackFrame.method b)) (BytecodeStackFrame.pc b)
  = Some (OpCode_value o) →
  ∃ w', scheduleResume a t rv rv2 w = Ok tt w'
    ∧ frameObjs w' a = Bytecode (resumedFrame b (specWidth o) rv rv2)
    ∧ (∀ a', a' ≠ a → frameObjs w' a' = frameObjs w a')
    ∧ threadObjs w' = threadObjs w ∧ tpool w' = tpool w
    ∧ immediates w' = immediates w ∧ calls w' = calls w.
Proof.
  intros Hinj Hb Hread.
  unfold scheduleResume, frame. rewrite bind_get, Hb.
  unfold BytecodeStackFrame_scheduleResume. rewrite Hread.
  rewrite (invokeWidth_invoke o Hinj).
  unfold updBytecode at 1. rewrite bind_modify.
  set (w1 := updFrame a _ w).
  assert (Hb1 : frameObjs w1 a
                = Bytecode (BytecodeStackFrame.with_pc (BytecodeStackFrame.pc b + specWidth o) b)).
  { unfold w1. cbn. rewrite Nat.eqb_refl, Hb. reflexivity. }
  destruct (pushOperand_frame a rv w1 _ Hb1) as (w2 & Hr2 & Hb2 & Ho2 & Ht2 & Hp2 & Hi2 & Hc2).
  rewrite (bind_Ok _ _ _ _ _ Hr2).
  destruct (pushOperand_frame a rv2 w2 _ Hb2) as (w3 & Hr3 & Hb3 & Ho3 & Ht3 & Hp3 & Hi3 & Hc3).
  exists w3. split; [exact Hr3|]. split.
  { rewrite Hb3. unfold resumedFrame. cbn. rewrite <- app_assoc. reflexivity. }
  split.
  { intros a' Hne. rewrite Ho3, Ho2 by exact Hne. unfold w1. cbn.
    apply Nat.eqb_neq in Hne. rewrite Hne. reflexivity. }
  rewrite Ht3, Ht2, Hp3, Hp2, Hi3, Hi2, Hc3, Hc2. auto.
Qed.

Lemma status3_assert (w : W) t msg :
  statusOf w t = ThreadStatus.RUNNING ∨ statusOf w t = ThreadStatus.RUNNABLE
  ∨ statusOf w t = ThreadStatus.ASYNC_WAITING →
  assert (ThreadStatus.eqb (statusOf w t) ThreadStatus.RUNNING
          || ThreadStatus.eqb (statusOf w t) ThreadStatus.RUNNABLE
          || ThreadStatus.eqb (statusOf w t) ThreadStatus.ASYNC_WAITING) msg w = Ok tt w.
Proof.
  intros Hs. unfold assert. destruct RELEASE; [reflexivity|].
  destruct Hs as [->|[->| ->]]; reflexivity.
Qed.

Lemma assert_ok (b : bool) msg (w : W) :
  RELEASE = true ∨ b = true → assert b msg w = Ok tt w.
Proof.
  unfold assert. intros [-> | ->]; [reflexivity|]. destruct RELEASE; reflexivity.
Qed.

(** [asyncReturn] up to the call of [scheduleResume], for a thread with a
    frame to pop whose return value passes the checks. *)
Lemma asyncReturn_eq n (w : W) t rv rv2 top :
  statusOf w t = ThreadStatus.RUNNING ∨ statusOf w t = ThreadStatus.RUNNABLE
  ∨ statusOf w t = ThreadStatus.ASYNC_WAITING →
  RELEASE = true
  ∨ (notBoolean rv && looseNull rv2 = true
     ∧ returnValueChecked t rv rv2 (popFrame t w) (frameObjs w top)) →
  last (stackOf w t) = Some top →
  asyncReturn (S n) t rv rv2 w
  = (match last (removelast (stackOf w t)) with
     | Some below => scheduleResume below t rv rv2
     | None => ret tt
     end ;;;
     setStatus n t ThreadStatus.RUNNABLE None) (popFrame t w).
Proof.
  intros Hs Hchk Hlast.
  rewrite asyncReturn_S. unfold asyncReturn_body. rewrite bind_thread.
  fold (statusOf w t). rewrite (bind_Ok _ _ _ _ _ (status3_assert _ _ _ Hs)).
  assert (Ha : assert (notBoolean rv && looseNull rv2) "" w = Ok tt w).
  { apply assert_ok. destruct Hchk as [?|[? _]]; auto. }
  rewrite (bind_Ok _ _ _ _ _ Ha).
  unfold pop. fold (stackOf w t). rewrite Hlast.
  unfold setThread. rewrite bind_modify.
  change (updThread t (JVMThread.with_stack (removelast (stackOf w t))) w) with (popFrame t w).
  unfold frame. rewrite bind_get.
  change (frameObjs (popFrame t w) top) with (frameObjs w top).
  assert (Hv : ∀ m, RELEASE = true ∨ returnValueValid t m rv rv2 (popFrame t w) →
    assertReturnValue t m rv rv2 (popFrame t w) = Ok tt (popFrame t w)).
  { intros m Hm. unfold assertReturnValue. rewrite bind_get.
    destruct Hm as [-> | Hm]; [reflexivity|].
    unfold returnValueValid in Hm. rewrite Hm. destruct RELEASE; reflexivity. }
  destruct (frameObjs w top) as [b|nf|i].
  - assert (Hm : RELEASE = true
                 ∨ returnValueValid t (BytecodeStackFrame.method b) rv rv2 (popFrame t w))
      by (destruct Hchk as [?|[_ ?]]; [left|right]; assumption).
    rewrite (bind_Ok _ _ _ _ _ (Hv _ Hm)). reflexivity.
  - assert (Hm : RELEASE = true
                 ∨ returnValueValid t (NativeStackFrame.method nf) rv rv2 (popFrame t w))
      by (destruct Hchk as [?|[_ ?]]; [left|right]; assumption).
    rewrite (bind_Ok _ _ _ _ _ (Hv _ Hm)). reflexivity.
  - rewrite bind_ret. reflexivity.
Qed.

(** X14. [asyncReturn(rv, rv2)] on a thread that is RUNNING, RUNNABLE or
    ASYNC_WAITING, whose top frame returns into a bytecode frame stopped at an
    invoke opcode (the return value passing the debug checks, or in a release
    build): the call returns; the top frame is popped and no other; the
    caller's pc is past the invoke (5 bytes for the interface invokes, 3 for
    the others) and [rv], then [rv2], are on its operand stack unless
    undefined; no other frame changes; the thread is RUNNABLE, or still
    RUNNING if it was RUNNING; the stacks of the other threads are as before
    and no other module is called. *)
Theorem asyncReturn_resumes_caller :
  ∀ (n : nat) (w : W) (t : ThreadAddr) (rv rv2 : Value) (rest : list FrameAddr)
    (below top : FrameAddr) (b : BytecodeStackFrame.t) (o : OpCode.t),
    (∀ o1 o2, OpCode_value o1 = OpCode_value o2 → o1 = o2) →
    statusOf w t = ThreadStatus.RUNNING ∨ statusOf w t = ThreadStatus.RUNNABLE
    ∨ statusOf w t = ThreadStatus.ASYNC_WAITING →
    RELEASE = true
    ∨ (notBoolean rv && looseNull rv2 = true
       ∧ returnValueChecked t rv rv2 (popFrame t w) (frameObjs w top)) →
    stackOf w t = rest ++ [below; top] →
    frameObjs w below = Bytecode b →
    readUInt8 (Method.code (BytecodeStackFrame.method b)) (BytecodeStackFrame.pc b)
    = Some (OpCode_value o) →
    ∃ w', asyncReturn (2 + n) t rv rv2 w = Ok tt w'
      ∧ stackOf w' t = rest ++ [below]
      ∧ frameObjs w' below = Bytecode (resumedFrame b (specWidth o) rv rv2)
      ∧ (∀ a, a ≠ below → frameObjs w' a = frameObjs w a)
      ∧ statusOf w' t = afterRunnable (statusOf w t)
      ∧ (∀ t', t' ≠ t → stackOf w' t' = stackOf w t')
      ∧ calls w' = calls w.
Proof.
  intros n w t rv rv2 rest below top b o Hinj Hs Hchk Hstack Hb Hread.
  assert (Hlast : last (stackOf w t) = Some top).
  { rewrite Hstack. change [below; top] with ([below] ++ [top]).
    rewrite app_assoc, last_snoc. reflexivity. }
  assert (Hrem : removelast (stackOf w t) = rest ++ [below]).
  { rewrite Hstack. change [below; top] with ([below] ++ [top]).
    rewrite app_assoc, removelast_last. reflexivity. }
  cbn [Nat.add]. rewrite (asyncReturn_eq _ _ _ _ _ _ Hs Hchk Hlast).
  rewrite Hrem, last_snoc.
  destruct (scheduleResume_resumes (popFrame t w) below b t rv rv2 o Hinj Hb Hread)
    as (w2 & Hrun2 & Hb2 & Ho2 & Ht2 & Hp2 & Hi2 & Hc2).
  rewrite (bind_Ok _ _ _ _ _ Hrun2).
  assert (Hs2 : statusOf w2 t = statusOf w t).
  { unfold statusOf. rewrite Ht2. unfold popFrame. wsimpl. reflexivity. }
  destruct (setStatus_RUNNABLE_from3 n w2 t ltac:(rewrite Hs2; exact Hs))
    as (w3 & Hrun3 & (Hst3 & Hfr3 & Hcalls3 & _) & Hs3).
  exists w3. split; [exact Hrun3|]. split_and!.
  - rewrite Hst3. unfold stackOf. rewrite Ht2. unfold popFrame. wsimpl.
    fold (stackOf w t). exact Hrem.
  - rewrite Hfr3. exact Hb2.
  - intros a Hne. rewrite Hfr3. rewrite (Ho2 a Hne). reflexivity.
  - rewrite Hs3, Hs2. reflexivity.
  - intros t' Hne. rewrite Hst3. unfold stackOf. rewrite Ht2. unfold popFrame. wsimpl.
    apply Nat.eqb_neq in Hne. rewrite Hne. reflexivity.
  - rewrite Hcalls3, Hc2. reflexivity.
Qed.

(** X15. The edges of [asyncReturn].  In a debug build a call on a thread
    that is not RUNNING, RUNNABLE or ASYNC_WAITING, or with a boolean [rv] or
    an [rv2] that is neither null nor undefined, throws on an assertion and
    changes nothing.  Past the assertions, a call on a thread with an empty
    stack throws a TypeError (there is no frame to read the type of), the
    stack still empty.  A call that pops the only frame of the thread, with a
    return value that passes the check of [validateReturnValue] (or in a
    release build), returns with the stack empty and no frame resumed; the
    thread is RUNNABLE, or still RUNNING if it was RUNNING. *)
Theorem asyncReturn_edges :
  ∀ (n : nat) (w : W) (t : ThreadAddr) (rv rv2 : Value),
    (RELEASE = false →
     statusOf w t ∉ [ThreadStatus.RUNNING; ThreadStatus.RUNNABLE; ThreadStatus.ASYNC_WAITING]
     ∨ notBoolean rv && looseNull rv2 = false →
     asyncReturn (S n) t rv rv2 w = Throw (AssertionError "") w)
    ∧ (RELEASE = true
       ∨ (statusOf w t ∈ [ThreadStatus.RUNNING; ThreadStatus.RUNNABLE; ThreadStatus.ASYNC_WAITING]
          ∧ notBoolean rv && looseNull rv2 = true) →
       stackOf w t = [] →
       asyncReturn (S n) t rv rv2 w
       = Throw (TypeError "Cannot read property 'type' of undefined") (popFrame t w)
       ∧ stackOf (popFrame t w) t = [])
    ∧ (∀ top,
         statusOf w t = ThreadStatus.RUNNING ∨ statusOf w t = ThreadStatus.RUNNABLE
         ∨ statusOf w t = ThreadStatus.ASYNC_WAITING →
         RELEASE = true
         ∨ (notBoolean rv && looseNull rv2 = true
            ∧ returnValueChecked t rv rv2 (popFrame t w) (frameObjs w top)) →
         stackOf w t = [top] →
         ∃ w', asyncReturn (2 + n) t rv rv2 w = Ok tt w'
           ∧ stackOf w' t = []
           ∧ frameObjs w' = frameObjs w
           ∧ statusOf w' t = afterRunnable (statusOf w t)
           ∧ calls w' = calls w).
Proof.
  intros n w t rv rv2. split_and!.
  - intros Hdebug Hbad.
    rewrite asyncReturn_S. unfold asyncReturn_body. rewrite bind_thread.
    fold (statusOf w t). unfold assert. rewrite Hdebug.
    destruct Hbad as [Hs|Hv].
    + rewrite !not_elem_of_cons in Hs. destruct Hs as (H1 & H2 & H3 & _).
      destruct (statusOf w t); try congruence; reflexivity.
    + destruct (ThreadStatus.eqb (statusOf w t) ThreadStatus.RUNNING
                || ThreadStatus.eqb (statusOf w t) ThreadStatus.RUNNABLE
                || ThreadStatus.eqb (statusOf w t) ThreadStatus.ASYNC_WAITING);
        [|reflexivity].
      rewrite bind_ret, Hv. reflexivity.
  - intros Hok Hstack. split.
    + rewrite asyncReturn_S. unfold asyncReturn_body. rewrite bind_thread.
      fold (statusOf w t).
      assert (Ha1 : ∀ msg, assert (ThreadStatus.eqb (statusOf w t) ThreadStatus.RUNNING
                || ThreadStatus.eqb (statusOf w t) ThreadStatus.RUNNABLE
                || ThreadStatus.eqb (statusOf w t) ThreadStatus.ASYNC_WAITING) msg w = Ok tt w).
      { intros msg. apply assert_ok. destruct Hok as [?|[Hs _]]; [left; assumption|right].
        rewrite !elem_of_cons in Hs. destruct Hs as [->|[->|[->|Hs]]]; [reflexivity..|inversion Hs]. }
      rewrite (bind_Ok _ _ _ _ _ (Ha1 _)).
      assert (Ha2 : assert (notBoolean rv && looseNull rv2) "" w = Ok tt w).
      { apply assert_ok. destruct Hok as [?|[_ ?]]; auto. }
      rewrite (bind_Ok _ _ _ _ _ Ha2).
      unfold pop. fold (stackOf w t). rewrite Hstack. cbn [last removelast].
      unfold setThread. rewrite bind_modify. cbn [bind throw].
      unfold popFrame. fold (stackOf w t).
      replace (updThread t (λ th : JVMThread.t,
                 JVMThread.with_stack (removelast (JVMThread.stack th)) th) w)
        with (updThread t (JVMThread.with_stack []) w); [reflexivity|].
      unfold updThread. fold (stackOf w t). rewrite Hstack. reflexivity.
    + unfold popFrame, stackOf. wsimpl. fold (stackOf w t). rewrite Hstack. reflexivity.
  - intros top Hs Hchk Hstack.
    assert (Hlast : last (stackOf w t) = Some top) by (rewrite Hstack; reflexivity).
    cbn [Nat.add]. rewrite (asyncReturn_eq _ _ _ _ _ _ Hs Hchk Hlast).
    rewrite Hstack. cbn [removelast last]. rewrite bind_ret.
    assert (Hs2 : statusOf (popFrame t w) t = statusOf w t).
    { unfold statusOf, popFrame. wsimpl. reflexivity. }
    destruct (setStatus_RUNNABLE_from3 n (popFrame t w) t ltac:(rewrite Hs2; exact Hs))
      as (w3 & Hrun3 & (Hst3 & Hfr3 & Hcalls3 & _) & Hs3).
    exists w3. split; [exact Hrun3|]. split_and!.
    + rewrite Hst3. unfold stackOf, popFrame. wsimpl. fold (stackOf w t).
      rewrite Hstack. reflexivity.
    + rewrite Hfr3. reflexivity.
    + rewrite Hs3, Hs2. reflexivity.
    + rewrite Hcalls3. reflexivity.
Qed.

(** *** Running a native frame *)

Lemma currentMethod_eq t (w : W) :
  currentMethod t w
  = match last (stackOf w t) with
    | None => Ok None w
    | Some a =>
        match frameMethod (frameObjs w a) with
        | Some m => Ok (Some m) w
        | None => Throw (TypeError "Cannot read property 'method' of null") w
        end
    end.
Proof.
  unfold currentMethod. rewrite bind_thread. fold (stackOf w t).
  destruct (last (stackOf w t)) as [a|]; [|reflexivity].
  unfold frame. rewrite bind_get. destruct (frameObjs w a); reflexivity.
Qed.

(** [NativeStackFrame.run] up to the decision to return. *)
Lemma NativeStackFrame_run_eq k a nf t (w w1 : W) rv :
  frameObjs w a = Native nf →
  nativeFunction (NativeStackFrame.method nf) t (NativeStackFrame.args nf) w = ExtOk rv w1 →
  frameRun (S k) a t w
  = (let* st := getStatus t in
     if ThreadStatus.eqb st ThreadStatus.RUNNING then
       let* cm := currentMethod t in
       if bool_decide (cm = Some (NativeStackFrame.method nf)) then
         asyncReturn k t
           (fst (nativeReturnValues (Method.returnType (NativeStackFrame.method nf)) rv))
           (snd (nativeReturnValues (Method.returnType (NativeStackFrame.method nf)) rv))
       else ret tt
     else ret tt)
      (logged (EvNativeCall (NativeStackFrame.method nf) t) w w1).
Proof.
  intros Hf Hnat. rewrite frameRun_S. unfold frameRun_body, frame.
  rewrite bind_get, Hf. unfold NativeStackFrame_run.
  assert (Hext : extern (EvNativeCall (NativeStackFrame.method nf) t)
                   (nativeFunction (NativeStackFrame.method nf) t (NativeStackFrame.args nf)) w
                 = Ok rv (logged (EvNativeCall (NativeStackFrame.method nf) t) w w1))
    by (unfold extern; rewrite Hnat; reflexivity).
  rewrite (bind_Ok _ _ _ _ _ Hext).
  unfold nativeReturnValues.
  destruct (String.eqb (Method.returnType (NativeStackFrame.method nf)) "J"
            || String.eqb (Method.returnType (NativeStackFrame.method nf)) "D");
    [reflexivity|].
  destruct (String.eqb (Method.returnType (NativeStackFrame.method nf)) "Z"); reflexivity.
Qed.

(** X16. A native frame that runs to its end returns into its caller.  The
    native function returned [rv] and left the thread RUNNING with the native
    frame on top of a bytecode frame stopped at an invoke opcode.  Then
    [run] returns; the native frame is popped; the caller's pc is past the
    invoke and its operand stack received the value: [rv] and then null for a
    method of return type J or D (two slots), the number 1 or 0 for a method
    of return type Z, whatever [rv] is, and [rv] itself unless undefined for
    the other types.  The thread stays RUNNING, and the only call into
    another module is the call of the native function.  (The values pass the
    debug checks, or the build is a release build.) *)
Theorem NativeStackFrame_run_returns :
  ∀ (n : nat) (w w1 : W) (t : ThreadAddr) (a : FrameAddr) (nf : NativeStackFrame.t)
    (rv : Value) (rest : list FrameAddr) (below : FrameAddr) (b : BytecodeStackFrame.t)
    (o : OpCode.t),
    let method := NativeStackFrame.method nf in
    let ev := EvNativeCall method t in
    let rvs := nativeReturnValues (Method.returnType method) rv in
    (∀ o1 o2, OpCode_value o1 = OpCode_value o2 → o1 = o2) →
    frameObjs w a = Native nf →
    nativeFunction method t (NativeStackFrame.args nf) w = ExtOk rv w1 →
    statusOf (logged ev w w1) t = ThreadStatus.RUNNING →
    stackOf (logged ev w w1) t = rest ++ [below; a] →
    frameObjs (logged ev w w1) a = Native nf →
    frameObjs (logged ev w w1) below = Bytecode b →
    readUInt8 (Method.code (BytecodeStackFrame.method b)) (BytecodeStackFrame.pc b)
    = Some (OpCode_value o) →
    RELEASE = true
    ∨ (notBoolean (fst rvs) = true
       ∧ returnValueValid t method (fst rvs) (snd rvs) (popFrame t (logged ev w w1))) →
    ∃ w', frameRun (3 + n) a t w = Ok tt w'
      ∧ stackOf w' t = rest ++ [below]
      ∧ frameObjs w' below = Bytecode (resumedFrame b (specWidth o) (fst rvs) (snd rvs))
      ∧ (∀ a', a' ≠ below → frameObjs w' a' = frameObjs (logged ev w w1) a')
      ∧ statusOf w' t = ThreadStatus.RUNNING
      ∧ calls w' = calls w ++ [ev].
Proof.
  intros n w w1 t a nf rv rest below b o method ev rvs Hinj Hf Hnat Hs Hstack Hf1 Hb Hread Hchk.
  set (w1' := logged ev w w1) in *.
  cbn [Nat.add]. rewrite (NativeStackFrame_run_eq _ _ _ _ _ _ _ Hf Hnat).
  fold method ev w1' rvs.
  rewrite bind_getStatus, Hs. cbn [ThreadStatus.eqb].
  assert (Hlast : last (stackOf w1' t) = Some a).
  { rewrite Hstack. change [below; a] with ([below] ++ [a]).
    rewrite app_assoc, last_snoc. reflexivity. }
  assert (Hrem : removelast (stackOf w1' t) = rest ++ [below]).
  { rewrite Hstack. change [below; a] with ([below] ++ [a]).
    rewrite app_assoc, removelast_last. reflexivity. }
  assert (Hcm : currentMethod t w1' = Ok (Some method) w1').
  { rewrite currentMethod_eq, Hlast, Hf1. reflexivity. }
  rewrite (bind_Ok _ _ _ _ _ Hcm). rewrite bool_decide_eq_true_2 by reflexivity.
  assert (Hnull : looseNull (snd rvs) = true).
  { unfold rvs, nativeReturnValues.
    destruct (String.eqb (Method.returnType method) "J"
              || String.eqb (Method.returnType method) "D"); [reflexivity|].
    destruct (String.eqb (Method.returnType method) "Z"); reflexivity. }
  assert (Hchk' : RELEASE = true
    ∨ (notBoolean (fst rvs) && looseNull (snd rvs) = true
       ∧ returnValueChecked t (fst rvs) (snd rvs) (popFrame t w1') (frameObjs w1' a))).
  { destruct Hchk as [?|[Hnb Hv]]; [left; assumption|right].
    rewrite Hnb, Hnull, Hf1. split; [reflexivity | exact Hv]. }
  rewrite (asyncReturn_eq _ _ _ _ _ _ (or_introl Hs) Hchk' Hlast).
  rewrite Hrem, last_snoc.
  destruct (scheduleResume_resumes (popFrame t w1') below b t (fst rvs) (snd rvs) o Hinj Hb Hread)
    as (w2 & Hrun2 & Hb2 & Ho2 & Ht2 & Hp2 & Hi2 & Hc2).
  rewrite (bind_Ok _ _ _ _ _ Hrun2).
  assert (Hs2 : statusOf w2 t = ThreadStatus.RUNNING).
  { unfold statusOf. rewrite Ht2. unfold popFrame. wsimpl. exact Hs. }
  rewrite setStatus_ignored by exact Hs2.
  exists w2. split; [reflexivity|]. split_and!.
  - unfold stackOf. rewrite Ht2. unfold popFrame. wsimpl. fold (stackOf w1' t). exact Hrem.
  - exact Hb2.
  - intros a' Hne. rewrite (Ho2 a' Hne). reflexivity.
  - exact Hs2.
  - rewrite Hc2. reflexivity.
Qed.

(** X17. A native frame whose function does not leave things ready for a
    return is not returned from.  If, after the native function, the thread
    is no longer RUNNING (the function started an asynchronous operation), or
    its stack is empty, or the frame on top belongs to another method (the
    function pushed a frame), [run] ends in the state the function left, with
    the call recorded: nothing is popped and no frame is resumed.  If the
    thread is RUNNING and the frame on top is an internal frame, [run] throws
    a TypeError, because [currentMethod] reads the method of the null that an
    internal frame gives as its stack trace frame. *)
Theorem NativeStackFrame_run_suspended :
  ∀ (k : nat) (w w1 : W) (t : ThreadAddr) (a : FrameAddr) (nf : NativeStackFrame.t) (rv : Value),
    let method := NativeStackFrame.method nf in
    let ev := EvNativeCall method t in
    frameObjs w a = Native nf →
    nativeFunction method t (NativeStackFrame.args nf) w = ExtOk rv w1 →
    (statusOf (logged ev w w1) t ≠ ThreadStatus.RUNNING
     ∨ stackOf (logged ev w w1) t = []
     ∨ (∃ top m, last (stackOf (logged ev w w1) t) = Some top
                 ∧ frameMethod (frameObjs (logged ev w w1) top) = Some m ∧ m ≠ method) →
     frameRun (S k) a t w = Ok tt (logged ev w w1))
    ∧ (statusOf (logged ev w w1) t = ThreadStatus.RUNNING →
       (∃ top, last (stackOf (logged ev w w1) t) = Some top
               ∧ frameMethod (frameObjs (logged ev w w1) top) = None) →
       frameRun (S k) a t w
       = Throw (TypeError "Cannot read property 'method' of null") (logged ev w w1)).
Proof.
  intros k w w1 t a nf rv method ev Hf Hnat.
  rewrite (NativeStackFrame_run_eq _ _ _ _ _ _ _ Hf Hnat). fold method ev.
  set (w1' := logged ev w w1). rewrite bind_getStatus. split.
  - intros Hcase.
    destruct (ThreadStatus.eqb (statusOf w1' t) ThreadStatus.RUNNING) eqn:Hs; [|reflexivity].
    destruct Hcase as [Hns|[Hempty|(top & m & Hlast & Hm & Hne)]].
    + exfalso. apply Hns. destruct (statusOf w1' t); try discriminate; reflexivity.
    + unfold bind. rewrite currentMethod_eq, Hempty. cbn [last].
      rewrite bool_decide_eq_false_2 by discriminate. reflexivity.
    + unfold bind. rewrite currentMethod_eq, Hlast, Hm.
      rewrite bool_decide_eq_false_2 by congruence. reflexivity.
  - intros Hs (top & Hlast & Hm). rewrite Hs. cbn [ThreadStatus.eqb].
    unfold bind. rewrite currentMethod_eq, Hlast, Hm. reflexivity.
Qed.

(** *** Running an internal frame *)

(** A transition to ASYNC_WAITING, PARKED or NEW is the two writes and the
    call of [threadSuspended]. *)
Lemma setStatus_suspends_eq n (w : W) t s m :
  suspends s = true → needsMonitor s = false →
  statusOf w t ≠ s →
  statusOf w t ≠ ThreadStatus.PARKED →
  statusOf w t ≠ ThreadStatus.TERMINATED →
  RELEASE = true ∨ validateThreadTransition (statusOf w t) s = true →
  setStatus (S n) t s m w = threadSuspended t (transitionOpened t s w).
Proof.
  intros Hsus Hnm Hne Hnp Hnt Hv.
  assert (Hg : pastGuards w t s = true).
  { unfold pastGuards. destruct (statusOf w t), s; try discriminate; try congruence;
      rewrite ?andb_false_r; reflexivity. }
  rewrite (setStatus_performed _ _ _ _ _ Hg Hv).
  rewrite (bind_Ok _ _ _ _ _ (preTransition_none _ _ _ _ Hnt Hnp)).
  unfold postTransition. rewrite bind_getStatus, statusOf_transitionOpened.
  destruct s; try discriminate Hsus; try discriminate Hnm; reflexivity.
Qed.

Lemma InternalStackFrame_run_eq n a i t (w : W) :
  frameObjs w a = Internal i →
  statusOf w t = ThreadStatus.RUNNING ∨ statusOf w t = ThreadStatus.RUNNABLE →
  frameRun (2 + n) a t w
  = extern (EvInternalCallback (InternalStackFrame.cb i)
              (fst (internalCallbackArgs i)) (snd (internalCallbackArgs i)))
      (callJSFunction (InternalStackFrame.cb i)
         (fst (internalCallbackArgs i)) (snd (internalCallbackArgs i)))
      (beforeCallback t w).
Proof.
  intros Hf Hs. cbn [Nat.add]. rewrite frameRun_S. unfold frameRun_body, frame.
  rewrite bind_get, Hf. unfold InternalStackFrame_run.
  unfold framePop, setThread. rewrite bind_modify. fold (popFrame t w).
  assert (Hs1 : statusOf (popFrame t w) t = statusOf w t)
    by (unfold statusOf, popFrame; wsimpl; reflexivity).
  assert (Hset : setStatus (S n) t ThreadStatus.ASYNC_WAITING None (popFrame t w)
                 = Ok tt (beforeCallback t w)).
  { rewrite setStatus_suspends_eq; try reflexivity;
      try (rewrite Hs1; destruct Hs as [-> | ->]; discriminate).
    - apply threadSuspended_eq.
    - right. rewrite Hs1. destruct Hs as [-> | ->]; reflexivity. }
  rewrite (bind_Ok _ _ _ _ _ Hset).
  unfold frame. rewrite bind_get.
  assert (Hf2 : frameObjs (beforeCallback t w) a = Internal i).
  { unfold beforeCallback. destruct (bool_decide _); exact Hf. }
  rewrite Hf2. unfold internalCallbackArgs.
  destruct (InternalStackFrame.isException i); reflexivity.
Qed.

Lemma beforeCallback_spec t (w : W) :
  stackOf (beforeCallback t w) t = removelast (stackOf w t)
  ∧ statusOf (beforeCallback t w) t = ThreadStatus.ASYNC_WAITING
  ∧ frameObjs (beforeCallback t w) = frameObjs w
  ∧ calls (beforeCallback t w) = calls w
  ∧ (∀ t', t' ≠ t → threadObjs (beforeCallback t w) t' = threadObjs w t')
  ∧ (if bool_decide (ThreadPool.runningThread (tpool w) = Some t)
     then ThreadPool.runningThread (tpool (beforeCallback t w)) = None
          ∧ immediates (beforeCallback t w) = immediates w ++ [CbScheduleNextThread]
     else tpool (beforeCallback t w) = tpool w
          ∧ immediates (beforeCallback t w) = immediates w).
Proof.
  unfold beforeCallback.
  change (tpool (transitionOpened t ThreadStatus.ASYNC_WAITING (popFrame t w))) with (tpool w).
  destruct (bool_decide (ThreadPool.runningThread (tpool w) = Some t));
    unfold stackOf, statusOf, transitionOpened, popFrame; wsimpl;
    (split_and!; try reflexivity;
     intros t' Hne; apply Nat.eqb_neq in Hne; rewrite Hne; reflexivity).
Qed.

(** X18. An internal frame hands its callback what was scheduled on it.
    Run by a RUNNING (or RUNNABLE) thread, the frame first pops the top of
    the stack and makes the thread ASYNC_WAITING (so the running slot of the
    pool is freed and a scheduling closure queued if the thread was the
    running one), then calls the callback once, and that is the only call
    into another module.  After [scheduleException(e)] on the frame (which
    always answers true) the callback gets the exception as its first
    argument; after [scheduleResume(rv)] it gets null and [rv]. *)
Theorem InternalStackFrame_run_delivers :
  ∀ (n fuel : nat) (w : W) (t : ThreadAddr) (a : FrameAddr) (i : InternalStackFrame.t),
    frameObjs w a = Internal i →
    statusOf w t = ThreadStatus.RUNNING ∨ statusOf w t = ThreadStatus.RUNNABLE →
    let cb := InternalStackFrame.cb i in
    (stackOf (beforeCallback t w) t = removelast (stackOf w t)
     ∧ statusOf (beforeCallback t w) t = ThreadStatus.ASYNC_WAITING
     ∧ calls (beforeCallback t w) = calls w
     ∧ (if bool_decide (ThreadPool.runningThread (tpool w) = Some t)
        then ThreadPool.runningThread (tpool (beforeCallback t w)) = None
             ∧ immediates (beforeCallback t w) = immediates w ++ [CbScheduleNextThread]
        else tpool (beforeCallback t w) = tpool w
             ∧ immediates (beforeCallback t w) = immediates w))
    ∧ frameRun (2 + n) a t w
      = extern (EvInternalCallback cb (fst (internalCallbackArgs i)) (snd (internalCallbackArgs i)))
          (callJSFunction cb (fst (internalCallbackArgs i)) (snd (internalCallbackArgs i)))
          (beforeCallback t w)
    ∧ (∀ e, ∃ w1,
         scheduleException (setStatus fuel) a t e w = Ok true w1
         ∧ frameRun (2 + n) a t w1
           = extern (EvInternalCallback cb (obj e) undefined)
               (callJSFunction cb (obj e) undefined) (beforeCallback t w1))
    ∧ (∀ rv rv2, ∃ w1,
         scheduleResume a t rv rv2 w = Ok tt w1
         ∧ frameRun (2 + n) a t w1
           = extern (EvInternalCallback cb null rv)
               (callJSFunction cb null rv) (beforeCallback t w1)).
Proof.
  intros n fuel w t a i Hf Hs cb.
  destruct (beforeCallback_spec t w) as (H1 & H2 & _ & H4 & _ & H6).
  split; [split_and!; assumption|].
  split; [apply InternalStackFrame_run_eq; assumption|].
  split.
  - intros e.
    exists (updFrame a (fun _ => Internal (InternalStackFrame.mk true (obj e)
                                            (InternalStackFrame.cb i))) w).
    split; [unfold scheduleException, frame, bind, get; rewrite Hf; reflexivity|].
    rewrite (InternalStackFrame_run_eq n a
               (InternalStackFrame.mk true (obj e) (InternalStackFrame.cb i))).
    + reflexivity.
    + cbn. rewrite Nat.eqb_refl. reflexivity.
    + exact Hs.
  - intros rv rv2.
    exists (updFrame a (fun _ => Internal (InternalStackFrame.mk false rv
                                            (InternalStackFrame.cb i))) w).
    split; [unfold scheduleResume, frame, bind, get; rewrite Hf; reflexivity|].
    rewrite (InternalStackFrame_run_eq n a
               (InternalStackFrame.mk false rv (InternalStackFrame.cb i))).
    + reflexivity.
    + cbn. rewrite Nat.eqb_refl. reflexivity.
    + exact Hs.
Qed.

(** *** A thread with nothing to run *)

(** X19. A RUNNABLE thread with an empty stack that is set RUNNING (as the
    scheduler does) has nothing to run: its main loop makes no turn and the
    thread goes on to terminate, calling [exit] with its status already
    written as TERMINATED.  An immortal thread is not terminated: the call
    returns and the thread stays RUNNING with its empty stack, the counter of
    method resumes reset and nothing else done. *)
Theorem setStatus_RUNNING_empty_stack :
  ∀ (n : nat) (w : W) (t : ThreadAddr) (m : option Monitor),
    statusOf w t = ThreadStatus.RUNNABLE →
    stackOf w t = [] →
    setStatus (3 + n) t ThreadStatus.RUNNING m w
    = (if JVMThread.immortal (threadObjs w t) then Ok tt (scheduledEmpty t w)
       else exit t (transitionOpened t ThreadStatus.TERMINATED (scheduledEmpty t w)))
    ∧ statusOf (scheduledEmpty t w) t = ThreadStatus.RUNNING
    ∧ stackOf (scheduledEmpty t w) t = []
    ∧ tpool (scheduledEmpty t w) = tpool w
    ∧ immediates (scheduledEmpty t w) = immediates w
    ∧ calls (scheduledEmpty t w) = calls w.
Proof.
  intros n w t m Hs Hstack.
  assert (H1 : statusOf (scheduledEmpty t w) t = ThreadStatus.RUNNING).
  { unfold scheduledEmpty, statusOf, transitionOpened. wsimpl. reflexivity. }
  assert (H2 : stackOf (scheduledEmpty t w) t = []).
  { unfold scheduledEmpty, stackOf, transitionOpened. wsimpl. exact Hstack. }
  split; [|split_and!; try assumption; reflexivity].
  assert (Hg : pastGuards w t ThreadStatus.RUNNING = true).
  { unfold pastGuards. rewrite Hs. cbn. rewrite andb_false_r. reflexivity. }
  cbn [Nat.add].
  rewrite (setStatus_performed _ _ _ _ _ Hg ltac:(right; rewrite Hs; reflexivity)).
  rewrite Hs. cbn [preTransition]. rewrite bind_ret.
  unfold postTransition. rewrite bind_getStatus, statusOf_transitionOpened.
  rewrite run_S. unfold run_body. rewrite bind_get, bind_modify.
  fold (scheduledEmpty t w).
  assert (Hloop : runLoop (S n) t (Date_getTime (transitionOpened t ThreadStatus.RUNNING w))
                    (scheduledEmpty t w) = Ok tt (scheduledEmpty t w)).
  { rewrite runLoop_S. unfold runLoop_body. rewrite bind_thread.
    fold (stackOf (scheduledEmpty t w) t). rewrite H2. reflexivity. }
  rewrite (bind_Ok _ _ _ _ _ Hloop). rewrite bind_thread.
  fold (stackOf (scheduledEmpty t w) t). rewrite H2.
  rewrite bool_decide_eq_true_2 by reflexivity. cbn [when].
  assert (Himm : JVMThread.immortal (threadObjs (scheduledEmpty t w) t)
                 = JVMThread.immortal (threadObjs w t)).
  { unfold scheduledEmpty, transitionOpened. wsimpl. reflexivity. }
  destruct (JVMThread.immortal (threadObjs w t)) eqn:Hi.
  - rewrite setStatus_S. unfold setStatus_body. rewrite bind_thread.
    fold (statusOf (scheduledEmpty t w) t). rewrite H1, Himm. reflexivity.
  - assert (Hg2 : pastGuards (scheduledEmpty t w) t ThreadStatus.TERMINATED = true).
    { unfold pastGuards. rewrite H1, Himm. reflexivity. }
    rewrite (setStatus_performed _ _ _ _ _ Hg2 ltac:(right; rewrite H1; reflexivity)).
    rewrite H1. cbn [preTransition]. rewrite bind_ret.
    unfold postTransition. rewrite bind_getStatus, statusOf_transitionOpened. reflexivity.
Qed.

(** *** The edges of [throwException] *)

(** X20. [throwException] on a thread with an empty stack goes straight to
    the dispatch of the uncaught exception: the call is that one call on the
    Java thread object, made in the state as it was, and the status of the
    thread is not touched (no [setStatus(RUNNABLE)]).  In a debug build a
    call on a thread that is not RUNNING, RUNNABLE or ASYNC_WAITING throws on
    the assertion and changes nothing. *)
Theorem throwException_edges :
  ∀ (fuel : nat) (w : W) (t : ThreadAddr) (e : Throwable),
    (RELEASE = true
     ∨ statusOf w t ∈ [ThreadStatus.RUNNING; ThreadStatus.RUNNABLE; ThreadStatus.ASYNC_WAITING] →
     stackOf w t = [] →
     throwException fuel t e w
     = extern (EvDispatchUncaughtException t e) (Thread_dispatchUncaughtException t e) w)
    ∧ (RELEASE = false →
       statusOf w t ∉ [ThreadStatus.RUNNING; ThreadStatus.RUNNABLE; ThreadStatus.ASYNC_WAITING] →
       throwException fuel t e w
       = Throw (AssertionError "Tried to throw exception while thread was in an invalid state") w).
Proof.
  intros fuel w t e. split.
  - intros Hok Hstack. unfold throwException. rewrite bind_thread.
    fold (statusOf w t) (stackOf w t).
    assert (Ha : ∀ msg, assert (ThreadStatus.eqb (statusOf w t) ThreadStatus.RUNNING
                || ThreadStatus.eqb (statusOf w t) ThreadStatus.RUNNABLE
                || ThreadStatus.eqb (statusOf w t) ThreadStatus.ASYNC_WAITING) msg w = Ok tt w).
    { intros msg. apply assert_ok. destruct Hok as [?|Hs]; [left; assumption|right].
      rewrite !elem_of_cons in Hs. destruct Hs as [->|[->|[->|Hs]]]; [reflexivity..|inversion Hs]. }
    rewrite (bind_Ok _ _ _ _ _ (Ha _)). rewrite Hstack. cbn [last].
    rewrite bind_ret, bind_thread. fold (stackOf w t). rewrite Hstack.
    rewrite bool_decide_eq_true_2 by reflexivity. reflexivity.
  - intros Hdebug Hs. unfold throwException. rewrite bind_thread.
    fold (statusOf w t). unfold assert. rewrite Hdebug.
    rewrite !not_elem_of_cons in Hs. destruct Hs as (H1 & H2 & H3 & _).
    destruct (statusOf w t); try congruence; reflexivity.
Qed.

(** *** [scheduleException] when a catch type is not resolved *)

Lemma handlerClasses_spec (ehs : list ExceptionHandler.t) (name : string) :
  name ∈ handlerClasses ehs
  ↔ name ≠ "<any>" ∧ ∃ eh, eh ∈ ehs ∧ ExceptionHandler.catchType eh = name.
Proof.
  unfold handlerClasses. rewrite list_elem_of_fmap. split.
  - intros (eh & -> & Hin). apply list_elem_of_filter in Hin as [Hne Hin].
    split; [|exists eh; auto].
    apply negb_true_iff in Hne. apply String.eqb_neq in Hne. exact Hne.
  - intros (Hne & eh & Hin & <-). exists eh. split; [reflexivity|].
    apply list_elem_of_filter. split; [|exact Hin].
    apply negb_true_iff. apply String.eqb_neq. exact Hne.
Qed.

(** X21. When the scan of the handler table of a bytecode frame stops at a
    catch type that is not resolved, [scheduleException] on a RUNNING or
    RUNNABLE thread first makes the thread ASYNC_WAITING (touching neither
    stacks nor frames), then asks the loader of the method, once, for the
    catch types of all the entries of the table except the any marker (not
    only of the entries that cover the pc), and answers true: the frame keeps
    its pc and its operand stack, and is not popped by the caller. *)
Theorem scheduleException_defers :
  ∀ (n : nat) (w : W) (a : FrameAddr) (b : BytecodeStackFrame.t) (t : ThreadAddr) (e : Throwable),
    let method := BytecodeStackFrame.method b in
    let l := Method.loader method in
    let ehs := Method.exceptionHandlers method in
    let ev := EvResolveClasses l t (handlerClasses ehs) in
    frameObjs w a = Bytecode b →
    scanHandlers w l (Throwable_getClass e) (BytecodeStackFrame.pc b) ehs = NeedsResolution →
    statusOf w t = ThreadStatus.RUNNING ∨ statusOf w t = ThreadStatus.RUNNABLE →
    ∃ w2, setStatus (S n) t ThreadStatus.ASYNC_WAITING None w = Ok tt w2
      ∧ statusOf w2 t = ThreadStatus.ASYNC_WAITING
      ∧ sameFrames w w2
      ∧ scheduleException (setStatus (S n)) a t e w
        = match ClassLoader_resolveClasses l t (handlerClasses ehs) (CbRethrow t e) w2 with
          | ExtOk _ w3 => Ok true (logged ev w2 w3)
          | ExtThrow err w3 => Throw err (logged ev w2 w3)
          end
      ∧ (∀ name, name ∈ handlerClasses ehs
                 ↔ name ≠ "<any>" ∧ ∃ eh, eh ∈ ehs ∧ ExceptionHandler.catchType eh = name).
Proof.
  intros n w a b t e method l ehs ev Hf Hscan Hs.
  assert (Hset : setStatus (S n) t ThreadStatus.ASYNC_WAITING None w
                 = threadSuspended t (transitionOpened t ThreadStatus.ASYNC_WAITING w)).
  { apply setStatus_suspends_eq; try reflexivity;
      try (destruct Hs as [-> | ->]; discriminate).
    right. destruct Hs as [-> | ->]; reflexivity. }
  rewrite threadSuspended_eq in Hset.
  eexists. split; [exact Hset|].
  split_and!.
  - destruct (bool_decide _); unfold statusOf, transitionOpened; wsimpl; reflexivity.
  - destruct (bool_decide _); [apply sameFrames_immediates, sameFrames_updPool|];
      unfold transitionOpened;
      repeat (apply sameFrames_updThread; [reflexivity|]); apply sameFrames_refl.
  - unfold scheduleException, frame. rewrite bind_get, Hf.
    unfold BytecodeStackFrame_scheduleException. fold method l ehs.
    rewrite bind_get, Hscan.
    rewrite (bind_Ok _ _ _ _ _ Hset).
    unfold bind, extern. fold ev.
    destruct (ClassLoader_resolveClasses l t (handlerClasses ehs) (CbRethrow t e) _); reflexivity.
  - intros name. apply handlerClasses_spec.
Qed.

(** *** Waking a parked thread *)

Lemma last_two {A} (l : list A) x y : last (l ++ [x; y]) = Some y.
Proof. change [x; y] with ([x] ++ [y]). rewrite app_assoc, last_snoc. reflexivity. Qed.

Lemma removelast_two {A} (l : list A) x y : removelast (l ++ [x; y]) = l ++ [x].
Proof. change [x; y] with ([x] ++ [y]). rewrite app_assoc, removelast_last. reflexivity. Qed.

(** X22. Waking a PARKED thread returns from the frame that parked it.
    [setStatus(RUNNABLE)] on a PARKED thread whose top frame sits on a
    bytecode frame stopped at an invoke opcode returns; the top frame is
    popped; the caller's pc is past the invoke and its operand stack is as it
    was (park returns nothing); the thread is RUNNABLE; one scheduling
    closure is queued exactly when the pool has no running thread; no other
    frame changes and no other module is called.  (The check of the return
    value of the popped frame passes, or the build is a release build.) *)
Theorem setStatus_RUNNABLE_returns_from_park :
  ∀ (n : nat) (w : W) (t : ThreadAddr) (m : option Monitor) (rest : list FrameAddr)
    (below top : FrameAddr) (b : BytecodeStackFrame.t) (o : OpCode.t),
    (∀ o1 o2, OpCode_value o1 = OpCode_value o2 → o1 = o2) →
    statusOf w t = ThreadStatus.PARKED →
    stackOf w t = rest ++ [below; top] →
    RELEASE = true
    ∨ returnValueChecked t undefined undefined
        (popFrame t (transitionOpened t ThreadStatus.RUNNABLE w)) (frameObjs w top) →
    frameObjs w below = Bytecode b →
    readUInt8 (Method.code (BytecodeStackFrame.method b)) (BytecodeStackFrame.pc b)
    = Some (OpCode_value o) →
    ∃ w', setStatus (3 + n) t ThreadStatus.RUNNABLE m w = Ok tt w'
      ∧ statusOf w' t = ThreadStatus.RUNNABLE
      ∧ stackOf w' t = rest ++ [below]
      ∧ frameObjs w' below
        = Bytecode (BytecodeStackFrame.with_pc (BytecodeStackFrame.pc b + specWidth o) b)
      ∧ (∀ a, a ≠ below → frameObjs w' a = frameObjs w a)
      ∧ ThreadPool.runningThread (tpool w') = ThreadPool.runningThread (tpool w)
      ∧ immediates w'
        = match ThreadPool.runningThread (tpool w) with
          | None => immediates w ++ [CbScheduleNextThread]
          | Some _ => immediates w
          end
      ∧ calls w' = calls w.
Proof.
  intros n w t m rest below top b o Hinj Hs Hstack Hchk Hb Hread.
  assert (Hg : pastGuards w t ThreadStatus.RUNNABLE = true).
  { unfold pastGuards. rewrite Hs. cbn. rewrite andb_false_r. reflexivity. }
  cbn [Nat.add].
  rewrite (setStatus_performed _ _ _ _ _ Hg ltac:(right; rewrite Hs; reflexivity)).
  rewrite Hs. cbn [preTransition].
  set (w1 := transitionOpened t ThreadStatus.RUNNABLE w) in *.
  assert (Hs1 : statusOf w1 t = ThreadStatus.RUNNABLE) by apply statusOf_transitionOpened.
  assert (Hstack1 : stackOf w1 t = rest ++ [below; top]).
  { unfold w1, stackOf, transitionOpened. wsimpl. exact Hstack. }
  assert (Hchk1 : RELEASE = true
    ∨ (notBoolean undefined && looseNull undefined = true
       ∧ returnValueChecked t undefined undefined (popFrame t w1) (frameObjs w1 top))).
  { destruct Hchk as [?|Hv]; [left; assumption | right; split; [reflexivity | exact Hv]]. }
  assert (Hlast : last (stackOf w1 t) = Some top) by (rewrite Hstack1; apply last_two).
  assert (Hret : asyncReturn (S (S n)) t undefined undefined w1
    = (match last (removelast (stackOf w1 t)) with
       | Some below => scheduleResume below t undefined undefined
       | None => ret tt
       end ;;; setStatus (S n) t ThreadStatus.RUNNABLE None) (popFrame t w1))
    by (apply (asyncReturn_eq _ _ _ _ _ top); auto).
  rewrite Hstack1, removelast_two, last_snoc in Hret.
  destruct (scheduleResume_resumes (popFrame t w1) below b t undefined undefined o Hinj Hb Hread)
    as (w2 & Hrun2 & Hb2 & Ho2 & Ht2 & Hp2 & Hi2 & Hc2).
  rewrite (bind_Ok _ _ _ _ _ Hrun2) in Hret.
  assert (Hs2 : statusOf w2 t = ThreadStatus.RUNNABLE).
  { unfold statusOf. rewrite Ht2. unfold popFrame. wsimpl. exact Hs1. }
  assert (Hsame : setStatus (S n) t ThreadStatus.RUNNABLE None w2 = Ok tt w2).
  { rewrite <- Hs2 at 1. apply setStatus_same. }
  rewrite Hsame in Hret.
  rewrite (bind_Ok _ _ _ _ _ Hret).
  unfold postTransition. rewrite bind_getStatus, Hs2, threadRunnable_eq.
  rewrite Hp2. change (tpool (popFrame t w1)) with (tpool w).
  assert (Hst2 : stackOf w2 t = rest ++ [below]).
  { unfold stackOf. rewrite Ht2. unfold popFrame. wsimpl. fold (stackOf w1 t).
    rewrite Hstack1. apply removelast_two. }
  assert (Hfr : frameObjs w2 below
                = Bytecode (BytecodeStackFrame.with_pc (BytecodeStackFrame.pc b + specWidth o) b)).
  { rewrite Hb2. unfold resumedFrame, definedValue.
    rewrite bool_decide_eq_true_2 by reflexivity. cbn. rewrite app_nil_r.
    destruct b; reflexivity. }
  destruct (ThreadPool.runningThread (tpool w)) eqn:Hrun.
  - exists w2. split; [reflexivity|].
    split_and!; try assumption; rewrite ?Hp2, ?Hi2, ?Hc2; first [exact Hrun | reflexivity].
  - eexists. split; [reflexivity|].
    split_and!; try assumption; cbn; rewrite ?Hp2, ?Hi2, ?Hc2; first [exact Hrun | reflexivity].
Qed.

(** *** Who handles a thrown exception *)

Lemma popInternal_other t (w : W) top :
  last (stackOf w t) = Some top →
  (∀ i, frameObjs w top ≠ Internal i) →
  popInternal t w = w.
Proof.
  intros Hlast Hni. unfold popInternal. rewrite Hlast.
  destruct (frameObjs w top) as [| |i]; try reflexivity.
  exfalso. apply (Hni i). reflexivity.
Qed.

(** X23. An exception thrown on a thread whose top frame is a bytecode frame
    with a matching handler is caught there.  With the thread RUNNING,
    RUNNABLE or ASYNC_WAITING, and a scan of the handler table that ends at
    the entry [eh] however the scheduling state is: [throwException] returns;
    no frame is popped; the top frame has the exception alone on its operand
    stack and its pc at the handler; no other frame changes; the thread is
    RUNNABLE, or still RUNNING if it was RUNNING; nothing is dispatched as
    uncaught and no other module is called. *)
Theorem throwException_caught_at_top :
  ∀ (n : nat) (w : W) (t : ThreadAddr) (e : Throwable) (rest : list FrameAddr) (a : FrameAddr)
    (b : BytecodeStackFrame.t) (eh : ExceptionHandler.t),
    statusOf w t = ThreadStatus.RUNNING ∨ statusOf w t = ThreadStatus.RUNNABLE
    ∨ statusOf w t = ThreadStatus.ASYNC_WAITING →
    stackOf w t = rest ++ [a] →
    frameObjs w a = Bytecode b →
    (∀ w' : W, sameFrames w w' →
       scanHandlers w' (Method.loader (BytecodeStackFrame.method b)) (Throwable_getClass e)
         (BytecodeStackFrame.pc b) (Method.exceptionHandlers (BytecodeStackFrame.method b))
       = Caught eh) →
    ∃ w', throwException (3 + n) t e w = Ok tt w'
      ∧ stackOf w' t = rest ++ [a]
      ∧ frameObjs w' a = Bytecode (caughtFrame b eh e)
      ∧ BytecodeStackFrame.stack (caughtFrame b eh e) = [obj e]
      ∧ BytecodeStackFrame.pc (caughtFrame b eh e) = ExceptionHandler.handlerPC eh
      ∧ (∀ a', a' ≠ a → frameObjs w' a' = frameObjs w a')
      ∧ statusOf w' t = afterRunnable (statusOf w t)
      ∧ calls w' = calls w.
Proof.
  intros n w t e rest a b eh Hs Hstack Hf Hscan.
  assert (Hne : stackOf w t ≠ []) by (rewrite Hstack; intros H; apply app_eq_nil in H as [_ H]; discriminate).
  assert (Hlast : last (stackOf w t) = Some a) by (rewrite Hstack; apply last_snoc).
  rewrite (throwException_eq _ _ _ _ Hs Hne).
  rewrite (popInternal_other t w a Hlast) by (intros i; rewrite Hf; discriminate).
  destruct (setStatus_RUNNABLE_from3 (2 + n) w t Hs) as (w1 & Hset & Hsame & Hs1).
  rewrite (bind_Ok _ _ _ _ _ Hset).
  pose proof Hsame as (Hst1 & Hfr1 & Hc1 & _).
  change (3 + n)%nat with (S (2 + n)) at 2. cbn [unwindLoop].
  rewrite !bind_assoc, bind_thread. fold (stackOf w1 t). rewrite Hst1.
  rewrite (bool_decide_eq_false_2 _ Hne), lookupZ_last, Hlast.
  unfold scheduleException, frame. rewrite !bind_assoc, bind_get, Hfr1, Hf.
  unfold BytecodeStackFrame_scheduleException. rewrite !bind_assoc, bind_get.
  rewrite (Hscan w1 Hsame).
  unfold updBytecode. rewrite !bind_assoc, bind_modify, bind_ret. cbn [negb].
  rewrite bind_ret, bind_thread.
  set (w2 := updFrame a _ w1).
  assert (Hst2 : stackOf w2 t = rest ++ [a])
    by (change (stackOf w2 t) with (stackOf w1 t); rewrite Hst1; exact Hstack).
  fold (stackOf w2 t). rewrite Hst2.
  rewrite bool_decide_eq_false_2
    by (intros H; apply app_eq_nil in H as [_ H]; discriminate).
  exists w2. split; [reflexivity|]. split_and!; try reflexivity.
  - exact Hst2.
  - unfold w2. cbn. rewrite Nat.eqb_refl, Hfr1, Hf. reflexivity.
  - intros a' Hne'. unfold w2. cbn. apply Nat.eqb_neq in Hne'. rewrite Hne', Hfr1. reflexivity.
  - exact Hs1.
  - unfold w2. cbn. exact Hc1.
Qed.

(** Unwinding over native frames: each answers false and is popped. *)
Lemma unwindLoop_natives n (k : nat) (ns : list FrameAddr) :
  ∀ (w : W) t e pre,
    stackOf w t = pre ++ ns →
    Forall (fun a => ∃ nf, frameObjs w a = Native nf) ns →
    ∃ w', unwindLoop (setStatus n) (length ns + k) t e (Z.of_nat (length (stackOf w t)) - 1) w
          = unwindLoop (setStatus n) k t e (Z.of_nat (length pre) - 1) w'
      ∧ stackOf w' t = pre
      ∧ statusOf w' t = statusOf w t
      ∧ frameObjs w' = frameObjs w
      ∧ calls w' = calls w.
Proof.
  induction ns as [|a ns IH] using rev_ind; intros w t e pre Hstack Hnat.
  - exists w. rewrite app_nil_r in Hstack. rewrite Hstack. auto.
  - apply Forall_app in Hnat as [Hnat Ha]. inversion Ha as [|? ? (nf & Hnf) _]; subst.
    rewrite length_app. cbn [length].
    replace (length ns + 1 + k)%nat with (S (length ns + k)) by lia.
    cbn [unwindLoop]. rewrite bind_thread. fold (stackOf w t).
    assert (Hne : stackOf w t ≠ []).
    { rewrite Hstack, app_assoc. intros H. apply app_eq_nil in H as [_ H]. discriminate. }
    rewrite (bool_decide_eq_false_2 _ Hne), lookupZ_last.
    assert (Hlast : last (stackOf w t) = Some a) by (rewrite Hstack, app_assoc; apply last_snoc).
    rewrite Hlast. unfold scheduleException, frame. rewrite !bind_assoc, bind_get, Hnf.
    rewrite bind_ret. cbn [negb].
    unfold framePop, setThread. rewrite bind_modify. fold (popFrame t w).
    assert (Hst' : stackOf (popFrame t w) t = pre ++ ns).
    { unfold stackOf, popFrame. wsimpl. fold (stackOf w t).
      rewrite Hstack, app_assoc. apply removelast_last. }
    destruct (IH (popFrame t w) t e pre Hst' Hnat) as (w' & Hrun & H1 & H2 & H3 & H4).
    exists w'. split.
    + rewrite <- Hrun. f_equal. rewrite Hst', Hstack, app_assoc, !length_app. cbn [length]. lia.
    + split_and!; try assumption. rewrite H2. unfold statusOf, popFrame. wsimpl. reflexivity.
Qed.

(** X24. An exception thrown out of native code reaches the internal frame
    that called it.  On a thread that is RUNNING, RUNNABLE or ASYNC_WAITING,
    whose stack ends with an internal frame followed by one or more native
    frames, [throwException] (with fuel for the frames) returns; the native
    frames are popped (a native frame never handles an exception), the
    internal frame is the top of the stack and holds the exception for its
    callback; no other frame changes; the thread is RUNNABLE, or still
    RUNNING if it was RUNNING; nothing is dispatched as uncaught and no other
    module is called. *)
Theorem throwException_reaches_internal_frame :
  ∀ (n : nat) (w : W) (t : ThreadAddr) (e : Throwable) (rest : list FrameAddr) (ai : FrameAddr)
    (i : InternalStackFrame.t) (ns : list FrameAddr),
    statusOf w t = ThreadStatus.RUNNING ∨ statusOf w t = ThreadStatus.RUNNABLE
    ∨ statusOf w t = ThreadStatus.ASYNC_WAITING →
    stackOf w t = rest ++ ai :: ns →
    ns ≠ [] →
    Forall (fun a => ∃ nf, frameObjs w a = Native nf) ns →
    frameObjs w ai = Internal i →
    (length ns <= n + 2)%nat →
    ∃ w', throwException (3 + n) t e w = Ok tt w'
      ∧ stackOf w' t = rest ++ [ai]
      ∧ frameObjs w' ai
        = Internal (InternalStackFrame.mk true (obj e) (InternalStackFrame.cb i))
      ∧ (∀ a', a' ≠ ai → frameObjs w' a' = frameObjs w a')
      ∧ statusOf w' t = afterRunnable (statusOf w t)
      ∧ calls w' = calls w.
Proof.
  intros n w t e rest ai i ns Hs Hstack Hns Hnat Hi Hlen.
  assert (Hne : stackOf w t ≠ []).
  { rewrite Hstack. intros H. apply app_eq_nil in H as [_ H]. discriminate. }
  destruct (exists_last Hns) as (ns' & top & ->).
  assert (Htop : ∃ nf, frameObjs w top = Native nf).
  { apply Forall_app in Hnat as [_ Ha]. inversion Ha; subst. assumption. }
  destruct Htop as (nf & Hnf).
  assert (Hlast : last (stackOf w t) = Some top).
  { rewrite Hstack. change (ai :: ns' ++ [top]) with ((ai :: ns') ++ [top]).
    rewrite app_assoc. apply last_snoc. }
  rewrite (throwException_eq _ _ _ _ Hs Hne).
  rewrite (popInternal_other t w top Hlast) by (intros i'; rewrite Hnf; discriminate).
  destruct (setStatus_RUNNABLE_from3 (2 + n) w t Hs) as (w1 & Hset & Hsame & Hs1).
  rewrite (bind_Ok _ _ _ _ _ Hset).
  destruct Hsame as (Hst1 & Hfr1 & Hc1 & _).
  assert (Hstack1 : stackOf w1 t = (rest ++ [ai]) ++ (ns' ++ [top])).
  { rewrite Hst1, Hstack, <- app_assoc. reflexivity. }
  assert (Hnat1 : Forall (fun a => ∃ nf, frameObjs w1 a = Native nf) (ns' ++ [top])).
  { rewrite Hfr1. exact Hnat. }
  set (k := (3 + n - length (ns' ++ [top]))%nat).
  assert (Hk : (length (ns' ++ [top]) + k = 3 + n)%nat) by (unfold k; lia).
  destruct (unwindLoop_natives (3 + n) k (ns' ++ [top]) w1 t e (rest ++ [ai]) Hstack1 Hnat1)
    as (w2 & Hrun & Hst2 & Hs2 & Hfr2 & Hc2).
  rewrite Hk in Hrun.
  assert (Hkpos : ∃ k', k = S k') by (exists (pred k); unfold k; lia).
  destruct Hkpos as (k' & Hk').
  set (w3 := updFrame ai (fun _ => Internal (InternalStackFrame.mk true (obj e)
                                              (InternalStackFrame.cb i))) w2).
  assert (Hstep : unwindLoop (setStatus (3 + n)) k t e (Z.of_nat (length (rest ++ [ai])) - 1) w2
                  = Ok tt w3).
  { rewrite Hk'. cbn [unwindLoop]. rewrite bind_thread. fold (stackOf w2 t). rewrite Hst2.
    rewrite bool_decide_eq_false_2
      by (intros H; apply app_eq_nil in H as [_ H]; discriminate).
    rewrite lookupZ_last, last_snoc.
    unfold scheduleException, frame. rewrite !bind_assoc, bind_get, Hfr2, Hfr1, Hi.
    unfold InternalStackFrame_scheduleException, setFrame.
    rewrite !bind_assoc, bind_modify, bind_ret. reflexivity. }
  assert (Hst3 : stackOf w3 t = rest ++ [ai]) by exact Hst2.
  assert (Hall : (unwindLoop (setStatus (3 + n)) (3 + n) t e
                    (Z.of_nat (length (stackOf w t)) - 1) ;;;
                  let* th := thread t in
                  when (bool_decide (JVMThread.stack th = [])) (handleUncaughtException t e)) w1
                 = Ok tt w3).
  { rewrite <- (Hst1 t). unfold bind at 1. rewrite Hrun, Hstep.
    rewrite bind_thread. fold (stackOf w3 t). rewrite Hst3.
    rewrite bool_decide_eq_false_2
      by (intros H; apply app_eq_nil in H as [_ H]; discriminate).
    reflexivity. }
  exists w3. split; [exact Hall|]. split_and!.
  - exact Hst3.
  - unfold w3. cbn. rewrite Nat.eqb_refl. reflexivity.
  - intros a' Hne'. unfold w3. cbn. apply Nat.eqb_neq in Hne'.
    rewrite Hne', Hfr2, Hfr1. reflexivity.
  - change (statusOf w3 t) with (statusOf w2 t). rewrite Hs2. exact Hs1.
  - change (calls w3) with (calls w2). rewrite Hc2. exact Hc1.
Qed.

(** *** The threadStatus field across every call *)

Section InSync.
Variable t0 : ThreadAddr.
Hypothesis EP : ExternalsPreserve (synced t0).

Let P (th : JVMThread.t) : Prop :=
  java_lang_Thread.threadStatus (JVMThread.jvmThreadObj th) = jvmNewStatus (JVMThread.status th).




















End InSync.


(** *** The stack trace and the current method *)




(** *** Returning into an internal or a native frame *)

(** X27. [asyncReturn(rv, rv2)] into a caller that is not a bytecode frame.
    On a thread that is RUNNING, RUNNABLE or ASYNC_WAITING, with the return
    value passing the debug checks (or in a release build): the top frame is
    popped; an internal frame below it records [rv] as a value for its
    callback (clearing a pending exception) and drops [rv2]; a native frame
    below it is left as it is; no other frame changes; the thread is
    RUNNABLE, or still RUNNING if it was RUNNING. *)
Theorem asyncReturn_into_other_frames :
  ∀ (n : nat) (w : W) (t : ThreadAddr) (rv rv2 : Value) (rest : list FrameAddr)
    (below top : FrameAddr),
    statusOf w t = ThreadStatus.RUNNING ∨ statusOf w t = ThreadStatus.RUNNABLE
    ∨ statusOf w t = ThreadStatus.ASYNC_WAITING →
    RELEASE = true
    ∨ (notBoolean rv && looseNull rv2 = true
       ∧ returnValueChecked t rv rv2 (popFrame t w) (frameObjs w top)) →
    stackOf w t = rest ++ [below; top] →
    (∀ b, frameObjs w below ≠ Bytecode b) →
    ∃ w', asyncReturn (2 + n) t rv rv2 w = Ok tt w'
      ∧ stackOf w' t = rest ++ [below]
      ∧ frameObjs w' below
        = match frameObjs w below with
          | Internal i => Internal (InternalStackFrame.mk false rv (InternalStackFrame.cb i))
          | other => other
          end
      ∧ (∀ a, a ≠ below → frameObjs w' a = frameObjs w a)
      ∧ statusOf w' t = afterRunnable (statusOf w t)
      ∧ calls w' = calls w.
Proof.
  intros n w t rv rv2 rest below top Hs Hchk Hstack Hnb.
  assert (Hlast : last (stackOf w t) = Some top) by (rewrite Hstack; apply last_two).
  assert (Hrem : removelast (stackOf w t) = rest ++ [below])
    by (rewrite Hstack; apply removelast_two).
  assert (Hrun : asyncReturn (S (S n)) t rv rv2 w
    = (match last (removelast (stackOf w t)) with
       | Some below => scheduleResume below t rv rv2
       | None => ret tt
       end ;;; setStatus (S n) t ThreadStatus.RUNNABLE None) (popFrame t w))
    by (apply (asyncReturn_eq _ _ _ _ _ top); auto).
  rewrite Hrem, last_snoc in Hrun.
  set (w2 := match frameObjs w below with
             | Internal i =>
                 updFrame below (fun _ => Internal (InternalStackFrame.mk false rv
                                                      (InternalStackFrame.cb i))) (popFrame t w)
             | _ => popFrame t w
             end).
  assert (Hres : scheduleResume below t rv rv2 (popFrame t w) = Ok tt w2).
  { unfold scheduleResume, frame. rewrite bind_get.
    change (frameObjs (popFrame t w) below) with (frameObjs w below). unfold w2.
    destruct (frameObjs w below) as [b|nf|i]; [exfalso; apply (Hnb b); reflexivity| |];
      reflexivity. }
  rewrite (bind_Ok _ _ _ _ _ Hres) in Hrun.
  assert (Hthreads : threadObjs w2 = threadObjs (popFrame t w)).
  { unfold w2. destruct (frameObjs w below); reflexivity. }
  assert (Hs2 : statusOf w2 t = statusOf w t).
  { unfold statusOf. rewrite Hthreads. unfold popFrame. wsimpl. reflexivity. }
  destruct (setStatus_RUNNABLE_from3 n w2 t ltac:(rewrite Hs2; exact Hs))
    as (w3 & Hrun3 & (Hst3 & Hfr3 & Hcalls3 & _) & Hs3).
  rewrite Hrun3 in Hrun.
  exists w3. split; [exact Hrun|]. split_and!.
  - rewrite Hst3. unfold stackOf. rewrite Hthreads. unfold popFrame. wsimpl.
    fold (stackOf w t). exact Hrem.
  - rewrite Hfr3. unfold w2.
    destruct (frameObjs w below) as [b|nf|i] eqn:Hfb; cbn; rewrite ?Nat.eqb_refl; auto.
  - intros a Hne. rewrite Hfr3. unfold w2.
    destruct (frameObjs w below) as [b|nf|i]; cbn; try reflexivity.
    apply Nat.eqb_neq in Hne. rewrite Hne. reflexivity.
  - rewrite Hs3, Hs2. reflexivity.
  - rewrite Hcalls3. unfold w2. destruct (frameObjs w below); reflexivity.
Qed.

(** X28. A return value that fails [validateReturnValue] is noticed after
    the frame is gone.  In a debug build, on a thread that is RUNNING,
    RUNNABLE or ASYNC_WAITING, [asyncReturn(rv, rv2)] from a bytecode or
    native frame whose check fails throws the error of the check with the top
    frame already popped and nothing else done: the frame below is not
    resumed, the status of the thread is as it was and no other module is
    called.  A method of return type V fails the check with every value but
    undefined. *)
Theorem asyncReturn_invalid_return_value :
  ∀ (n : nat) (w : W) (t : ThreadAddr) (rv rv2 : Value) (top : FrameAddr) (m : Method.t),
    RELEASE = false →
    statusOf w t = ThreadStatus.RUNNING ∨ statusOf w t = ThreadStatus.RUNNABLE
    ∨ statusOf w t = ThreadStatus.ASYNC_WAITING →
    notBoolean rv && looseNull rv2 = true →
    last (stackOf w t) = Some top →
    frameMethod (frameObjs w top) = Some m →
    (∀ err,
       validateReturnValue t m (Method.returnType m) JVMThread_bsCl (Method.loader m) rv rv2
         (popFrame t w) = Some err →
       asyncReturn (S n) t rv rv2 w = Throw err (popFrame t w)
       ∧ stackOf (popFrame t w) t = removelast (stackOf w t)
       ∧ frameObjs (popFrame t w) = frameObjs w
       ∧ statusOf (popFrame t w) t = statusOf w t
       ∧ tpool (popFrame t w) = tpool w
       ∧ calls (popFrame t w) = calls w)
    ∧ (Method.returnType m = "V" →
       util_is_primitive_type "V" = true →
       Method.fullSignature m ≠ invokeBasic →
       rv ≠ undefined ∨ rv2 ≠ undefined →
       validateReturnValue t m (Method.returnType m) JVMThread_bsCl (Method.loader m) rv rv2
         (popFrame t w)
       = Some (AssertionError "Return values must be undefined for Void type")).
Proof.
  intros n w t rv rv2 top m Hdebug Hs Hchk Hlast Hm. split.
  - intros err Herr.
    split_and!; try reflexivity.
    + rewrite asyncReturn_S. unfold asyncReturn_body. rewrite bind_thread.
      fold (statusOf w t). rewrite (bind_Ok _ _ _ _ _ (status3_assert _ _ _ Hs)).
      assert (Ha : assert (notBoolean rv && looseNull rv2) "" w = Ok tt w)
        by (apply assert_ok; right; exact Hchk).
      rewrite (bind_Ok _ _ _ _ _ Ha).
      unfold pop. fold (stackOf w t). rewrite Hlast.
      unfold setThread. rewrite bind_modify.
      change (updThread t (JVMThread.with_stack (removelast (stackOf w t))) w)
        with (popFrame t w).
      unfold frame. rewrite bind_get.
      change (frameObjs (popFrame t w) top) with (frameObjs w top).
      assert (Hv : assertReturnValue t m rv rv2 (popFrame t w) = Throw err (popFrame t w)).
      { unfold assertReturnValue. rewrite bind_get, Herr, Hdebug. reflexivity. }
      destruct (frameObjs w top) as [b|nf|i]; cbn in Hm; [| |discriminate Hm];
        injection Hm as <-; rewrite (bind_Throw _ _ _ _ _ Hv); reflexivity.
    + unfold popFrame, stackOf, updThread. cbn. rewrite Nat.eqb_refl. reflexivity.
    + unfold popFrame, statusOf, updThread. cbn. rewrite Nat.eqb_refl. reflexivity.
  - intros HV Hprim Hsig Hne.
    unfold validateReturnValue. rewrite HV, Hprim.
    apply String.eqb_neq in Hsig. rewrite Hsig.
    unfold validatePrimitive. cbn.
    destruct rv, rv2; try reflexivity; destruct Hne as [Hne|Hne]; congruence.
Qed.

Lemma withinBounds_iff (w : W) (v : Value) (hi lo : Z) :
  withinBounds w v hi lo = true ↔ ∃ n, ToNumber w v = Some n ∧ lo <= n <= hi.
Proof.
  unfold withinBounds. destruct (ToNumber w v) as [n|].
  - rewrite andb_true_iff, Z.geb_leb, !Z.leb_le. split.
    + intros [H1 H2]. exists n. split; [reflexivity | lia].
    + intros (n' & Hn & Hb). injection Hn as <-. lia.
  - split; [discriminate | intros (n & Hn & _); discriminate Hn].
Qed.

Lemma firstFailed_one (b : bool) (msg : string) :
  firstFailed [(b, msg)] = None ↔ b = true.
Proof. destruct b; cbn; split; first [reflexivity | discriminate]. Qed.

(** X29. What [NativeStackFrame.run] hands to [asyncReturn] against the
    check of [validateReturnValue], for a native method of a primitive return
    type (other than invokeBasic).  A method of type Z always passes: the
    frame turns whatever the function returned into 1 or 0.  A method of type
    V passes exactly when the function returned undefined.  A method of type
    D passes exactly when it returned a number, and a method of type J when
    it returned a [gLong] within 64 bits: the frame adds the null the check
    wants as second value.  A method of type I passes exactly when the value
    converts to a number within 32 bits, so null, which converts to 0, passes
    too. *)
Theorem NativeStackFrame_return_values_checked :
  ∀ (t : ThreadAddr) (method : Method.t) (rv : Value) (w : W),
    let returnType := Method.returnType method in
    let rvs := nativeReturnValues returnType rv in
    let valid := returnValueValid t method (fst rvs) (snd rvs) w in
    Method.fullSignature method ≠ invokeBasic →
    util_is_primitive_type returnType = true →
    (returnType = "Z" → valid)
    ∧ (returnType = "V" → (valid ↔ rv = undefined))
    ∧ (returnType = "D" → (valid ↔ ∃ n, rv = num n))
    ∧ (returnType = "J" →
       (valid ↔ ∃ a z, rv = obj a ∧ gLong_value a = Some z ∧ - 2 ^ 63 <= z <= 2 ^ 63 - 1))
    ∧ (returnType = "I" →
       (valid ↔ ∃ n, ToNumber w rv = Some n ∧ -2147483648 <= n <= 2147483647))
    ∧ (returnType = "I" → rv = null → valid).
Proof.
  intros t method rv w returnType rvs valid Hsig Hprim.
  apply String.eqb_neq in Hsig.
  assert (Hv : valid ↔ validatePrimitive w returnType (fst rvs) (snd rvs) = None).
  { unfold valid, returnValueValid, validateReturnValue. fold returnType.
    rewrite Hsig, Hprim. reflexivity. }
  assert (HI : returnType = "I" →
               (valid ↔ ∃ n, ToNumber w rv = Some n ∧ -2147483648 <= n <= 2147483647)).
  { intros Heq. rewrite Hv. unfold rvs. rewrite Heq.
    change (validatePrimitive w "I" (fst (nativeReturnValues "I" rv))
              (snd (nativeReturnValues "I" rv)))
      with (firstFailed [(withinBounds w rv 2147483647 (-2147483648),
                          "Int value is out of bounds: ")]).
    rewrite firstFailed_one. apply withinBounds_iff. }
  split_and!.
  - intros Heq. apply Hv. unfold rvs. rewrite Heq. cbn. destruct (truthy rv); reflexivity.
  - intros Heq. rewrite Hv. unfold rvs. rewrite Heq. cbn.
    destruct rv; cbn; split; intros H; first [reflexivity | discriminate H].
  - intros Heq. rewrite Hv. unfold rvs. rewrite Heq. cbn.
    destruct rv as [| | n | b | a]; cbn;
      (split; [intros H; first [discriminate H | exists n; reflexivity]
              | intros (n' & H); first [discriminate H | reflexivity]]).
  - intros Heq. rewrite Hv. unfold rvs. rewrite Heq.
    change (validatePrimitive w "J" (fst (nativeReturnValues "J" rv))
              (snd (nativeReturnValues "J" rv)))
      with (validateLong rv null).
    unfold validateLong. cbn [isNull].
    destruct rv as [| | n | b | a];
      try (split; [discriminate | intros (a' & z & H & _); discriminate H]).
    destruct (gLong_value a) as [z|] eqn:Hz.
    + rewrite firstFailed_one, andb_true_iff, Z.geb_leb, !Z.leb_le. split.
      * intros [H1 H2]. exists a, z. split_and!; [reflexivity | exact Hz | lia | lia].
      * intros (a' & z' & Ha & Hz' & Hb). injection Ha as <-.
        rewrite Hz in Hz'. injection Hz' as <-. lia.
    + split; [discriminate|]. intros (a' & z & Ha & Hz' & _). injection Ha as <-.
      rewrite Hz in Hz'. discriminate Hz'.
  - exact HI.
  - intros Heq ->. apply (HI Heq). exists 0. split; [reflexivity | lia].
Qed.

End Properties.

(** ** The theorems at the sample states *)

Section SampleRuns.
Import Sample.
Local Existing Instance Sample.debug.

(** Thread 0 of the sample state is RUNNING: [setStatus(RUNNABLE)] returns
    in the same state. *)
Lemma setStatus_RUNNING_RUNNABLE_ignored_sample :
  statusOf world 0%nat = ThreadStatus.RUNNING
  ∧ setStatus 1 0%nat ThreadStatus.RUNNABLE None world = Ok tt world.
Proof.
  split; [reflexivity|].
  apply (setStatus_RUNNING_RUNNABLE_ignored 0 world 0%nat None). reflexivity.
Defined.

(** Thread 1 made immortal ignores [setStatus(TERMINATED)]. *)
Lemma setStatus_TERMINATED_immortal_noop_sample :
  JVMThread.immortal (threadObjs immortalWorld 1%nat) = true
  ∧ setStatus 1 1%nat ThreadStatus.TERMINATED None immortalWorld = Ok tt immortalWorld.
Proof.
  split; [reflexivity|].
  apply (setStatus_TERMINATED_immortal_noop 0 immortalWorld 1%nat None). reflexivity.
Defined.



(** An unpark of thread 0 in the sample state, and a park of it after an
    unpark. *)
Lemma unpark_sets_RUNNABLE_park_leaves_status_sample :
  parkCountOf world 0%nat - 1 <= 0
  ∧ parkCountOf unparkedWorld 0%nat + 1 <= 0
  ∧ park 3 0%nat unparkedWorld
    = Ok tt (setCount (refOf unparkedWorld 0%nat) (parkCountOf unparkedWorld 0%nat + 1)
               unparkedWorld).
Proof.
  assert (H1 : parkCountOf world 0%nat - 1 <= 0) by (vm_compute; discriminate).
  assert (H2 : parkCountOf unparkedWorld 0%nat + 1 <= 0) by (vm_compute; discriminate).
  split; [exact H1|]. split; [exact H2|].
  apply (unpark_sets_RUNNABLE_park_leaves_status 0 world unparkedWorld 0%nat H1 H2).
Defined.

(** The caller frame of the sample state is at an invokestatic: resuming it
    with one value moves the pc from 12 to 15 and pushes the value. *)
Lemma scheduleResume_advances_past_invoke_sample :
  frameObjs world 0%nat = callerFrame
  ∧ readUInt8 callerCode 12 = Some 0xb8
  ∧ ∃ w', scheduleResume 0%nat 0%nat (num 7) undefined world = Ok tt w'
          ∧ frameObjs w' 0%nat
            = Bytecode (BytecodeStackFrame.mk 15 [] [num 7] false false caller).
Proof.
  split; [reflexivity|]. split; [reflexivity|].
  destruct (scheduleResume_advances_past_invoke world 0%nat
              (BytecodeStackFrame.mk 12 [] [] false false caller) 0%nat
              (num 7) undefined 0xb8) as (Hinvoke & _).
  - reflexivity.
  - intros o1 o2 H. destruct o1, o2; first [reflexivity | discriminate H].
  - reflexivity.
  - destruct (Hinvoke OpCode.INVOKESTATIC eq_refl) as (w' & Hrun & Hframe & _).
    exists w'. split; [exact Hrun | exact Hframe].
Defined.

(** With the catch type resolved, an exception of class 5 thrown in the
    caller frame of thread 1 at pc 12 is caught by the handler over [8, 20):
    the operand stack becomes the exception alone and the pc becomes 30.  In
    the synchronized method at pc 2 no entry covers the pc: the monitor of the
    method is exited and the answer is false. *)
Lemma scheduleException_bytecode_sample :
  let eh := ExceptionHandler.mk 8 20 30 "Ljava/lang/Exception;" in
  let b := BytecodeStackFrame.mk 12 [] [] false false caller in
  frameObjs resolvedWorld 2%nat = Bytecode b
  ∧ scheduleException (setStatus 3) 2%nat 1%nat 5%nat resolvedWorld
    = Ok true (updFrame 2%nat (onBytecode (fun b => caughtFrame b eh 5%nat)) resolvedWorld)
  ∧ BytecodeStackFrame.stack (caughtFrame b eh 5%nat) = [obj 5%nat]
  ∧ BytecodeStackFrame.pc (caughtFrame b eh 5%nat) = 30
  ∧ scheduleException (setStatus 3) 2%nat 1%nat 5%nat syncWorld
    = Ok false (logged (EvMonitorExit 7%nat 1%nat) syncWorld syncWorld).
Proof.
  intros eh b.
  assert (Hframe : frameObjs resolvedWorld 2%nat = Bytecode b) by reflexivity.
  split; [exact Hframe|].
  pose proof (scheduleException_bytecode 3 resolvedWorld 2%nat b 1%nat 5%nat Hframe) as H.
  cbv zeta in H. destruct H as (_ & _ & _ & Hcaught & _ & _).
  destruct (Hcaught [] eh [] eq_refl) as (Hrun & _ & _ & _ & _ & Hstack & Hpc);
    [constructor | reflexivity |].
  split_and!; [exact Hrun | exact Hstack | exact Hpc |].
  pose proof (scheduleException_bytecode 3 syncWorld 2%nat
                (BytecodeStackFrame.mk 2 [] [] false true syncCaller) 1%nat 5%nat eq_refl) as H.
  cbv zeta in H. destruct H as (_ & _ & _ & _ & Hnone & _).
  rewrite Hnone; [reflexivity|].
  constructor; [|constructor].
  split; intros Hx; vm_compute in Hx; discriminate Hx.
Defined.

(** With no thread running and the index at 0, the scheduler of the sample
    pool picks a RUNNABLE thread of the pool and runs it. *)
Lemma scheduleNextThread_round_robin_sample :
  ThreadPool.runningThread (tpool idleWorld) = None
  ∧ -1 <= ThreadPool.runningThreadIndex (tpool idleWorld)
  ∧ ∃ i t, lookupZ (ThreadPool.threads (tpool idleWorld)) i = Some t
           ∧ statusOf idleWorld t = ThreadStatus.RUNNABLE
           ∧ scheduleNextThread_deferred 3 idleWorld = run 2 t (pickedState idleWorld i t).
Proof.
  assert (H1 : ThreadPool.runningThread (tpool idleWorld) = None) by reflexivity.
  assert (H2 : -1 <= ThreadPool.runningThreadIndex (tpool idleWorld)) by (vm_compute; discriminate).
  split; [exact H1|]. split; [exact H2|].
  destruct (scheduleNextThread_round_robin 2 idleWorld H1 H2)
    as [(pre & i & post & t & _ & _ & Hl & Hs & Hrun & _) | (Hnone & _)].
  - exists i, t. split; [exact Hl|]. split; [exact Hs | exact Hrun].
  - exfalso. apply (Hnone 1%nat); [repeat constructor | reflexivity].
Defined.

(** An exception of class 5 thrown on thread 0 of the idle state, which
    waits on an asynchronous operation in the frame of park: the thread is
    made RUNNABLE before the frames are asked. *)
Lemma throwException_unwinds_sample :
  statusOf idleWorld 0%nat = ThreadStatus.ASYNC_WAITING
  ∧ stackOf idleWorld 0%nat ≠ []
  ∧ throwException 3 0%nat 5%nat idleWorld ≠ OutOfFuel
  ∧ ∃ w1, setStatus 3 0%nat ThreadStatus.RUNNABLE None (popInternal 0%nat idleWorld) = Ok tt w1
      ∧ statusOf w1 0%nat = ThreadStatus.RUNNABLE
      ∧ stackOf w1 0%nat = [0%nat; 1%nat].
Proof.
  assert (H1 : stackOf idleWorld 0%nat ≠ []) by discriminate.
  split; [reflexivity|]. split; [exact H1|].
  destruct (throwException_unwinds 0 idleWorld 0%nat 5%nat)
    as (Hfuel & w1 & Hset & Hstatus & Hsame & _).
  - intros m w0 w1 r H. injection H as _ <-. reflexivity.
  - right. right. reflexivity.
  - exact H1.
  - vm_compute. lia.
  - split; [exact Hfuel|]. exists w1.
    split_and!; [exact Hset | exact Hstatus |].
    destruct Hsame as (Hstacks & _). rewrite Hstacks. reflexivity.
Defined.

(** C6, as stated, fails on the running thread of the sample state with the
    catch type resolved: [setStatus(RUNNABLE)] leaves the thread RUNNING, and
    the thread is still RUNNING when [throwException] returns, the exception
    caught in the caller frame. *)
Lemma throwException_RUNNING_stays_RUNNING :
  statusOf resolvedWorld 0%nat = ThreadStatus.RUNNING
  ∧ stackOf resolvedWorld 0%nat ≠ []
  ∧ outcome (setStatus 3 0%nat ThreadStatus.RUNNABLE None (popInternal 0%nat resolvedWorld))
      (fun w1 => statusOf w1 0%nat = ThreadStatus.RUNNING) (fun _ => False)
  ∧ outcome (throwException 3 0%nat 5%nat resolvedWorld)
      (fun w' => statusOf w' 0%nat = ThreadStatus.RUNNING ∧ stackOf w' 0%nat = [0%nat])
      (fun _ => False).
Proof.
  split; [reflexivity|]. split; [discriminate|].
  split; vm_compute; [reflexivity | split; reflexivity].
Qed.

(** Two exceptions thrown in turn on thread 1 of the sample state, where the
    catch type of the handler is not resolved: two requests to resolve it. *)
Lemma scheduleException_asks_again_after_failure_sample :
  ∃ w', rethrows 3 1%nat [5%nat; 6%nat] world = Ok tt w'
    ∧ resolveRequests 0%nat ["Ljava/lang/Exception;"] w'
      = (resolveRequests 0%nat ["Ljava/lang/Exception;"] world + 2)%nat.
Proof.
  apply (scheduleException_asks_again_after_failure 0 [5%nat; 6%nat] world 1%nat 2%nat
           (BytecodeStackFrame.mk 12 [] [] false false caller)).
  - intros cb w0. reflexivity.
  - intros e w' _ Hext. cbn. unfold getResolvedClass. rewrite Hext. reflexivity.
  - right. left. reflexivity.
  - reflexivity.
  - reflexivity.
Defined.

(** The running thread of the sample state parks: the threadStatus field
    ends at the projection of the new status. *)
Lemma setStatus_threadStatus_projection_sample :
  performsTransition world 0%nat ThreadStatus.PARKED = true
  ∧ ends (setStatus 3 0%nat ThreadStatus.PARKED None world)
      (fun w' =>
         threadStatusOf w' 0%nat = JVMTIThreadState_value (JVMTI_projection (statusOf w' 0%nat))).
Proof.
  split; [reflexivity|].
  apply (setStatus_threadStatus_projection 3 world 0%nat ThreadStatus.PARKED None).
  - intros o. destruct o; cbn; lia.
  - constructor; intros; intros w Hw; exact Hw.
  - reflexivity.
Defined.


(** *** The other properties at the sample states *)

Ltac not_among :=
  let H := fresh in
  intros H;
  repeat (apply elem_of_cons in H as [H|H]; [vm_compute in H; discriminate H|]);
  inversion H.

Ltac opcodes_differ :=
  let o1 := fresh in let o2 := fresh in let H := fresh in
  intros o1 o2 H; destruct o1, o2; first [reflexivity | discriminate H].

(** Thread 1 of the sample state is RUNNABLE and cannot park. *)
Lemma setStatus_invalid_transition_throws_sample :
  validateThreadTransition (statusOf world 1%nat) ThreadStatus.PARKED = false
  ∧ setStatus 1 1%nat ThreadStatus.PARKED None world
    = Throw (AssertionError "Invalid thread transition") world.
Proof.
  split; [reflexivity|].
  apply (setStatus_invalid_transition_throws 0 world 1%nat ThreadStatus.PARKED None);
    reflexivity.
Defined.

(** PARKED is entered from RUNNING and not from RUNNABLE. *)
Lemma validTransitions_shape_sample :
  validateThreadTransition ThreadStatus.RUNNING ThreadStatus.PARKED = true
  ∧ validateThreadTransition ThreadStatus.RUNNABLE ThreadStatus.PARKED ≠ true.
Proof.
  destruct validTransitions_shape as (_ & H & _).
  assert (Hin : ThreadStatus.PARKED ∈ [ThreadStatus.BLOCKED; ThreadStatus.WAITING;
                                       ThreadStatus.TIMED_WAITING; ThreadStatus.PARKED])
    by repeat constructor.
  split.
  - apply (H ThreadStatus.RUNNING ThreadStatus.PARKED Hin). reflexivity.
  - intros E. apply (H ThreadStatus.RUNNABLE ThreadStatus.PARKED Hin) in E. discriminate E.
Defined.

(** The running thread of the sample state waits on monitor 7. *)
Lemma setStatus_suspends_sample :
  statusOf world 0%nat = ThreadStatus.RUNNING
  ∧ ∃ w', setStatus 1 0%nat ThreadStatus.WAITING (Some 7%nat) world = Ok tt w'
      ∧ statusOf w' 0%nat = ThreadStatus.WAITING
      ∧ monitorOf w' 0%nat = Some 7%nat
      ∧ ThreadPool.runningThread (tpool w') = None
      ∧ immediates w' = [CbScheduleNextThread].
Proof.
  split; [reflexivity|].
  destruct (setStatus_suspends 0 world 0%nat ThreadStatus.WAITING (Some 7%nat))
    as (w' & Hrun & Hs & _ & Hm & _ & Hpool).
  - reflexivity.
  - discriminate.
  - discriminate.
  - discriminate.
  - right. reflexivity.
  - intros _. right. eexists. reflexivity.
  - rewrite bool_decide_eq_true_2 in Hpool by reflexivity.
    destruct Hpool as (Hnone & Hq).
    exists w'. split_and!; assumption.
Defined.

(** The running thread of the sample state asked to wait without a
    monitor. *)
Lemma setStatus_monitor_missing_sample :
  validateThreadTransition (statusOf world 0%nat) ThreadStatus.WAITING = true
  ∧ setStatus 1 0%nat ThreadStatus.WAITING None world
    = Throw (AssertionError "") (transitionOpened 0%nat ThreadStatus.WAITING world)
  ∧ statusOf (transitionOpened 0%nat ThreadStatus.WAITING world) 0%nat = ThreadStatus.WAITING.
Proof.
  split; [reflexivity|].
  destruct (setStatus_monitor_missing 0 world 0%nat ThreadStatus.WAITING)
    as (Hrun & Hs & _); [reflexivity ..|].
  split; assumption.
Defined.

(** Thread 0 of the idle state ends its asynchronous wait. *)
Lemma setStatus_RUNNABLE_wakes_sample :
  statusOf idleWorld 0%nat = ThreadStatus.ASYNC_WAITING
  ∧ ∃ w', setStatus 1 0%nat ThreadStatus.RUNNABLE None idleWorld = Ok tt w'
      ∧ statusOf w' 0%nat = ThreadStatus.RUNNABLE
      ∧ immediates w' = [CbScheduleNextThread].
Proof.
  split; [reflexivity|].
  destruct (setStatus_RUNNABLE_wakes 0 idleWorld 0%nat None)
    as (w' & Hrun & Hs & _ & _ & _ & _ & Hq).
  - not_among.
  - exists w'. split_and!; assumption.
Defined.

(** Thread 5 added twice to the pool of the sample state. *)
Lemma addThread_once_sample :
  ∃ w', addThread 5%nat world = Ok tt w'
    ∧ ThreadPool.threads (tpool w') = [0%nat; 1%nat; 5%nat]
    ∧ addThread 5%nat w' = Ok tt w'.
Proof.
  destruct (addThread_once world 5%nat) as (w' & Hadd & _ & _ & _ & Hnew & _ & Hagain).
  exists w'. split_and!; [exact Hadd | | exact Hagain].
  rewrite Hnew; [reflexivity|]. not_among.
Defined.

(** A new thread at address 5 of the sample state. *)
Lemma newThread_NEW_sample :
  let o := java_lang_Thread.mk 5 0 0 in
  (5%nat ∉ ThreadPool.threads (tpool world))
  ∧ ∃ w', newThread 5%nat o world = Ok 5%nat w'
      ∧ threadObjs w' 5%nat = JVMThread.mk ThreadStatus.NEW [] false false None o
      ∧ ThreadPool.threads (tpool w') = [0%nat; 1%nat; 5%nat].
Proof.
  intros o.
  assert (H : 5%nat ∉ ThreadPool.threads (tpool world)) by not_among.
  split; [exact H|].
  destruct (newThread_NEW world 5%nat o H) as (w' & Hrun & Hobj & _ & Hl & _).
  exists w'. split_and!; assumption.
Defined.

(** Thread 1 of the sample state terminates while thread 0 runs. *)
Lemma threadTerminated_other_sample :
  ∃ w', threadTerminated 1%nat world = Ok tt w'
    ∧ ThreadPool.threads (tpool w') = [0%nat]
    ∧ ThreadPool.runningThread (tpool w') = Some 0%nat
    ∧ lookupZ (ThreadPool.threads (tpool w')) (ThreadPool.runningThreadIndex (tpool w'))
      = Some 0%nat.
Proof.
  destruct (threadTerminated_other world 1%nat)
    as (w' & k & Hrun & Hk & _ & Hthreads & Hr & Hidx & _).
  - repeat constructor.
  - discriminate.
  - exists w'. split_and!; [exact Hrun | | exact Hr |].
    + rewrite Hthreads. destruct k as [|[|k]]; cbn in Hk; try discriminate Hk. reflexivity.
    + apply Hidx; [reflexivity | repeat constructor].
Defined.

(** The running thread of the sample state terminates; thread 1 keeps the
    JVM alive. *)
Lemma threadTerminated_running_sample :
  keepsAlive world 1%nat
  ∧ threadTerminated 0%nat world
    = Ok tt (with_immediates [CbScheduleNextThread] (runningThreadRemoved 0 world)).
Proof.
  assert (Hk : keepsAlive world 1%nat)
    by (split_and!; [reflexivity | discriminate | discriminate]).
  split; [exact Hk|].
  destruct (threadTerminated_running world 0%nat) as (k & Hat & _ & Hsome & _).
  - repeat constructor.
  - reflexivity.
  - destruct k as [|[|k]]; cbn in Hat; try discriminate Hat.
    apply Hsome. exists 1%nat. split; [repeat constructor | exact Hk].
Defined.

(** After the running thread 0 of the sample state terminates, the scan
    starts at thread 1. *)
Lemma threadTerminated_keeps_turn_sample :
  NoDup (ThreadPool.threads (tpool world))
  ∧ ∃ w' i0, threadTerminated 0%nat world = Ok tt w'
      ∧ head (scanOrder (ThreadPool.runningThreadIndex (tpool w'))
                (length (ThreadPool.threads (tpool w')))) = Some i0
      ∧ lookupZ (ThreadPool.threads (tpool w')) i0 = Some 1%nat.
Proof.
  assert (Hnd : NoDup (ThreadPool.threads (tpool world))).
  { apply NoDup_cons. split; [not_among|]. apply NoDup_cons. split; [not_among|].
    apply NoDup_nil_2. }
  split; [exact Hnd|].
  destruct (threadTerminated_keeps_turn world 0%nat Hnd)
    as (w' & i0 & Hrun & _ & _ & _ & Hhead & Hnext).
  - reflexivity.
  - reflexivity.
  - exists 1%nat. split_and!; [repeat constructor | discriminate |].
    split_and!; [reflexivity | discriminate | discriminate].
  - exists w', i0. split_and!; [exact Hrun | exact Hhead |].
    rewrite Hnext. reflexivity.
Defined.

(** Thread 5 is not in the pool of the sample state: the debug build
    throws, the release build removes thread 1. *)
Lemma threadTerminated_absent_sample :
  (5%nat ∉ ThreadPool.threads (tpool world))
  ∧ threadTerminated 5%nat world = Throw (AssertionError "") world
  ∧ ∃ w', @threadTerminated Ext release 5%nat world = Ok tt w'
      ∧ ThreadPool.threads (tpool w') = [0%nat].
Proof.
  assert (H : 5%nat ∉ ThreadPool.threads (tpool world)) by not_among.
  split; [exact H|]. split.
  - destruct (threadTerminated_absent world 5%nat H) as (Hdebug & _).
    apply Hdebug. reflexivity.
  - destruct (@threadTerminated_absent Ext release world 5%nat H) as (_ & Hrelease).
    destruct Hrelease as (w' & Hrun & Hl & _); [reflexivity | discriminate |].
    exists w'. split; [exact Hrun | exact Hl].
Defined.

(** The running thread of the sample state parks once. *)
Lemma isParked_iff_PARKED_sample :
  parkCountOf world 0%nat = 0
  ∧ ∃ w', parkCalls 3 0%nat [Park] world = Ok tt w'
      ∧ statusOf w' 0%nat = ThreadStatus.PARKED
      ∧ isParked 0%nat w' = Ok true w'.
Proof.
  split; [reflexivity|].
  destruct (parkCalls 3 0%nat [Park] world) as [[] w'| |] eqn:Hrun;
    [| vm_compute in Hrun; discriminate Hrun ..].
  assert (Hs : statusOf w' 0%nat = ThreadStatus.PARKED)
    by (vm_compute in Hrun; injection Hrun as <-; reflexivity).
  exists w'. split_and!; [reflexivity | exact Hs |].
  rewrite (isParked_iff_PARKED 0 world w' 0%nat [Park]);
    [| reflexivity | discriminate | exact Hrun].
  rewrite bool_decide_eq_true_2 by exact Hs. reflexivity.
Defined.

(** The native frame of hashCode of thread 0 returns the int 7 into the
    caller, stopped at the invokestatic at pc 12. *)
Lemma asyncReturn_resumes_caller_sample :
  stackOf intWorld 0%nat = [0%nat; 1%nat]
  ∧ returnValueChecked 0%nat (num 7) undefined (popFrame 0%nat intWorld)
      (frameObjs intWorld 1%nat)
  ∧ ∃ w', asyncReturn 2 0%nat (num 7) undefined intWorld = Ok tt w'
      ∧ stackOf w' 0%nat = [0%nat]
      ∧ frameObjs w' 0%nat = Bytecode (BytecodeStackFrame.mk 15 [] [num 7] false false caller)
      ∧ statusOf w' 0%nat = ThreadStatus.RUNNING.
Proof.
  assert (Hchk : returnValueChecked 0%nat (num 7) undefined (popFrame 0%nat intWorld)
                   (frameObjs intWorld 1%nat)) by (vm_compute; reflexivity).
  split; [reflexivity|]. split; [exact Hchk|].
  destruct (asyncReturn_resumes_caller 0 intWorld 0%nat (num 7) undefined [] 0%nat 1%nat
              (BytecodeStackFrame.mk 12 [] [] false false caller) OpCode.INVOKESTATIC)
    as (w' & Hrun & Hst & Hf & _ & Hs & _).
  - opcodes_differ.
  - left. reflexivity.
  - right. split; [reflexivity | exact Hchk].
  - reflexivity.
  - reflexivity.
  - reflexivity.
  - exists w'. split_and!; assumption.
Defined.

(** [asyncReturn] on the NEW thread 2, on thread 1 without its frame, and
    on thread 1 returning from its only frame, of a method of type V. *)
Lemma asyncReturn_edges_sample :
  asyncReturn 1 2%nat null undefined world = Throw (AssertionError "") world
  ∧ asyncReturn 1 1%nat null undefined emptyWorld
    = Throw (TypeError "Cannot read property 'type' of undefined") (popFrame 1%nat emptyWorld)
  ∧ returnValueChecked 1%nat undefined undefined (popFrame 1%nat world) (frameObjs world 2%nat)
  ∧ ∃ w', asyncReturn 2 1%nat undefined undefined world = Ok tt w' ∧ stackOf w' 1%nat = [].
Proof.
  destruct (asyncReturn_edges 0 world 2%nat null undefined) as (H1 & _).
  destruct (asyncReturn_edges 0 emptyWorld 1%nat null undefined) as (_ & H2 & _).
  destruct (asyncReturn_edges 0 world 1%nat undefined undefined) as (_ & _ & H3).
  assert (Hchk : returnValueChecked 1%nat undefined undefined (popFrame 1%nat world)
                   (frameObjs world 2%nat)) by (vm_compute; reflexivity).
  split_and!.
  - apply H1; [reflexivity | left; not_among].
  - apply H2; [right; split; [repeat constructor | reflexivity] | reflexivity].
  - exact Hchk.
  - destruct (H3 2%nat) as (w' & Hrun & Hst & _);
      [right; left; reflexivity | right; split; [reflexivity | exact Hchk] | reflexivity |].
    exists w'. split; assumption.
Defined.

(** The native frame of hashCode of thread 0 runs to its end: the int it
    returns is pushed on the caller. *)
Lemma NativeStackFrame_run_returns_sample :
  frameObjs intWorld 1%nat = hashFrame
  ∧ returnValueValid 0%nat hashMethod (num 42) undefined (popFrame 0%nat intWorld)
  ∧ ∃ w', frameRun 3 1%nat 0%nat intWorld = Ok tt w'
      ∧ stackOf w' 0%nat = [0%nat]
      ∧ frameObjs w' 0%nat = Bytecode (BytecodeStackFrame.mk 15 [] [num 42] false false caller)
      ∧ calls w' = [EvNativeCall hashMethod 0%nat].
Proof.
  assert (Hchk : returnValueValid 0%nat hashMethod (num 42) undefined (popFrame 0%nat intWorld))
    by (vm_compute; reflexivity).
  split; [reflexivity|]. split; [exact Hchk|].
  pose proof (NativeStackFrame_run_returns 0 intWorld intWorld 0%nat 1%nat
                (NativeStackFrame.mk hashMethod []) (num 42) [] 0%nat
                (BytecodeStackFrame.mk 12 [] [] false false caller) OpCode.INVOKESTATIC) as H.
  cbv zeta in H.
  destruct H as (w' & Hrun & Hst & Hf & _ & _ & Hc).
  - opcodes_differ.
  - reflexivity.
  - reflexivity.
  - reflexivity.
  - reflexivity.
  - reflexivity.
  - reflexivity.
  - reflexivity.
  - right. split; [reflexivity | exact Hchk].
  - exists w'. split_and!; assumption.
Defined.

(** The native frame run while thread 0 waits on an asynchronous operation,
    and while an internal frame is on top of the stack. *)
Lemma NativeStackFrame_run_suspended_sample :
  statusOf idleWorld 0%nat = ThreadStatus.ASYNC_WAITING
  ∧ frameRun 1 1%nat 0%nat idleWorld
    = Ok tt (logged (EvNativeCall parkMethod 0%nat) idleWorld idleWorld)
  ∧ frameRun 1 1%nat 0%nat callbackWorld
    = Throw (TypeError "Cannot read property 'method' of null")
        (logged (EvNativeCall parkMethod 0%nat) callbackWorld callbackWorld).
Proof.
  split; [reflexivity|]. split.
  - pose proof (NativeStackFrame_run_suspended 0 idleWorld idleWorld 0%nat 1%nat
                  (NativeStackFrame.mk parkMethod []) (num 42)) as H.
    cbv zeta in H. destruct H as (H & _); [reflexivity | reflexivity |].
    apply H. left. discriminate.
  - pose proof (NativeStackFrame_run_suspended 0 callbackWorld callbackWorld 0%nat 1%nat
                  (NativeStackFrame.mk parkMethod []) (num 42)) as H.
    cbv zeta in H. destruct H as (_ & H); [reflexivity | reflexivity |].
    apply H; [reflexivity|]. exists 3%nat. split; reflexivity.
Defined.

(** The internal frame on top of thread 0, given the exception 5. *)
Lemma InternalStackFrame_run_delivers_sample :
  frameObjs callbackWorld 3%nat = Internal (InternalStackFrame.new 0%nat)
  ∧ ∃ w1, scheduleException (setStatus 1) 3%nat 0%nat 5%nat callbackWorld = Ok true w1
      ∧ frameRun 2 3%nat 0%nat w1
        = extern (EvInternalCallback 0%nat (obj 5%nat) undefined)
            (callJSFunction 0%nat (obj 5%nat) undefined) (beforeCallback 0%nat w1).
Proof.
  split; [reflexivity|].
  pose proof (InternalStackFrame_run_delivers 0 1 callbackWorld 0%nat 3%nat
                (InternalStackFrame.new 0%nat)) as H.
  cbv zeta in H.
  destruct H as (_ & _ & H & _); [reflexivity | left; reflexivity |].
  exact (H 5%nat).
Defined.


(** Thread 1 without frames is scheduled: it goes on to terminate. *)
Lemma setStatus_RUNNING_empty_stack_sample :
  stackOf emptyWorld 1%nat = []
  ∧ JVMThread.immortal (threadObjs emptyWorld 1%nat) = false
  ∧ setStatus 3 1%nat ThreadStatus.RUNNING None emptyWorld
    = exit 1%nat (transitionOpened 1%nat ThreadStatus.TERMINATED (scheduledEmpty 1%nat emptyWorld)).
Proof.
  assert (Him : JVMThread.immortal (threadObjs emptyWorld 1%nat) = false) by reflexivity.
  split; [reflexivity|]. split; [exact Him|].
  destruct (setStatus_RUNNING_empty_stack 0 emptyWorld 1%nat None) as (H & _);
    [reflexivity | reflexivity |].
  rewrite Him in H. exact H.
Defined.

(** An exception thrown on thread 1 without frames, and on the NEW
    thread 2. *)
Lemma throwException_edges_sample :
  throwException 1 1%nat 5%nat emptyWorld
  = extern (EvDispatchUncaughtException 1%nat 5%nat)
      (Thread_dispatchUncaughtException 1%nat 5%nat) emptyWorld
  ∧ throwException 1 2%nat 5%nat world
    = Throw (AssertionError "Tried to throw exception while thread was in an invalid state")
        world.
Proof.
  split.
  - destruct (throwException_edges 1 emptyWorld 1%nat 5%nat) as (H & _).
    apply H; [right; repeat constructor | reflexivity].
  - destruct (throwException_edges 1 world 2%nat 5%nat) as (_ & H).
    apply H; [reflexivity | not_among].
Defined.


(** An exception of class 5 in the caller frame of thread 1 while the catch
    type of its handler is not resolved. *)
Lemma scheduleException_defers_sample :
  scanHandlers world (Method.loader caller) 5%nat 12 (Method.exceptionHandlers caller)
  = NeedsResolution
  ∧ ∃ w2, setStatus 1 1%nat ThreadStatus.ASYNC_WAITING None world = Ok tt w2
      ∧ scheduleException (setStatus 1) 2%nat 1%nat 5%nat world
        = Ok true (logged (EvResolveClasses (Method.loader caller) 1%nat
                             ["Ljava/lang/Exception;"]) w2 w2).
Proof.
  split; [reflexivity|].
  pose proof (scheduleException_defers 0 world 2%nat
                (BytecodeStackFrame.mk 12 [] [] false false caller) 1%nat 5%nat) as H.
  cbv zeta in H.
  destruct H as (w2 & Hset & _ & _ & Hrun & _);
    [reflexivity | reflexivity | right; reflexivity |].
  exists w2. split; [exact Hset | exact Hrun].
Defined.


(** Thread 0, PARKED in the frame of park, is woken. *)
Lemma setStatus_RUNNABLE_returns_from_park_sample :
  statusOf parkedWorld 0%nat = ThreadStatus.PARKED
  ∧ ∃ w', setStatus 3 0%nat ThreadStatus.RUNNABLE None parkedWorld = Ok tt w'
      ∧ statusOf w' 0%nat = ThreadStatus.RUNNABLE
      ∧ stackOf w' 0%nat = [0%nat]
      ∧ frameObjs w' 0%nat = Bytecode (BytecodeStackFrame.mk 15 [] [] false false caller)
      ∧ immediates w' = [CbScheduleNextThread].
Proof.
  split; [reflexivity|].
  destruct (setStatus_RUNNABLE_returns_from_park 0 parkedWorld 0%nat None [] 0%nat 1%nat
              (BytecodeStackFrame.mk 12 [] [] false false caller) OpCode.INVOKESTATIC)
    as (w' & Hrun & Hs & Hst & Hf & _ & _ & Hq & _).
  - opcodes_differ.
  - reflexivity.
  - reflexivity.
  - right. reflexivity.
  - reflexivity.
  - reflexivity.
  - exists w'. split_and!; assumption.
Defined.


(** With the catch type resolved, an exception of class 5 thrown on thread
    1 is caught in its frame. *)
Lemma throwException_caught_at_top_sample :
  let eh := ExceptionHandler.mk 8 20 30 "Ljava/lang/Exception;" in
  let b := BytecodeStackFrame.mk 12 [] [] false false caller in
  stackOf resolvedWorld 1%nat = [2%nat]
  ∧ ∃ w', throwException 3 1%nat 5%nat resolvedWorld = Ok tt w'
      ∧ stackOf w' 1%nat = [2%nat]
      ∧ frameObjs w' 2%nat = Bytecode (caughtFrame b eh 5%nat)
      ∧ statusOf w' 1%nat = ThreadStatus.RUNNABLE.
Proof.
  intros eh b. split; [reflexivity|].
  destruct (throwException_caught_at_top 0 resolvedWorld 1%nat 5%nat [] 2%nat b eh)
    as (w' & Hrun & Hst & Hf & _ & _ & _ & Hs & _).
  - right. left. reflexivity.
  - reflexivity.
  - reflexivity.
  - intros w' (_ & _ & _ & Hext). cbn. unfold getResolvedClass. rewrite Hext. reflexivity.
  - exists w'. split_and!; assumption.
Defined.


(** An exception thrown in the native frame of thread 0 reaches the
    internal frame that called it. *)
Lemma throwException_reaches_internal_frame_sample :
  stackOf nativeWorld 0%nat = [3%nat; 1%nat]
  ∧ ∃ w', throwException 3 0%nat 5%nat nativeWorld = Ok tt w'
      ∧ stackOf w' 0%nat = [3%nat]
      ∧ frameObjs w' 3%nat = Internal (InternalStackFrame.mk true (obj 5%nat) 0%nat)
      ∧ statusOf w' 0%nat = ThreadStatus.RUNNING.
Proof.
  split; [reflexivity|].
  destruct (throwException_reaches_internal_frame 0 nativeWorld 0%nat 5%nat [] 3%nat
              (InternalStackFrame.new 0%nat) [1%nat])
    as (w' & Hrun & Hst & Hf & _ & Hs & _).
  - left. reflexivity.
  - reflexivity.
  - discriminate.
  - constructor; [eexists; reflexivity | constructor].
  - reflexivity.
  - cbn. lia.
  - exists w'. split_and!; assumption.
Defined.






(** The native frame of hashCode of thread 0 returns the int 7 into the
    internal frame that called it. *)
Lemma asyncReturn_into_other_frames_sample :
  stackOf intNativeWorld 0%nat = [3%nat; 1%nat]
  ∧ returnValueChecked 0%nat (num 7) undefined (popFrame 0%nat intNativeWorld)
      (frameObjs intNativeWorld 1%nat)
  ∧ ∃ w', asyncReturn 2 0%nat (num 7) undefined intNativeWorld = Ok tt w'
      ∧ stackOf w' 0%nat = [3%nat]
      ∧ frameObjs w' 3%nat = Internal (InternalStackFrame.mk false (num 7) 0%nat).
Proof.
  assert (Hchk : returnValueChecked 0%nat (num 7) undefined (popFrame 0%nat intNativeWorld)
                   (frameObjs intNativeWorld 1%nat)) by (vm_compute; reflexivity).
  split; [reflexivity|]. split; [exact Hchk|].
  destruct (asyncReturn_into_other_frames 0 intNativeWorld 0%nat (num 7) undefined [] 3%nat 1%nat)
    as (w' & Hrun & Hst & Hf & _).
  - left. reflexivity.
  - right. split; [reflexivity | exact Hchk].
  - reflexivity.
  - intros b. discriminate.
  - exists w'. split_and!; assumption.
Defined.


(** The frame of park, of return type V, returns the number 7 into the
    internal frame that called it: the check fails after the pop, and the
    internal frame has received nothing. *)
Lemma asyncReturn_invalid_return_value_sample :
  frameObjs nativeWorld 1%nat = parkFrame
  ∧ asyncReturn 1 0%nat (num 7) undefined nativeWorld
    = Throw (AssertionError "Return values must be undefined for Void type")
        (popFrame 0%nat nativeWorld)
  ∧ stackOf (popFrame 0%nat nativeWorld) 0%nat = [3%nat]
  ∧ frameObjs (popFrame 0%nat nativeWorld) 3%nat = Internal (InternalStackFrame.new 0%nat).
Proof.
  split; [reflexivity|].
  destruct (asyncReturn_invalid_return_value 0 nativeWorld 0%nat (num 7) undefined 1%nat
              parkMethod) as (Hthrow & Hvoid);
    [reflexivity | left; reflexivity | reflexivity | reflexivity | reflexivity |].
  destruct (Hthrow (AssertionError "Return values must be undefined for Void type"))
    as (Hrun & _).
  - apply Hvoid; [reflexivity | reflexivity | discriminate | left; discriminate].
  - split_and!; [exact Hrun | reflexivity | reflexivity].
Defined.

(** The int 42 passes the check of the method hashCode, of return type I,
    and fails the check of park, of return type V. *)
Lemma NativeStackFrame_return_values_checked_sample :
  returnValueValid 0%nat hashMethod (num 42) undefined world
  ∧ ¬ returnValueValid 0%nat parkMethod (num 42) undefined world.
Proof.
  split.
  - destruct (NativeStackFrame_return_values_checked 0%nat hashMethod (num 42) world)
      as (_ & _ & _ & _ & HI & _); [discriminate | reflexivity |].
    apply (HI eq_refl). exists 42. split; [reflexivity | lia].
  - destruct (NativeStackFrame_return_values_checked 0%nat parkMethod (num 42) world)
      as (_ & HV & _); [discriminate | reflexivity |].
    intros Hvalid. apply (HV eq_refl) in Hvalid. discriminate Hvalid.
Defined.

End SampleRuns.
